(** * PIOS system-call dispatch (kern/syscall.c): a shallow embedding

    The handlers of kern/syscall.c are embedded as functions in a state
    and exit monad over an explicit kernel state.  A handler ends either
    by returning to its C caller ([Ok]) or through one of the kernel's
    non-returning calls ([Exit]): trap_return, proc_ret, proc_wait, panic.

    - Integers are [Z]; a [uint32_t] subtraction is written with its
      wrap-around.
    - The register save-area of a process is a byte array, and the
      fields of its trapframe are read and written at their offsets.
    - User memory is the byte view that the running process has of its
      address space when the call begins.  In every handler all accesses
      to user memory come before the first page-map operation, so this
      view does not change under the page-map operations of the call.
    - The kernel state carries a log of what a handler does to the
      outside: accesses to user memory, page-map operations, console
      output.  The log is not read by the handlers.
    - One CPU is modelled, and the spinlock of the calling process is
      not: on one CPU, acquiring and releasing it has no effect. *)

From stdpp Require Import base gmap list strings.
From Stdlib Require Import ZArith Lia.

Local Open Scope Z_scope.

(** ** Constants of the headers

    inc/syscall.h, inc/vm.h, inc/mmu.h, inc/trap.h, inc/x86.h and
    kern/cpu.h are not part of the sources at hand: the constants and
    structure offsets that kern/syscall.c takes from them are parameters
    of the development. *)

Class Config := {
  VM_USERLO : Z;
  VM_USERHI : Z;
  PTSIZE : Z;
  PGSIZE : Z;
  T_GPFLT : Z;
  T_PGFLT : Z;
  SYS_TYPE : Z;
  SYS_CPUTS : Z;
  SYS_PUT : Z;
  SYS_GET : Z;
  SYS_RET : Z;
  SYS_START : Z;
  SYS_REGS : Z;
  SYS_FPU : Z;
  SYS_MEMOP : Z;
  SYS_ZERO : Z;
  SYS_COPY : Z;
  SYS_MERGE : Z;
  SYS_SNAP : Z;
  SYS_PERM : Z;
  SYS_RW : Z;
  CPUTS_MAX : Z;
  FL_CF : Z;
  FL_PF : Z;
  FL_AF : Z;
  FL_ZF : Z;
  FL_SF : Z;
  FL_DF : Z;
  FL_OF : Z;
  FL_IF : Z;
  CPU_GDT_UCODE : Z;
  CPU_GDT_UDATA : Z;
  (** offsetof(procstate, tf.es), ... : the fields of the saved
      trapframe that do_put rewrites *)
  off_es : Z;
  off_ds : Z;
  off_cs : Z;
  off_eflags : Z;
  off_ss : Z;
  (** offsetof(procstate, fx) and sizeof(procstate) *)
  procstate_fx : Z;
  procstate_size : Z;
  (** the page-level three-way merge of kern/pmap.c: reference entry,
      child entry, destination entry *)
  mergepage : Z * Z → Z * Z → Z * Z → Z * Z;
}.

(** The values of the PIOS headers. *)
Definition pios : Config := {|
  VM_USERLO := 0x40000000;
  VM_USERHI := 0xf0000000;
  PTSIZE := 0x400000;
  PGSIZE := 0x1000;
  T_GPFLT := 13;
  T_PGFLT := 14;
  SYS_TYPE := 0xf;
  SYS_CPUTS := 0;
  SYS_PUT := 1;
  SYS_GET := 2;
  SYS_RET := 3;
  SYS_START := 0x10;
  SYS_REGS := 0x1000;
  SYS_FPU := 0x2000;
  SYS_MEMOP := 0x30000;
  SYS_ZERO := 0x10000;
  SYS_COPY := 0x20000;
  SYS_MERGE := 0x30000;
  SYS_SNAP := 0x40000;
  SYS_PERM := 0x100;
  SYS_RW := 0x600;
  CPUTS_MAX := 256;
  FL_CF := 0x1;
  FL_PF := 0x4;
  FL_AF := 0x10;
  FL_ZF := 0x40;
  FL_SF := 0x80;
  FL_DF := 0x400;
  FL_OF := 0x800;
  FL_IF := 0x200;
  CPU_GDT_UCODE := 0x18;
  CPU_GDT_UDATA := 0x20;
  off_es := 40;
  off_ds := 44;
  off_cs := 60;
  off_eflags := 64;
  off_ss := 72;
  procstate_fx := 80;
  procstate_size := 592;
  mergepage := λ r c d, if decide (c = r) then d else c;
|}.

(** ** Data model *)

(** inc/trap.h: the registers pushed at trap entry. *)
Record pushregs := {
  edi : Z; esi : Z; ebp : Z; oesp : Z;
  ebx : Z; edx : Z; ecx : Z; eax : Z;
}.

Record trapframe := {
  regs : pushregs;
  gs : Z; fs : Z; es : Z; ds : Z;
  trapno : Z; err : Z;
  eip : Z; cs : Z; eflags : Z; esp : Z; ss : Z;
}.

(** utf->trapno = trapno; utf->err = err *)
Definition set_trap (utf : trapframe) (no e : Z) : trapframe :=
  {| regs := regs utf; gs := gs utf; fs := fs utf; es := es utf;
     ds := ds utf; trapno := no; err := e; eip := eip utf; cs := cs utf;
     eflags := eflags utf; esp := esp utf; ss := ss utf |}.

Definition pushregs0 : pushregs :=
  {| edi := 0; esi := 0; ebp := 0; oesp := 0;
     ebx := 0; edx := 0; ecx := 0; eax := 0 |}.

Definition trapframe0 : trapframe :=
  {| regs := pushregs0; gs := 0; fs := 0; es := 0; ds := 0; trapno := 0;
     err := 0; eip := 0; cs := 0; eflags := 0; esp := 0; ss := 0 |}.

Inductive proc_state := PROC_STOP | PROC_READY | PROC_RUN | PROC_WAIT.

Global Instance proc_state_eq_dec : EqDecision proc_state.
Proof. solve_decision. Defined.

(** A page map sends a user virtual address to the entry of its page:
    a frame and the nominal permissions. *)
Definition pte : Type := Z * Z.
Definition pmap : Type := Z → pte.

Definition pte_zero : pte := (0, 0).
Definition pmap_zero : pmap := λ _, pte_zero.

(** Processes are referred to by the address of their proc structure. *)
Abbreviation pid := nat.

Record proc := {
  state : proc_state;
  sv : list Z;
  pdir : pmap;
  rpdir : pmap;
  child : gmap Z pid;
  parent : option pid;
  runcpu : option nat;
}.

(** What a pointer to no proc structure reads as: a stopped process
    with nothing in it. *)
Definition proc0 : proc :=
  {| state := PROC_STOP; sv := []; pdir := pmap_zero; rpdir := pmap_zero;
     child := ∅; parent := None; runcpu := None |}.

(** The function pointers the recover slot of a cpu can hold. *)
Inductive recover_fn := FN_sysrecover | FN_other (n : nat).

Global Instance recover_fn_eq_dec : EqDecision recover_fn.
Proof. solve_decision. Defined.

(** kern/cpu.h: the fields of the per-CPU block that the handlers use.
    [recoverdata] is the trapframe the data pointer refers to. *)
Record cpu := {
  cpu_id : nat;
  cpu_proc : pid;
  recover : option recover_fn;
  recoverdata : trapframe;
}.

(** User memory of the running process, bytewise: absent where a kernel
    access faults, with a flag for writable bytes. *)
Definition umem_t : Type := Z → option (Z * bool).

(** The kernel buffers handed to usercopy: the save-area of a process,
    and the local array of do_cputs. *)
Inductive kptr := KSv (cp : pid) | KBuf.

Inductive pmop := PmCopy | PmRemove | PmMerge | PmSetperm.

(** What the handlers do to the world outside the kernel state, in
    order: accesses to user memory (with the bytes moved and whether a
    recovery handler was installed), page-map operations, console. *)
Inductive event :=
| EvRead (uva : Z) (data : list Z) (guarded : bool)
| EvWrite (uva : Z) (data : list Z) (guarded : bool)
| EvPmap (op : pmop)
| EvCons (str : list Z).

Record kstate := {
  cur : cpu;
  procs : gmap pid proc;
  umem : umem_t;
  kbuf : list Z;
  nfree : nat;
  klog : list event;
}.

(** The non-returning calls that end a handler. *)
Inductive exit :=
| ETrapReturn (tf : trapframe)
| EProcRet (tf : trapframe) (entry : Z)
| EProcWait (p cp : pid) (tf : trapframe)
| EPanic (msg : string)
| EDiverted (fn : nat) (ktf : trapframe).

Inductive res (A : Type) :=
| Ok (a : A) (s : kstate)
| Exit (e : exit) (s : kstate).
Arguments Ok {A} a s.
Arguments Exit {A} e s.

Definition K (A : Type) : Type := kstate → res A.

Global Instance K_ret : MRet K := λ A a s, Ok a s.
Global Instance K_bind : MBind K := λ A B k c s,
  match c s with
  | Ok a s1 => k a s1
  | Exit e s1 => Exit e s1
  end.

Definition final {A} (r : res A) : kstate :=
  match r with Ok _ s => s | Exit _ s => s end.

(** What a run returned to its caller in C, if it returned. *)
Definition value_of {A} (r : res A) : option A :=
  match r with Ok a _ => Some a | Exit _ _ => None end.

(** How a run ended: [None] for a return to the caller in C. *)
Definition exit_of {A} (r : res A) : option exit :=
  match r with Ok _ _ => None | Exit e _ => Some e end.

Definition kexit {A} (e : exit) : K A := λ s, Exit e s.
Definition panic {A} (msg : string) : K A := kexit (EPanic msg).
Definition assert (b : bool) : K unit :=
  if b then mret tt else panic "assertion failed".
Definition kget : K kstate := λ s, Ok s s.
Definition kmod (f : kstate → kstate) : K unit := λ s, Ok tt (f s).

(** ** State access *)

Definition getproc (s : kstate) (p : pid) : proc :=
  default proc0 (procs s !! p).

Definition setproc (p : pid) (v : proc) (s : kstate) : kstate :=
  {| cur := cur s; procs := <[p := v]> (procs s); umem := umem s;
     kbuf := kbuf s; nfree := nfree s; klog := klog s |}.

Definition set_recover (r : option recover_fn) (s : kstate) : kstate :=
  {| cur := {| cpu_id := cpu_id (cur s); cpu_proc := cpu_proc (cur s);
               recover := r; recoverdata := recoverdata (cur s) |};
     procs := procs s; umem := umem s; kbuf := kbuf s; nfree := nfree s;
     klog := klog s |}.

Definition set_umem (m : umem_t) (s : kstate) : kstate :=
  {| cur := cur s; procs := procs s; umem := m; kbuf := kbuf s;
     nfree := nfree s; klog := klog s |}.

Definition set_kbuf (b : list Z) (s : kstate) : kstate :=
  {| cur := cur s; procs := procs s; umem := umem s; kbuf := b;
     nfree := nfree s; klog := klog s |}.

Definition set_nfree (n : nat) (s : kstate) : kstate :=
  {| cur := cur s; procs := procs s; umem := umem s; kbuf := kbuf s;
     nfree := n; klog := klog s |}.

Definition log (e : event) (s : kstate) : kstate :=
  {| cur := cur s; procs := procs s; umem := umem s; kbuf := kbuf s;
     nfree := nfree s; klog := e :: klog s |}.

Definition set_state (st : proc_state) (p : proc) : proc :=
  {| state := st; sv := sv p; pdir := pdir p; rpdir := rpdir p;
     child := child p; parent := parent p; runcpu := runcpu p |}.

Definition set_sv (b : list Z) (p : proc) : proc :=
  {| state := state p; sv := b; pdir := pdir p; rpdir := rpdir p;
     child := child p; parent := parent p; runcpu := runcpu p |}.

Definition set_pdir (m : pmap) (p : proc) : proc :=
  {| state := state p; sv := sv p; pdir := m; rpdir := rpdir p;
     child := child p; parent := parent p; runcpu := runcpu p |}.

Definition set_rpdir (m : pmap) (p : proc) : proc :=
  {| state := state p; sv := sv p; pdir := pdir p; rpdir := m;
     child := child p; parent := parent p; runcpu := runcpu p |}.

Definition set_child (cn : Z) (cp : pid) (p : proc) : proc :=
  {| state := state p; sv := sv p; pdir := pdir p; rpdir := rpdir p;
     child := <[cn := cp]> (child p); parent := parent p;
     runcpu := runcpu p |}.

(** Update of the proc structure at [p]. *)
Definition modproc (p : pid) (f : proc → proc) : K unit :=
  kmod (λ s, setproc p (f (getproc s p)) s).

(** ** Kernel buffers and user memory *)

(** memmove into a buffer: the first bytes are replaced. *)
Definition overwrite (data buf : list Z) : list Z :=
  data ++ drop (length data) buf.

Definition kread (k : kptr) (s : kstate) : list Z :=
  match k with
  | KSv cp => sv (getproc s cp)
  | KBuf => kbuf s
  end.

Definition kwrite (k : kptr) (data : list Z) (s : kstate) : kstate :=
  match k with
  | KSv cp => setproc cp (set_sv (overwrite data (sv (getproc s cp)))
                                 (getproc s cp)) s
  | KBuf => set_kbuf (overwrite data (kbuf s)) s
  end.

Definition mem_upd (m : umem_t) (a : Z) (b : Z) : umem_t :=
  λ x, if decide (x = a) then Some (b, true) else m x.

(** A forward byte copy out of user memory: the bytes read before the
    first byte that is not mapped, and the page-fault error code of
    that access (a read of a page that is not present). *)
Fixpoint uread (m : umem_t) (uva : Z) (n : nat) : list Z * option Z :=
  match n with
  | O => ([], None)
  | S n' =>
      match m uva with
      | Some (b, _) =>
          let '(bs, f) := uread m (uva + 1) n' in (b :: bs, f)
      | None => ([], Some 0)
      end
  end.

(** A forward byte copy into user memory: the memory after the bytes
    written before the first fault, their number, and the error code
    (write to a page not present: 2; to a read-only page: 3). *)
Fixpoint uwrite (m : umem_t) (uva : Z) (bs : list Z)
  : umem_t * nat * option Z :=
  match bs with
  | [] => (m, O, None)
  | b :: bs' =>
      match m uva with
      | Some (_, true) =>
          let '(m', n, f) := uwrite (mem_upd m uva b) (uva + 1) bs' in
          (m', S n, f)
      | Some (_, false) => (m, O, Some 3)
      | None => (m, O, Some 2)
      end
  end.

Section Syscall.
Context {cfg : Config}.

(** uint32_t arithmetic wraps. *)
Definition wrap32 (x : Z) : Z := x mod 2 ^ 32.

(** inc/mmu.h: offset of an address in its page table, in its page. *)
Definition PTOFF (va : Z) : Z := Z.land va (PTSIZE - 1).
Definition PGOFF (va : Z) : Z := Z.land va (PGSIZE - 1).

(** This bit mask defines the eflags bits user code is allowed to set. *)
Definition FL_USER : Z :=
  Z.lor FL_CF (Z.lor FL_PF (Z.lor FL_AF (Z.lor FL_ZF
    (Z.lor FL_SF (Z.lor FL_DF FL_OF))))).

Definition proc_cur : K pid := λ s, Ok (cpu_proc (cur s)) s.

(** The address of the global proc_null. *)
Definition proc_null : pid := 0%nat.

(** ** Non-returning calls *)

Definition trap_return {A} (tf : trapframe) : K A := kexit (ETrapReturn tf).
Definition proc_ret {A} (tf : trapframe) (entry : Z) : K A :=
  kexit (EProcRet tf entry).
Definition proc_wait {A} (p cp : pid) (tf : trapframe) : K A :=
  kexit (EProcWait p cp tf).

(** During a system call, generate a specific processor trap and
    reflect the trap to the parent process. *)
Definition systrap {A} (utf : trapframe) (no e : Z) : K A :=
  proc_ret (set_trap utf no e) 0.

(** Recover from a trap that occurs during a copyin or copyout. *)
Definition sysrecover {A} (ktf : trapframe) (rdata : trapframe) : K A :=
  let utf := rdata in
  λ s,
    if decide (recover (cur s) = Some FN_sysrecover) then
      systrap utf (trapno ktf) (err ktf) (set_recover None s)
    else panic "assertion failed" s.

(** Modelled from the spec: the trap dispatcher of kern/trap.c, which is
    not under src/.  A trap taken in kernel mode consults the recovery
    handler of the current CPU and passes it the CPU's recoverdata; with
    no handler installed the kernel panics. *)
Definition trap {A} (ktf : trapframe) : K A := λ s,
  match recover (cur s) with
  | Some FN_sysrecover => sysrecover ktf (recoverdata (cur s)) s
  | Some (FN_other n) => Exit (EDiverted n ktf) s
  | None => Exit (EPanic "unhandled trap in kernel") s
  end.

(** The kernel trapframe of a page fault with error code [e]. *)
Definition fault_tf (e : Z) : trapframe := set_trap trapframe0 T_PGFLT e.

Definition guarded (s : kstate) : bool :=
  bool_decide (recover (cur s) ≠ None).

(** memmove and memcpy between a kernel buffer and user memory (the
    regions never overlap, so both copy forward).  A byte that cannot
    be accessed traps, with the bytes before it already moved. *)
Definition memmove_user (copyout : bool) (kva : kptr) (uva size : Z)
  : K unit := λ s,
  if copyout then
    let data := take (Z.to_nat size) (kread kva s) in
    let '(m', n, f) := uwrite (umem s) uva data in
    let s1 := log (EvWrite uva (take n data) (guarded s)) (set_umem m' s) in
    match f with
    | None => Ok tt s1
    | Some e => trap (fault_tf e) s1
    end
  else
    let '(bs, f) := uread (umem s) uva (Z.to_nat size) in
    let s1 := log (EvRead uva bs (guarded s)) (kwrite kva bs s) in
    match f with
    | None => Ok tt s1
    | Some e => trap (fault_tf e) s1
    end.

(** Check a user virtual address block for validity. *)
Definition checkva (utf : trapframe) (uva size : Z) : K unit :=
  if (uva <? VM_USERLO) || (uva >=? VM_USERHI)
     || (size >=? wrap32 (VM_USERHI - uva))
  then systrap utf T_PGFLT 0
  else mret tt.

(** Copy data to/from user space, using checkva to validate the address
    range and sysrecover to recover from any traps during the copy. *)
Definition usercopy (utf : trapframe) (copyout : bool) (kva : kptr)
    (uva size : Z) : K unit :=
  checkva utf uva size ;;
  c ← kget;
  assert (bool_decide (recover (cur c) = None)) ;;
  kmod (set_recover (Some FN_sysrecover)) ;;
  memmove_user copyout kva uva size ;;
  c ← kget;
  assert (bool_decide (recover (cur c) = Some FN_sysrecover)) ;;
  kmod (set_recover None).

(** ** Collaborators of the handlers *)

Definition in_range (va lo size : Z) : bool :=
  (lo <=? va) && (va <? lo + size).

(** Modelled from the spec: the page-map module (kern/pmap.c), which is
    not under src/.  copy share-maps the pages of the source range at
    the destination range; remove drops pages and permissions; merge is
    the three-way merge against a reference map; setperm sets the
    nominal permissions of the pages in the range. *)
Definition pmap_copy (spd : pmap) (sva : Z) (dpd : pmap) (dva size : Z)
  : pmap :=
  λ va, if in_range va dva size then spd (va - dva + sva) else dpd va.

Definition pmap_remove (pd : pmap) (va size : Z) : pmap :=
  λ a, if in_range a va size then pte_zero else pd a.

Definition pmap_merge (rpd spd : pmap) (sva : Z) (dpd : pmap)
    (dva size : Z) : pmap :=
  λ va, if in_range va dva size
        then mergepage (rpd (va - dva + sva)) (spd (va - dva + sva)) (dpd va)
        else dpd va.

Definition pmap_setperm (pd : pmap) (va size perm : Z) : pmap :=
  λ a, if in_range a va size then ((pd a).1, perm) else pd a.

(** Modelled from the spec: setperm answers false on allocator
    exhaustion; the allocator (kern/mem.c) is represented by the number
    of pages it can still hand out. *)
Definition pmap_setperm_ok (s : kstate) (size : Z) : bool :=
  bool_decide (nfree s ≠ O ∨ size = 0).

(** Modelled from the spec: proc_alloc (kern/proc.c), which is not
    under src/.  It answers NULL when no page is left; otherwise the
    new process is stopped, parented at [p] and entered in slot [cn]. *)
Definition proc_alloc (p : pid) (cn : Z) : K (option pid) := λ s,
  match nfree s with
  | O => Ok None s
  | S n =>
      let cp := fresh ({[proc_null; p]} ∪ dom (procs s)) in
      let c := {| state := PROC_STOP;
                  sv := replicate (Z.to_nat procstate_size) 0;
                  pdir := pmap_zero; rpdir := pmap_zero; child := ∅;
                  parent := Some p; runcpu := None |} in
      let s1 := setproc cp c (set_nfree n s) in
      Ok (Some cp) (setproc p (set_child cn cp (getproc s1 p)) s1)
  end.

(** Modelled from the spec: proc_ready marks the child READY. *)
Definition proc_ready (cp : pid) : K unit :=
  modproc cp (set_state PROC_READY).

(** The bytes of a C string: up to the first NUL. *)
Fixpoint cstring (l : list Z) : list Z :=
  match l with
  | [] => []
  | b :: r => if b =? 0 then [] else b :: cstring r
  end.

(** cprintf("%s", buf): the string goes to the console sink. *)
Definition cprintf_s (buf : list Z) : K unit :=
  kmod (log (EvCons (cstring buf))).

(** ** Fields of a save-area *)

(** A field of [n] bytes is stored little-endian. *)
Definition load (off : Z) (n : nat) (buf : list Z) : Z :=
  little_endian_to_Z 8 (take n (drop (Z.to_nat off) buf)).

Definition store (off : Z) (n : nat) (v : Z) (buf : list Z) : list Z :=
  list_inserts (Z.to_nat off) (Z_to_little_endian (Z.of_nat n) 8 v) buf.

(** cp->sv.<field> = f (cp->sv.<field>) for a field of [n] bytes *)
Definition modfield (cp : pid) (off : Z) (n : nat) (f : Z → Z) : K unit :=
  modproc cp (λ c, set_sv (store off n (f (load off n (sv c))) (sv c)) c).

(** cmd & mask, as a condition *)
Definition has (cmd mask : Z) : bool := negb (Z.land cmd mask =? 0).

Definition when (b : bool) (c : K unit) : K unit :=
  if b then c else mret tt.

(** ** The handlers *)

Definition do_cputs (tf : trapframe) (cmd : Z) : K unit :=
  (* char buf[CPUTS_MAX+1]: whatever the stack holds *)
  kmod (λ s, set_kbuf (resize (Z.to_nat (CPUTS_MAX + 1)) 0 (kbuf s)) s) ;;
  usercopy tf false KBuf (ebx (regs tf)) CPUTS_MAX ;;
  kmod (λ s, set_kbuf (<[Z.to_nat CPUTS_MAX := 0]> (kbuf s)) s) ;;
  s ← kget;
  cprintf_s (kbuf s) ;;
  trap_return tf.

(** The test of the three region checks of PUT and GET, for the
    alignment [off]: PTOFF for the memory operations, PGOFF for PERM. *)
Definition bad_region (off : Z → Z) (va size : Z) : bool :=
  negb (off va =? 0) || negb (off size =? 0)
  || (va <? VM_USERLO) || (va >? VM_USERHI)
  || (size >? wrap32 (VM_USERHI - va)).

(** int len = offsetof(procstate, fx); if (cmd & SYS_FPU) len = sizeof(procstate) *)
Definition regs_len (cmd : Z) : Z :=
  if has cmd SYS_FPU then procstate_size else procstate_fx.

(** PUT, up to the wait: the current process and the child named by EDX
    (created if it does not exist), which is stopped. *)
Definition put_child (tf : trapframe) : K (pid * pid) :=
  (* the spinlock p->lock is held from here to the end of this step; it
     is not part of the state *)
  p ← proc_cur;
  s ← kget;
  assert (bool_decide (state (getproc s p) = PROC_RUN
                       ∧ runcpu (getproc s p) = Some (cpu_id (cur s)))) ;;
  let cn := Z.land (edx (regs tf)) 0xff in
  cp ← match child (getproc s p) !! cn with
       | Some cp => mret cp
       | None =>
           r ← proc_alloc p cn;
           match r with
           | Some cp => mret cp
           | None => panic "sys_put: no memory for child"
           end
       end;
  s ← kget;
  (if bool_decide (state (getproc s cp) ≠ PROC_STOP)
   then proc_wait p cp tf else mret tt) ;;
  mret (p, cp).

(** Put child's general register state. *)
Definition put_regs (tf : trapframe) (cmd : Z) (cp : pid) : K unit :=
  when (has cmd SYS_REGS) (
    let len := regs_len cmd in
    usercopy tf false (KSv cp) (ebx (regs tf)) len ;;
    memmove_user false (KSv cp) (ebx (regs tf)) len ;;
    modfield cp off_ds 2 (λ _, Z.lor CPU_GDT_UDATA 3) ;;
    modfield cp off_es 2 (λ _, Z.lor CPU_GDT_UDATA 3) ;;
    modfield cp off_cs 2 (λ _, Z.lor CPU_GDT_UCODE 3) ;;
    modfield cp off_ss 2 (λ _, Z.lor CPU_GDT_UDATA 3) ;;
    modfield cp off_eflags 4 (λ e, Z.land e FL_USER) ;;
    modfield cp off_eflags 4 (λ e, Z.lor e FL_IF)).

Definition do_pmap_remove (q : pid) (dva size : Z) : K unit :=
  modproc q (λ c, set_pdir (pmap_remove (pdir c) dva size) c) ;;
  kmod (log (EvPmap PmRemove)).

(** pmap_copy(src->pdir, sva, dst->pdir, dva, size) *)
Definition do_pmap_copy (src : pid) (sva : Z) (dst : pid) (dva size : Z)
  : K unit :=
  kmod (λ s, setproc dst
    (set_pdir (pmap_copy (pdir (getproc s src)) sva
                         (pdir (getproc s dst)) dva size)
              (getproc s dst)) s) ;;
  kmod (log (EvPmap PmCopy)).

(** pmap_merge(cp->rpdir, cp->pdir, sva, p->pdir, dva, size) *)
Definition do_pmap_merge (cp : pid) (sva : Z) (p : pid) (dva size : Z)
  : K unit :=
  kmod (λ s, setproc p
    (set_pdir (pmap_merge (rpdir (getproc s cp)) (pdir (getproc s cp)) sva
                          (pdir (getproc s p)) dva size)
              (getproc s p)) s) ;;
  kmod (log (EvPmap PmMerge)).

(** if (!pmap_setperm(q->pdir, dva, size, perm)) panic(msg) *)
Definition do_pmap_setperm (q : pid) (dva size perm : Z) (msg : string)
  : K unit :=
  s ← kget;
  if pmap_setperm_ok s size then
    modproc q (λ c, set_pdir (pmap_setperm (pdir c) dva size perm) c) ;;
    kmod (log (EvPmap PmSetperm))
  else panic msg.

(** The switch on cmd & SYS_MEMOP of do_put. *)
Definition put_memop (tf : trapframe) (cmd : Z) (p cp : pid) : K unit :=
  let sva := esi (regs tf) in
  let dva := edi (regs tf) in
  let size := ecx (regs tf) in
  let m := Z.land cmd SYS_MEMOP in
  if m =? 0 then mret tt
  else if (m =? SYS_COPY) || (m =? SYS_ZERO) then
    (* case SYS_COPY: validate source region, fall thru *)
    when ((m =? SYS_COPY) && bad_region PTOFF sva size)
         (systrap tf T_GPFLT 0) ;;
    (* case SYS_ZERO: validate destination region *)
    when (bad_region PTOFF dva size) (systrap tf T_GPFLT 0) ;;
    (if m =? SYS_ZERO then do_pmap_remove cp dva size
     else if m =? SYS_COPY then do_pmap_copy p sva cp dva size
     else mret tt)
  else systrap tf T_GPFLT 0.

Definition put_perm (tf : trapframe) (cmd : Z) (cp : pid) : K unit :=
  let dva := edi (regs tf) in
  let size := ecx (regs tf) in
  when (has cmd SYS_PERM) (
    when (bad_region PGOFF dva size) (systrap tf T_GPFLT 0) ;;
    do_pmap_setperm cp dva size (Z.land cmd SYS_RW)
      "pmap_put: no memory to set permissions").

(** Snapshot child's state. *)
Definition put_snap (cmd : Z) (cp : pid) : K unit :=
  when (has cmd SYS_SNAP) (
    kmod (λ s, setproc cp
      (set_rpdir (pmap_copy (pdir (getproc s cp)) VM_USERLO
                            (rpdir (getproc s cp)) VM_USERLO
                            (wrap32 (VM_USERHI - VM_USERLO)))
                 (getproc s cp)) s) ;;
    kmod (log (EvPmap PmCopy))).

Definition do_put (tf : trapframe) (cmd : Z) : K unit :=
  pc ← put_child tf;
  put_regs tf cmd pc.2 ;;
  put_memop tf cmd pc.1 pc.2 ;;
  put_perm tf cmd pc.2 ;;
  put_snap cmd pc.2 ;;
  when (has cmd SYS_START) (proc_ready pc.2) ;;
  trap_return tf.

(** GET, up to the wait: the current process and the child named by
    EDX, or proc_null if it does not exist. *)
Definition get_child (tf : trapframe) : K (pid * pid) :=
  p ← proc_cur;
  s ← kget;
  assert (bool_decide (state (getproc s p) = PROC_RUN
                       ∧ runcpu (getproc s p) = Some (cpu_id (cur s)))) ;;
  let cn := Z.land (edx (regs tf)) 0xff in
  let cp := match child (getproc s p) !! cn with
            | Some cp => cp
            | None => proc_null
            end in
  (if bool_decide (state (getproc s cp) ≠ PROC_STOP)
   then proc_wait p cp tf else mret tt) ;;
  mret (p, cp).

(** Get child's general register state. *)
Definition get_regs (tf : trapframe) (cmd : Z) (cp : pid) : K unit :=
  when (has cmd SYS_REGS) (
    let len := regs_len cmd in
    usercopy tf true (KSv cp) (ebx (regs tf)) len ;;
    memmove_user true (KSv cp) (ebx (regs tf)) len).

(** The switch on cmd & SYS_MEMOP of do_get. *)
Definition get_memop (tf : trapframe) (cmd : Z) (p cp : pid) : K unit :=
  let sva := esi (regs tf) in
  let dva := edi (regs tf) in
  let size := ecx (regs tf) in
  let m := Z.land cmd SYS_MEMOP in
  if m =? 0 then mret tt
  else if (m =? SYS_COPY) || (m =? SYS_MERGE) || (m =? SYS_ZERO) then
    (* case SYS_COPY, case SYS_MERGE: validate source region, fall thru *)
    when (((m =? SYS_COPY) || (m =? SYS_MERGE))
          && bad_region PTOFF sva size)
         (systrap tf T_GPFLT 0) ;;
    (* case SYS_ZERO: validate destination region *)
    when (bad_region PTOFF dva size) (systrap tf T_GPFLT 0) ;;
    (if m =? SYS_ZERO then do_pmap_remove p dva size
     else if m =? SYS_COPY then do_pmap_copy cp sva p dva size
     else if m =? SYS_MERGE then do_pmap_merge cp sva p dva size
     else mret tt)
  else systrap tf T_GPFLT 0.

Definition get_perm (tf : trapframe) (cmd : Z) (p : pid) : K unit :=
  let dva := edi (regs tf) in
  let size := ecx (regs tf) in
  when (has cmd SYS_PERM) (
    when (bad_region PGOFF dva size) (systrap tf T_GPFLT 0) ;;
    do_pmap_setperm p dva size (Z.land cmd SYS_RW)
      "pmap_get: no memory to set permissions").

(** SYS_SNAP is only valid for PUT. *)
Definition get_snap (tf : trapframe) (cmd : Z) : K unit :=
  when (has cmd SYS_SNAP) (systrap tf T_GPFLT 0).

Definition do_get (tf : trapframe) (cmd : Z) : K unit :=
  pc ← get_child tf;
  get_regs tf cmd pc.2 ;;
  get_memop tf cmd pc.1 pc.2 ;;
  get_perm tf cmd pc.1 ;;
  get_snap tf cmd ;;
  trap_return tf.

(** Complete the syscall instruction and return to the parent. *)
Definition do_ret (tf : trapframe) : K unit := proc_ret tf 1.

(** Decode the system call type and call the handler; an undefined type
    returns, to be handled as a regular trap. *)
Definition syscall (tf : trapframe) : K unit :=
  let cmd := eax (regs tf) in
  let ty := Z.land cmd SYS_TYPE in
  if ty =? SYS_CPUTS then do_cputs tf cmd
  else if ty =? SYS_PUT then do_put tf cmd
  else if ty =? SYS_GET then do_get tf cmd
  else if ty =? SYS_RET then do_ret tf
  else mret tt.

End Syscall.

(** ** What the development assumes of the constants

    The user address range lies in the 32-bit address space; the case
    labels of the MEMOP switch are distinct (C requires it); the
    rewritten fields of the saved trapframe lie one after the other in
    the integer part of the save-area (the x86 trapframe order);
    selectors are 16-bit and flag masks 32-bit values. *)
Record config_ok (cfg : Config) : Prop := {
  ok_userlo : 0 ≤ VM_USERLO;
  ok_user : VM_USERLO ≤ VM_USERHI;
  ok_userhi : VM_USERHI < 2 ^ 32;
  ok_copy : SYS_COPY ≠ 0;
  ok_zero : SYS_ZERO ≠ 0;
  ok_merge : SYS_MERGE ≠ 0;
  ok_copy_zero : SYS_COPY ≠ SYS_ZERO;
  ok_merge_copy : SYS_MERGE ≠ SYS_COPY;
  ok_merge_zero : SYS_MERGE ≠ SYS_ZERO;
  ok_es : 0 ≤ off_es;
  ok_es_ds : off_es + 2 ≤ off_ds;
  ok_ds_cs : off_ds + 2 ≤ off_cs;
  ok_cs_eflags : off_cs + 2 ≤ off_eflags;
  ok_eflags_ss : off_eflags + 4 ≤ off_ss;
  ok_ss_fx : off_ss + 2 ≤ procstate_fx;
  ok_fx_size : procstate_fx ≤ procstate_size;
  ok_ucode : 0 ≤ CPU_GDT_UCODE < 2 ^ 16;
  ok_udata : 0 ≤ CPU_GDT_UDATA < 2 ^ 16;
  ok_fl_user : 0 ≤ @FL_USER cfg < 2 ^ 32;
  ok_fl_if : 0 ≤ FL_IF < 2 ^ 32;
  ok_cputs : 4 ≤ CPUTS_MAX < 2 ^ 32;
}.

(** A value of type uint32_t. *)
Definition u32 (x : Z) : Prop := 0 ≤ x < 2 ^ 32.


(** ** Notions used to state the properties *)

Section Notions.
Context {cfg : Config}.

(** A region as the spec words it: address and size aligned for [off],
    and the region inside the user address range. *)
Definition region_ok (off : Z → Z) (va size : Z) : Prop :=
  off va = 0 ∧ off size = 0 ∧ VM_USERLO ≤ va ∧ va + size ≤ VM_USERHI.

(** The rewrite that PUT applies to a save-area it has copied in:
    user-mode segment selectors, eflags masked to FL_USER, interrupts
    enabled; in the order of the assignments of do_put. *)
Definition forced (b : list Z) : list Z :=
  let b := store off_ds 2 (Z.lor CPU_GDT_UDATA 3) b in
  let b := store off_es 2 (Z.lor CPU_GDT_UDATA 3) b in
  let b := store off_cs 2 (Z.lor CPU_GDT_UCODE 3) b in
  let b := store off_ss 2 (Z.lor CPU_GDT_UDATA 3) b in
  let b := store off_eflags 4 (Z.land (load off_eflags 4 b) FL_USER) b in
  store off_eflags 4 (Z.lor (load off_eflags 4 b) FL_IF) b.

(** The bytes of a save-area that the rewrite assigns. *)
Definition in_forced_field (i : Z) : Prop :=
  off_es ≤ i < off_es + 2 ∨ off_ds ≤ i < off_ds + 2
  ∨ off_cs ≤ i < off_cs + 2 ∨ off_eflags ≤ i < off_eflags + 4
  ∨ off_ss ≤ i < off_ss + 2.

(** PUT up to the switch on MEMOP: child resolved and stopped, register
    transfer (if asked for) done. *)
Definition put_before_memop (tf : trapframe) (cmd : Z) : K (pid * pid) :=
  pc ← put_child tf;
  put_regs tf cmd pc.2 ;;
  mret pc.

(** GET up to the switch on MEMOP. *)
Definition get_before_memop (tf : trapframe) (cmd : Z) : K (pid * pid) :=
  pc ← get_child tf;
  get_regs tf cmd pc.2 ;;
  mret pc.

(** GET up to the test of SYS_SNAP. *)
Definition get_before_snap (tf : trapframe) (cmd : Z) : K (pid * pid) :=
  pc ← get_child tf;
  get_regs tf cmd pc.2 ;;
  get_memop tf cmd pc.1 pc.2 ;;
  get_perm tf cmd pc.1 ;;
  mret pc.

(** PUT up to the test of SYS_SNAP: child resolved and stopped,
    register transfer, memory operation and permissions (as far as
    asked for) done. *)
Definition put_before_snap (tf : trapframe) (cmd : Z) : K (pid * pid) :=
  pc ← put_child tf;
  put_regs tf cmd pc.2 ;;
  put_memop tf cmd pc.1 pc.2 ;;
  put_perm tf cmd pc.2 ;;
  mret pc.

End Notions.

Definition is_pmap_event (e : event) : bool :=
  match e with EvPmap _ => true | _ => false end.

Definition is_cons_event (e : event) : bool :=
  match e with EvCons _ => true | _ => false end.


(** Whether a recovery handler was installed at an access to user
    memory. *)
Definition ev_guarded (e : event) : option bool :=
  match e with
  | EvRead _ _ g | EvWrite _ _ g => Some g
  | _ => None
  end.

(** [keeps R c]: wherever [c] is run and however it ends, the state it
    leaves is related by [R] to the state it started from. *)
Definition keeps (R : relation kstate) {A} (c : K A) : Prop :=
  ∀ s, R s (final (c s)).

(** Relations that the plumbing of a handler respects: changes of the
    recover slot, of user memory, of the local buffer, and log entries
    other than page-map operations. *)
Class Frame (R : relation kstate) : Prop := {
  frame_preorder :: PreOrder R;
  frame_recover r s : R s (set_recover r s);
  frame_umem m s : R s (set_umem m s);
  frame_kbuf b s : R s (set_kbuf b s);
  frame_log e s : is_pmap_event e = false → R s (log e s);
}.

(** ... and, in addition, changes of a save-area. *)
Class FrameSv (R : relation kstate) : Prop := {
  framesv_frame :: Frame R;
  frame_sv cp b s : R s (setproc cp (set_sv b (getproc s cp)) s);
}.

(** Relations that the page-map operations respect as well: changes of
    a page map and of a reference page map, and any log entry. *)
Class FramePm (R : relation kstate) : Prop := {
  framepm_frame :: Frame R;
  frame_pdir q m s : R s (setproc q (set_pdir m (getproc s q)) s);
  frame_rpdir q m s : R s (setproc q (set_rpdir m (getproc s q)) s);
  frame_log_any e s : R s (log e s);
}.

(** ... and, in addition, changes of a process state. *)
Class FrameSt (R : relation kstate) : Prop := {
  framest_framepm :: FramePm R;
  frame_state q st s : R s (setproc q (set_state st (getproc s q)) s);
}.

(** The page maps of all processes are the same, and no page-map
    operation was logged. *)
Definition same_pmaps (s s' : kstate) : Prop :=
  (∀ q, pdir (getproc s' q) = pdir (getproc s q)
        ∧ rpdir (getproc s' q) = rpdir (getproc s q))
  ∧ ∃ l, klog s' = l ++ klog s ∧ Forall (λ e, is_pmap_event e = false) l.

(** What a GET may change of the processes: the page map of the caller
    [p], and nothing else; nothing is allocated. *)
Definition get_frame (p : pid) (s s' : kstate) : Prop :=
  nfree s' = nfree s
  ∧ ∀ q, getproc s' q = set_pdir (pdir (getproc s' q)) (getproc s q)
         ∧ (q ≠ p → getproc s' q = getproc s q).

(** [ends P c]: when [c] does not return to its caller in C, the
    non-returning call that ended it satisfies [P]. *)
Definition ends (P : exit → Prop) {A} (c : K A) : Prop :=
  ∀ s e s', c s = Exit e s' → P e.

Definition is_trap_return (e : exit) : bool :=
  match e with ETrapReturn _ => true | _ => false end.

Definition is_proc_wait (e : exit) : bool :=
  match e with EProcWait _ _ _ => true | _ => false end.

(** The current process and the child tables are the same. *)
Definition same_tree (s s' : kstate) : Prop :=
  cpu_proc (cur s') = cpu_proc (cur s)
  ∧ ∀ q, child (getproc s' q) = child (getproc s q).

(** The current process, the child tables and the save-areas are the
    same. *)
Definition same_regs (s s' : kstate) : Prop :=
  cpu_proc (cur s') = cpu_proc (cur s)
  ∧ ∀ q, child (getproc s' q) = child (getproc s q)
         ∧ sv (getproc s' q) = sv (getproc s q).

(** The invariant of the null process: it is stopped, and no child
    slot refers to it. *)
Definition null_inv (s : kstate) : Prop :=
  state (getproc s proc_null) = PROC_STOP
  ∧ ∀ q cn, child (getproc s q) !! cn ≠ Some proc_null.

Definition null_inv_kept (s s' : kstate) : Prop := null_inv s → null_inv s'.

(** The log only grows. *)
Definition log_ext (s s' : kstate) : Prop :=
  ∃ l, klog s' = l ++ klog s.

(** ** Notions used to state what the handlers keep

    [stable I E c]: run from a state in [I], [c] leaves a state in [I],
    whether it returns or not; and when it does not return, the
    non-returning call that ended it satisfies [E]. *)
Definition stable (I : kstate → Prop) (E : exit → Prop) {A} (c : K A)
  : Prop :=
  ∀ s, I s → match c s with
             | Ok _ s' => I s'
             | Exit e s' => I s' ∧ E e
             end.

Global Instance kptr_eq_dec : EqDecision kptr.
Proof. solve_decision. Defined.

(** The assertion at the head of do_put and do_get: the calling process
    is running, on this CPU. *)
Definition caller_runs (s : kstate) : Prop :=
  state (getproc s (cpu_proc (cur s))) = PROC_RUN
  ∧ runcpu (getproc s (cpu_proc (cur s))) = Some (cpu_id (cur s)).

(** The child slot that a PUT or GET names: the low 8 bits of EDX. *)
Definition child_slot (tf : trapframe) : Z := Z.land (edx (regs tf)) 0xff.

(** The process in that slot of the caller. *)
Definition named_child (tf : trapframe) (s : kstate) : option pid :=
  child (getproc s (cpu_proc (cur s))) !! child_slot tf.

Section Exits.
Context {cfg : Config}.

(** do_put and do_get after the resolution of the child, for the
    caller [p] and the child [cp], which is stopped: the register
    transfer, and the steps after it. *)
Definition put_tail (tf : trapframe) (cmd : Z) (p cp : pid) : K unit :=
  put_memop tf cmd p cp ;;
  put_perm tf cmd cp ;;
  put_snap cmd cp ;;
  when (has cmd SYS_START) (proc_ready cp) ;;
  trap_return tf.

Definition put_body (tf : trapframe) (cmd : Z) (p cp : pid) : K unit :=
  put_regs tf cmd cp ;; put_tail tf cmd p cp.

Definition get_tail (tf : trapframe) (cmd : Z) (p cp : pid) : K unit :=
  get_memop tf cmd p cp ;;
  get_perm tf cmd p ;;
  get_snap tf cmd ;;
  trap_return tf.

Definition get_body (tf : trapframe) (cmd : Z) (p cp : pid) : K unit :=
  get_regs tf cmd cp ;; get_tail tf cmd p cp.

(** PUT and GET up to the permission step: child resolved and stopped,
    register transfer and memory operation (if asked for) done. *)
Definition put_before_perm (tf : trapframe) (cmd : Z) : K (pid * pid) :=
  pc ← put_child tf;
  put_regs tf cmd pc.2 ;;
  put_memop tf cmd pc.1 pc.2 ;;
  mret pc.

Definition get_before_perm (tf : trapframe) (cmd : Z) : K (pid * pid) :=
  pc ← get_child tf;
  get_regs tf cmd pc.2 ;;
  get_memop tf cmd pc.1 pc.2 ;;
  mret pc.

(** The two copies of a register transfer: the one under the recovery
    handler, then the direct one. *)
Definition regs_copies (tf : trapframe) (cmd : Z) (copyout : bool)
    (cp : pid) : K unit :=
  usercopy tf copyout (KSv cp) (ebx (regs tf)) (regs_len cmd) ;;
  memmove_user copyout (KSv cp) (ebx (regs tf)) (regs_len cmd).

(** The ways out of the steps of a handler after the resolution of the
    child, for the trapframe [tf] of the call and the trapframe [rd]
    that the recoverdata of the CPU refers to: trap_return with the
    trapframe of the call; a trap reflected by proc_ret with entry 0,
    which is T_GPFLT or T_PGFLT on the trapframe of the call or T_PGFLT
    on [rd]; a panic other than a failed assertion. *)
Definition body_exit (tf rd : trapframe) (e : exit) : Prop :=
  match e with
  | ETrapReturn tf' => tf' = tf
  | EProcRet tf' n =>
      n = 0 ∧ (tf' = set_trap tf T_GPFLT 0 ∨ tf' = set_trap tf T_PGFLT 0
               ∨ ∃ k, tf' = set_trap rd T_PGFLT k)
  | EPanic msg => msg ≠ "assertion failed"
  | EProcWait _ _ _ => False
  | EDiverted _ _ => False
  end.

(** The ways out of do_cputs, do_put and do_get, run from [s]: those of
    the body, and from the resolution of the child the wait for a child
    that is not stopped, with the state untouched, and the failed
    assertion when the caller is not running on this CPU. *)
Definition handler_exit (tf : trapframe) (s : kstate) (e : exit)
    (s' : kstate) : Prop :=
  match e with
  | EProcWait p cp tf' =>
      p = cpu_proc (cur s) ∧ tf' = tf ∧ s' = s
      ∧ state (getproc s cp) ≠ PROC_STOP
  | EPanic msg => msg = "assertion failed" → ¬ caller_runs s
  | _ => body_exit tf (recoverdata (cur s)) e
  end.

End Exits.

(** The proc structures are the same. *)
Definition same_procs (s s' : kstate) : Prop :=
  ∀ q, getproc s' q = getproc s q.

(** The scheduling states of all processes are the same. *)
Definition same_states (s s' : kstate) : Prop :=
  ∀ q, state (getproc s' q) = state (getproc s q).

(** ** A machine state to run the handlers on

    One CPU running process 1, which has no children yet; the null
    process, zero-filled; two pages of writable user memory at the
    bottom of the user address range. *)

Definition ex_mem : umem_t :=
  λ a, if (0x40000000 <=? a) && (a <? 0x40002000)
       then Some (a mod 251, true) else None.

Definition ex_parent : proc :=
  {| state := PROC_RUN; sv := replicate 592 0; pdir := pmap_zero;
     rpdir := pmap_zero; child := ∅; parent := None;
     runcpu := Some 0%nat |}.

Definition ex_null : proc :=
  {| state := PROC_STOP; sv := replicate 592 0; pdir := pmap_zero;
     rpdir := pmap_zero; child := ∅; parent := None; runcpu := None |}.

Definition ex_state : kstate :=
  {| cur := {| cpu_id := 0; cpu_proc := 1%nat; recover := None;
               recoverdata := trapframe0 |};
     procs := {[ 0%nat := ex_null; 1%nat := ex_parent ]};
     umem := ex_mem; kbuf := []; nfree := 3%nat; klog := [] |}.

(** The trapframe of a system call with the given EAX, EBX, ECX, EDX,
    ESI and EDI. *)
Definition ex_tf (a b c d si di : Z) : trapframe :=
  {| regs := {| edi := di; esi := si; ebp := 0; oesp := 0;
                ebx := b; edx := d; ecx := c; eax := a |};
     gs := 0; fs := 0; es := 0x23; ds := 0x23; trapno := 48; err := 0;
     eip := 0x40000100; cs := 0x1b; eflags := 0x202;
     esp := 0x40001ff0; ss := 0x23 |}.

(** System calls on this state: the constants are those of [pios]. *)

(** PUT with COPY of one byte to child 7. *)
Definition tf_put_copy1 : trapframe :=
  ex_tf 0x20001 0 1 7 0x40000000 0x40000000.
(** The same with REGS and the save-area pointer 0. *)
Definition tf_put_copy1_regs0 : trapframe :=
  ex_tf 0x21001 0 1 7 0x40000000 0x40000000.
(** PUT with the MERGE pattern. *)
Definition tf_put_merge : trapframe :=
  ex_tf 0x30001 0 0x400000 7 0x40000000 0x40000000.
(** The same with REGS and the save-area pointer 0. *)
Definition tf_put_merge_regs0 : trapframe :=
  ex_tf 0x31001 0 0x400000 7 0x40000000 0x40000000.
(** GET with SNAP from slot 7. *)
Definition tf_get_snap : trapframe := ex_tf 0x40002 0 0 7 0 0.
(** The same with REGS and the save-area pointer 0. *)
Definition tf_get_snap_regs0 : trapframe := ex_tf 0x41002 0 0 7 0 0.
(** GET from slot 7. *)
Definition tf_get : trapframe := ex_tf 2 0 0 7 0 0.
(** PUT with REGS of the save-area at 0x40000010 into child 7. *)
Definition tf_put_regs : trapframe := ex_tf 0x1001 0x40000010 0 7 0 0.
(** GET with REGS from child 7 to 0x40001000. *)
Definition tf_get_regs : trapframe := ex_tf 0x1002 0x40001000 0 7 0 0.
(** CPUTS of the string at 0x40000010. *)
Definition tf_cputs : trapframe := ex_tf 0 0x40000010 0 0 0 0.
(** CPUTS with the user pointer VM_USERHI - 4. *)
Definition tf_cputs_top : trapframe := ex_tf 0 (0xf0000000 - 4) 0 0 0 0.
(** CPUTS of the string in the last CPUTS_MAX bytes below VM_USERHI. *)
Definition tf_cputs_last : trapframe := ex_tf 0 (0xf0000000 - 256) 0 0 0 0.

(** ** More system calls on the machine state above *)

(** A system call of the undefined type 7. *)
Definition tf_undefined : trapframe := ex_tf 7 0 0 0 0 0.
(** RET. *)
Definition tf_ret : trapframe := ex_tf 3 0 0 0 0 0.

(** A machine state with a child that is not stopped: process 1 has,
    in slot 7, the child 2, which is ready to run. *)
Definition ex_busy : kstate :=
  {| cur := {| cpu_id := 0; cpu_proc := 1%nat; recover := None;
               recoverdata := trapframe0 |};
     procs := {[ 0%nat := ex_null;
                 1%nat := set_child 7 2%nat ex_parent;
                 2%nat := set_state PROC_READY ex_null ]};
     umem := ex_mem; kbuf := []; nfree := 3%nat; klog := [] |}.

(** The same machine state with the child stopped. *)
Definition ex_stopped : kstate :=
  {| cur := {| cpu_id := 0; cpu_proc := 1%nat; recover := None;
               recoverdata := trapframe0 |};
     procs := {[ 0%nat := ex_null;
                 1%nat := set_child 7 2%nat ex_parent;
                 2%nat := ex_null ]};
     umem := ex_mem; kbuf := []; nfree := 3%nat; klog := [] |}.

(** PUT with REGS of a save-area of which only the first 64 bytes are
    mapped, into child 7. *)
Definition tf_put_regs_edge : trapframe := ex_tf 0x1001 0x40001fc0 0 7 0 0.
(** CPUTS of a string of which only the first 128 bytes are mapped. *)
Definition tf_cputs_edge : trapframe := ex_tf 0 0x40001f80 0 0 0 0.
(** PUT with PERM, no memory operation, on half a page at 0x40001000. *)
Definition tf_put_perm_half : trapframe := ex_tf 0x701 0 0x800 7 0 0x40001000.
(** PUT with START alone on child 7. *)
Definition tf_put_start : trapframe := ex_tf 0x11 0 0 7 0 0.
(** PUT with REGS and the MERGE pattern. *)
Definition tf_put_regs_merge : trapframe :=
  ex_tf 0x31001 0x40000010 0x400000 7 0x40000000 0x40000000.
(** GET with SNAP and ZERO of one page table at 0x40000000. *)
Definition tf_get_snap_zero : trapframe :=
  ex_tf 0x50002 0 0x400000 7 0 0x40000000.

(** ** A machine state with page maps

    Process 1 has two pages mapped read-write at the bottom of the user
    address range.  Its child 2, in slot 7, is stopped; it has one page
    mapped read-only there, and an empty reference page map. *)
Definition ex_pmap : pmap :=
  λ a, if (0x40000000 <=? a) && (a <? 0x40002000)
       then (0x100 + (a - 0x40000000) / 0x1000, 0x600) else pte_zero.

Definition ex_child_pmap : pmap :=
  λ a, if (0x40000000 <=? a) && (a <? 0x40001000)
       then (9, 0x200) else pte_zero.

Definition ex_maps : kstate :=
  {| cur := {| cpu_id := 0; cpu_proc := 1%nat; recover := None;
               recoverdata := trapframe0 |};
     procs := {[ 0%nat := ex_null;
                 1%nat := set_pdir ex_pmap (set_child 7 2%nat ex_parent);
                 2%nat := set_pdir ex_child_pmap ex_null ]};
     umem := ex_mem; kbuf := []; nfree := 3%nat; klog := [] |}.

(** PUT with COPY and SNAP: the 4 MB at 0x40000000 of the caller to
    0x40400000 of child 7, then the snapshot. *)
Definition tf_put_copy_snap : trapframe :=
  ex_tf 0x60001 0 0x400000 7 0x40000000 0x40400000.
(** * Properties *)

Lemma pios_ok : config_ok pios.
Proof. split; vm_compute; try split; congruence. Qed.

(** ** Basic facts on the monad and the state *)

Section Basics.
Context {cfg : Config}.

Lemma bind_eq {A B} (c : K A) (k : A → K B) s :
  (c ≫= k) s = match c s with Ok a s1 => k a s1 | Exit e s1 => Exit e s1 end.
Proof. reflexivity. Qed.

Lemma bind_ok {A B} (c : K A) (k : A → K B) s a s1 :
  c s = Ok a s1 → (c ≫= k) s = k a s1.
Proof. intros H. rewrite bind_eq, H. reflexivity. Qed.

Lemma bind_exit {A B} (c : K A) (k : A → K B) s e s1 :
  c s = Exit e s1 → (c ≫= k) s = Exit e s1.
Proof. intros H. rewrite bind_eq, H. reflexivity. Qed.

Lemma exit_final {A} (r : res A) e : exit_of r = Some e → r = Exit e (final r).
Proof. destruct r; simpl; [done|]. by intros [= ->]. Qed.

Lemma value_final {A} (r : res A) a : value_of r = Some a → r = Ok a (final r).
Proof. destruct r; simpl; [|done]. by intros [= ->]. Qed.

Lemma getproc_setproc s p v q :
  getproc (setproc p v s) q = if decide (q = p) then v else getproc s q.
Proof.
  unfold getproc, setproc; simpl. destruct (decide (q = p)) as [->|Hne].
  - by rewrite lookup_insert_eq.
  - by rewrite lookup_insert_ne.
Qed.

Lemma getproc_set_recover s r q : getproc (set_recover r s) q = getproc s q.
Proof. reflexivity. Qed.

Lemma getproc_log s e q : getproc (log e s) q = getproc s q.
Proof. reflexivity. Qed.

Lemma getproc_setproc_eq s p v : getproc (setproc p v s) p = v.
Proof. by rewrite getproc_setproc, decide_True. Qed.

Lemma sv_set_sv b p : sv (set_sv b p) = b.
Proof. reflexivity. Qed.

(** checkva lets exactly the blocks through that start in the user range
    and end strictly below VM_USERHI. *)
Lemma checkva_test (Hok : config_ok cfg) uva size :
  u32 uva → u32 size →
  ((uva <? VM_USERLO) || (uva >=? VM_USERHI)
   || (size >=? wrap32 (VM_USERHI - uva))) = false
  ↔ VM_USERLO ≤ uva ∧ uva + size < VM_USERHI.
Proof.
  intros Hu Hs. destruct Hok. unfold u32, wrap32 in *.
  rewrite !orb_false_iff, Z.ltb_ge, Z.geb_leb, !Z.leb_gt.
  split.
  - intros [[H1 H2] H3]. rewrite Z.mod_small in H3 by lia. lia.
  - intros [H1 H2]. rewrite Z.mod_small by lia. lia.
Qed.

Lemma checkva_cases utf uva size s :
  (checkva utf uva size s = Ok tt s
   ∧ ((uva <? VM_USERLO) || (uva >=? VM_USERHI)
      || (size >=? wrap32 (VM_USERHI - uva))) = false)
  ∨ (checkva utf uva size s = Exit (EProcRet (set_trap utf T_PGFLT 0) 0) s
     ∧ ((uva <? VM_USERLO) || (uva >=? VM_USERHI)
        || (size >=? wrap32 (VM_USERHI - uva))) = true).
Proof.
  unfold checkva.
  destruct ((uva <? VM_USERLO) || (uva >=? VM_USERHI)
            || (size >=? wrap32 (VM_USERHI - uva))); [right|left]; done.
Qed.

(** Unfolding of the monad's plumbing. *)
Lemma kget_eq s : kget s = Ok s s.
Proof. reflexivity. Qed.

Lemma kmod_eq f s : kmod f s = Ok tt (f s).
Proof. reflexivity. Qed.

Lemma assert_true s : assert true s = Ok tt s.
Proof. reflexivity. Qed.

Lemma assert_false s : assert false s = Exit (EPanic "assertion failed") s.
Proof. reflexivity. Qed.


(** A trap with sysrecover installed unwinds through it. *)
Lemma trap_sysrecover {A} ktf s :
  recover (cur s) = Some FN_sysrecover →
  trap (A := A) ktf s
  = Exit (EProcRet (set_trap (recoverdata (cur s)) (trapno ktf) (err ktf)) 0)
         (set_recover None s).
Proof.
  intros H. unfold trap. rewrite H. unfold sysrecover.
  rewrite decide_True by done. reflexivity.
Qed.

Lemma trap_unguarded {A} ktf s :
  recover (cur s) = None →
  trap (A := A) ktf s = Exit (EPanic "unhandled trap in kernel") s.
Proof. intros H. unfold trap. by rewrite H. Qed.

(** The ways memmove_user ends: all bytes moved, or a fault after a
    prefix; either way the access is logged with the state of the
    recover slot. *)
Lemma memmove_user_cases copyout kva uva size s :
  ∃ s1 ev,
    (memmove_user copyout kva uva size s = Ok tt s1
     ∨ ∃ e, memmove_user copyout kva uva size s = trap (fault_tf e) s1)
    ∧ klog s1 = ev :: klog s ∧ cur s1 = cur s ∧ nfree s1 = nfree s
    ∧ ev_guarded ev = Some (guarded s).
Proof.
  unfold memmove_user. destruct copyout.
  - destruct (uwrite _ _ _) as [[m' n] [e|]]; eexists _, _;
      (split; [by eauto|]); done.
  - destruct (uread _ _ _) as [bs [e|]]; eexists _, _;
      (split; [by eauto|]); by destruct kva.
Qed.

End Basics.

Section Usercopy.
Context {cfg : Config}.

(** [C2] usercopy never comes back with the recovery handler of the CPU
    installed.  It installs sysrecover only into an empty slot (a slot
    that is taken fails the assertion and nothing is installed); the
    copy runs with sysrecover installed; and on both ways out of the
    copy, the normal return and the unwind of a fault through
    sysrecover, the slot is empty again.  A block that checkva rejects
    leaves the state as it was. *)
Theorem usercopy_recover_nested utf copyout kva uva size s :
  match usercopy utf copyout kva uva size s with
  | Ok _ s' =>
      recover (cur s) = None ∧ recover (cur s') = None
      ∧ ∃ ev, klog s' = ev :: klog s ∧ ev_guarded ev = Some true
  | Exit e s' =>
      (e = EProcRet (set_trap utf T_PGFLT 0) 0 ∧ s' = s)
      ∨ (e = EPanic "assertion failed" ∧ s' = s ∧ recover (cur s) ≠ None)
      ∨ (∃ k, e = EProcRet (set_trap (recoverdata (cur s)) T_PGFLT k) 0
              ∧ recover (cur s) = None ∧ recover (cur s') = None
              ∧ ∃ ev, klog s' = ev :: klog s ∧ ev_guarded ev = Some true)
  end.
Proof.
  unfold usercopy. rewrite bind_eq.
  destruct (checkva_cases utf uva size s) as [[-> _]|[-> _]]; [|by left].
  rewrite bind_eq, kget_eq.
  destruct (recover (cur s)) as [fn|] eqn:Hrec.
  { rewrite bool_decide_eq_false_2 by done. rewrite bind_eq, assert_false.
    right; left. done. }
  rewrite bool_decide_eq_true_2 by done.
  rewrite bind_eq, assert_true, bind_eq, kmod_eq, bind_eq.
  destruct (memmove_user_cases copyout kva uva size
              (set_recover (Some FN_sysrecover) s))
    as (s1 & ev & [-> | [e ->]] & Hlog & Hcur & _ & Hev).
  - rewrite bind_eq, kget_eq, Hcur. simpl. eauto.
  - rewrite trap_sysrecover by (by rewrite Hcur).
    right; right. exists e. rewrite Hcur. simpl. eauto 6.
Qed.

End Usercopy.

(** ** Frame rules *)

Section KeepsFrame.
Context {cfg : Config}.
Context (R : relation kstate) `{!Frame R}.

Lemma keeps_ret {A} (a : A) : keeps R (mret a : K A).
Proof. intros s. simpl. reflexivity. Qed.

Lemma keeps_exit {A} e : keeps R (kexit e : K A).
Proof. intros s. simpl. reflexivity. Qed.

Lemma keeps_bind {A B} (c : K A) (k : A → K B) :
  keeps R c → (∀ a, keeps R (k a)) → keeps R (c ≫= k).
Proof.
  intros Hc Hk s. rewrite bind_eq. specialize (Hc s).
  destruct (c s) as [a s1|e s1]; simpl in *; [|done].
  transitivity s1; [done|apply Hk].
Qed.

Lemma keeps_kget : keeps R kget.
Proof. intros s. simpl. reflexivity. Qed.

Lemma keeps_kmod f : (∀ s, R s (f s)) → keeps R (kmod f).
Proof. intros H s. apply H. Qed.

Lemma keeps_assert b : keeps R (assert b).
Proof. destruct b; [apply keeps_ret|apply keeps_exit]. Qed.

Lemma keeps_when b c : keeps R c → keeps R (when b c).
Proof. destruct b; [done|intros _; apply keeps_ret]. Qed.

Lemma keeps_if {A} (b : bool) (c1 c2 : K A) :
  keeps R c1 → keeps R c2 → keeps R (if b then c1 else c2).
Proof. by destruct b. Qed.

Lemma keeps_systrap {A} utf no e : keeps R (systrap utf no e : K A).
Proof. apply keeps_exit. Qed.

Lemma keeps_trap_return {A} tf : keeps R (trap_return tf : K A).
Proof. apply keeps_exit. Qed.

Lemma keeps_proc_wait {A} p cp tf : keeps R (proc_wait p cp tf : K A).
Proof. apply keeps_exit. Qed.

Lemma keeps_proc_cur : keeps R proc_cur.
Proof. intros s. simpl. reflexivity. Qed.

Lemma keeps_trap {A} ktf : keeps R (trap ktf : K A).
Proof.
  intros s. unfold trap. destruct (recover (cur s)) as [[|n]|] eqn:Hr;
    simpl; try reflexivity.
  unfold sysrecover. rewrite decide_True by done. simpl. apply frame_recover.
Qed.

Lemma keeps_checkva utf uva size : keeps R (checkva utf uva size).
Proof. unfold checkva. apply keeps_if; [apply keeps_systrap|apply keeps_ret]. Qed.

Lemma keeps_set_recover r : keeps R (kmod (set_recover r)).
Proof. apply keeps_kmod. intros s. apply frame_recover. Qed.

(** A copy-out changes user memory and the log only. *)
Lemma keeps_memmove_out kva uva size :
  keeps R (memmove_user true kva uva size).
Proof.
  intros s. unfold memmove_user.
  destruct (uwrite _ _ _) as [[m' n] f].
  assert (R s (log (EvWrite uva (take n (take (Z.to_nat size) (kread kva s)))
                            (guarded s)) (set_umem m' s))) as Hs.
  { transitivity (set_umem m' s); [apply frame_umem|by apply frame_log]. }
  destruct f as [e|]; simpl; [|done].
  etransitivity; [exact Hs|]. apply keeps_trap.
Qed.

(** A copy-in to the local buffer changes that buffer and the log. *)
Lemma keeps_memmove_in_buf uva size :
  keeps R (memmove_user false KBuf uva size).
Proof.
  intros s. unfold memmove_user.
  destruct (uread _ _ _) as [bs f].
  assert (R s (log (EvRead uva bs (guarded s)) (kwrite KBuf bs s))) as Hs.
  { transitivity (kwrite KBuf bs s); [apply frame_kbuf|by apply frame_log]. }
  destruct f as [e|]; simpl; [|done].
  etransitivity; [exact Hs|]. apply keeps_trap.
Qed.

Lemma keeps_usercopy_with utf copyout kva uva size :
  keeps R (memmove_user copyout kva uva size) →
  keeps R (usercopy utf copyout kva uva size).
Proof.
  intros Hm. unfold usercopy.
  apply keeps_bind; [apply keeps_checkva|intros _].
  apply keeps_bind; [apply keeps_kget|intros c].
  apply keeps_bind; [apply keeps_assert|intros _].
  apply keeps_bind; [apply keeps_set_recover|intros _].
  apply keeps_bind; [exact Hm|intros _].
  apply keeps_bind; [apply keeps_kget|intros c'].
  apply keeps_bind; [apply keeps_assert|intros _].
  apply keeps_set_recover.
Qed.

Lemma keeps_usercopy_out utf kva uva size :
  keeps R (usercopy utf true kva uva size).
Proof. apply keeps_usercopy_with, keeps_memmove_out. Qed.

Lemma keeps_get_regs tf cmd cp : keeps R (get_regs tf cmd cp).
Proof.
  unfold get_regs. apply keeps_when.
  apply keeps_bind; [apply keeps_usercopy_out|intros _].
  apply keeps_memmove_out.
Qed.

Lemma keeps_get_child tf : keeps R (get_child tf).
Proof.
  unfold get_child.
  apply keeps_bind; [apply keeps_proc_cur|intros p].
  apply keeps_bind; [apply keeps_kget|intros s].
  apply keeps_bind; [apply keeps_assert|intros _].
  apply keeps_bind; [|intros _; apply keeps_ret].
  apply keeps_if; [apply keeps_proc_wait|apply keeps_ret].
Qed.

Lemma keeps_get_snap tf cmd : keeps R (get_snap tf cmd).
Proof. apply keeps_when, keeps_systrap. Qed.

End KeepsFrame.

Section KeepsFrameSv.
Context {cfg : Config}.
Context (R : relation kstate) `{!FrameSv R}.

Lemma keeps_memmove_user copyout kva uva size :
  keeps R (memmove_user copyout kva uva size).
Proof.
  destruct copyout; [apply (keeps_memmove_out R)|].
  destruct kva as [cp|]; [|apply (keeps_memmove_in_buf R)].
  intros s. unfold memmove_user.
  destruct (uread _ _ _) as [bs f].
  assert (R s (log (EvRead uva bs (guarded s)) (kwrite (KSv cp) bs s))) as Hs.
  { transitivity (kwrite (KSv cp) bs s); [apply frame_sv|by apply frame_log]. }
  destruct f as [e|]; simpl; [|done].
  etransitivity; [exact Hs|]. apply (keeps_trap R).
Qed.

Lemma keeps_usercopy utf copyout kva uva size :
  keeps R (usercopy utf copyout kva uva size).
Proof. apply (keeps_usercopy_with R), keeps_memmove_user. Qed.

Lemma keeps_modfield cp off n f : keeps R (modfield cp off n f).
Proof. apply (keeps_kmod R). intros s. apply frame_sv. Qed.

Lemma keeps_put_regs tf cmd cp : keeps R (put_regs tf cmd cp).
Proof.
  unfold put_regs. apply (keeps_when R).
  apply (keeps_bind R); [apply keeps_usercopy|intros _].
  apply (keeps_bind R); [apply keeps_memmove_user|intros _].
  repeat (apply (keeps_bind R); [apply keeps_modfield|intros _]).
  apply keeps_modfield.
Qed.

End KeepsFrameSv.

(** ** The relations used below are frames *)

Lemma set_pdir_id p : set_pdir (pdir p) p = p.
Proof. by destruct p. Qed.

Global Instance same_pmaps_preorder : PreOrder same_pmaps.
Proof.
  split.
  - intros s. split; [done|]. exists []. by split.
  - intros s1 s2 s3 [H1 (l1 & Hl1 & Hf1)] [H2 (l2 & Hl2 & Hf2)]. split.
    + intros q. destruct (H1 q) as [Ha Hb], (H2 q) as [Hc Hd].
      split; congruence.
    + exists (l2 ++ l1). rewrite Hl2, Hl1, app_assoc. split; [done|].
      by apply Forall_app.
Qed.

Global Instance same_pmaps_framesv : FrameSv same_pmaps.
Proof.
  split; [split; [apply _|..]|].
  - intros r s. split; [done|]. exists []. by split.
  - intros m s. split; [done|]. exists []. by split.
  - intros b s. split; [done|]. exists []. by split.
  - intros e s He. split; [done|]. exists [e]. split; [done|].
    by apply Forall_singleton.
  - intros cp b s. split; [|exists []; by split].
    intros q. rewrite getproc_setproc. by destruct (decide (q = cp)) as [->|].
Qed.

Global Instance get_frame_preorder p : PreOrder (get_frame p).
Proof.
  split.
  - intros s. split; [done|]. intros q. by rewrite set_pdir_id.
  - intros s1 s2 s3 [Hn1 H1] [Hn2 H2]. split; [congruence|].
    intros q. destruct (H1 q) as [Ha Hb], (H2 q) as [Hc Hd]. split.
    + rewrite Hc at 1. rewrite Ha. reflexivity.
    + intros Hq. rewrite Hd, Hb; done.
Qed.

Global Instance get_frame_frame p : Frame (get_frame p).
Proof.
  split; [apply _|..]; intros; (split; [done|]); intros q; simpl;
    by rewrite set_pdir_id.
Qed.

Global Instance log_ext_preorder : PreOrder log_ext.
Proof.
  split.
  - intros s. by exists [].
  - intros s1 s2 s3 [l1 H1] [l2 H2]. exists (l2 ++ l1).
    by rewrite H2, H1, app_assoc.
Qed.

Global Instance log_ext_framesv : FrameSv log_ext.
Proof.
  split; [split; [apply _|..]|]; intros; try (by exists []).
  by eexists [_].
Qed.

(** ** Validation of the user address block *)

Section Validation.
Context {cfg : Config}.

(** A block outside these bounds ends usercopy at once. *)
Lemma usercopy_rejected (Hok : config_ok cfg) utf copyout kva uva size s :
  u32 uva → u32 size →
  ¬ (VM_USERLO ≤ uva ∧ uva + size < VM_USERHI) →
  usercopy utf copyout kva uva size s
  = Exit (EProcRet (set_trap utf T_PGFLT 0) 0) s.
Proof.
  intros Hu Hs Hn. pose proof (checkva_test Hok uva size Hu Hs) as Ht.
  destruct (checkva_cases utf uva size s) as [[Hc Hb]|[Hc Hb]].
  - destruct Hn. by apply Ht.
  - unfold usercopy. by rewrite (bind_exit _ _ _ _ _ Hc).
Qed.

Lemma checkva_accepted (Hok : config_ok cfg) utf uva size s :
  u32 uva → u32 size →
  VM_USERLO ≤ uva ∧ uva + size < VM_USERHI →
  checkva utf uva size s = Ok tt s.
Proof.
  intros Hu Hs Hv. apply (checkva_test Hok uva size Hu Hs) in Hv.
  destruct (checkva_cases utf uva size s) as [[Hc Hb]|[Hc Hb]];
    [done|congruence].
Qed.

(** [C1] The block that usercopy checks is let through when it starts at
    or above VM_USERLO and ends strictly below VM_USERHI, with the
    comparison immune to wrap-around of uva + size.  Every other block,
    the block that ends exactly at VM_USERHI among them, makes the call
    reflect T_PGFLT to the parent with the state, user memory included,
    as it was. *)
Theorem usercopy_validation (Hok : config_ok cfg)
    utf copyout kva uva size s :
  u32 uva → u32 size →
  (VM_USERLO ≤ uva ∧ uva + size < VM_USERHI →
   checkva utf uva size s = Ok tt s)
  ∧ (¬ (VM_USERLO ≤ uva ∧ uva + size < VM_USERHI) →
     usercopy utf copyout kva uva size s
     = Exit (EProcRet (set_trap utf T_PGFLT 0) 0) s).
Proof.
  intros Hu Hs. split.
  - by apply checkva_accepted.
  - by apply usercopy_rejected.
Qed.

End Validation.

(** ** The steps of PUT and GET before the memory operation *)

Section Steps.
Context {cfg : Config}.

(** The region test of the handlers rejects exactly the regions that
    are not aligned or not inside the user address range. *)
Lemma bad_region_spec (Hok : config_ok cfg) off va size :
  u32 va → u32 size →
  bad_region off va size = false ↔ region_ok off va size.
Proof.
  intros Hu Hs. destruct Hok. unfold u32, bad_region, region_ok, wrap32 in *.
  rewrite !orb_false_iff, !negb_false_iff, !Z.eqb_eq, Z.ltb_ge.
  rewrite <- !Z.ltb_ge, !Z.ltb_ge. rewrite !Z.gtb_ltb, !Z.ltb_ge.
  split.
  - intros [[[[H1 H2] H3] H4] H5]. rewrite Z.mod_small in H5 by lia. lia.
  - intros (H1 & H2 & H3 & H4). rewrite Z.mod_small by lia. lia.
Qed.

(** proc_alloc either finds no page, or enters a new, stopped process
    with empty page maps at an address that was not in use. *)
Lemma proc_alloc_cases p cn s :
  (nfree s = O ∧ proc_alloc p cn s = Ok None s)
  ∨ ∃ n cp c,
      proc_alloc p cn s
      = Ok (Some cp)
           (setproc p (set_child cn cp (getproc s p))
              (setproc cp c (set_nfree n s)))
      ∧ nfree s = S n ∧ cp ≠ p ∧ cp ≠ proc_null ∧ procs s !! cp = None
      ∧ state c = PROC_STOP ∧ pdir c = pmap_zero ∧ rpdir c = pmap_zero
      ∧ child c = ∅.
Proof.
  unfold proc_alloc. destruct (nfree s) as [|n] eqn:Hn; [by left|right].
  set (cp := fresh ({[proc_null; p]} ∪ dom (procs s))).
  assert (cp ∉ ({[proc_null; p]} ∪ dom (procs s) : gset pid)) as Hfresh
    by apply is_fresh.
  assert (cp ≠ p) as Hp by set_solver.
  eexists n, cp, _. split.
  { rewrite (getproc_setproc _ cp _ p), decide_False by done. reflexivity. }
  split; [done|]. split; [done|].
  split; [set_solver|]. split; [apply not_elem_of_dom; set_solver|].
  done.
Qed.

Lemma keeps_same_pmaps_proc_alloc p cn : keeps same_pmaps (proc_alloc p cn).
Proof.
  intros s.
  destruct (proc_alloc_cases p cn s)
    as [[_ ->]|(n & cp & c & -> & _ & Hp & _ & Hcp & _ & Hpd & Hrpd & _)];
    [reflexivity|].
  simpl. split; [|by exists []].
  intros q. rewrite !getproc_setproc.
  destruct (decide (q = p)) as [->|Hq]; [done|].
  destruct (decide (q = cp)) as [->|Hq']; [|done].
  rewrite Hpd, Hrpd. unfold getproc. simpl. by rewrite Hcp.
Qed.

Lemma keeps_put_child R `{!Frame R} tf :
  (∀ p cn, keeps R (proc_alloc p cn)) → keeps R (put_child tf).
Proof.
  intros Halloc. unfold put_child.
  apply (keeps_bind R); [apply (keeps_proc_cur R)|intros p].
  apply (keeps_bind R); [apply (keeps_kget R)|intros s].
  apply (keeps_bind R); [apply (keeps_assert R)|intros _].
  apply (keeps_bind R); [|intros cp].
  { destruct (child (getproc s p) !! _) as [cp|]; [apply (keeps_ret R)|].
    apply (keeps_bind R); [apply Halloc|intros [cp|]];
      [apply (keeps_ret R)|apply (keeps_exit R)]. }
  apply (keeps_bind R); [apply (keeps_kget R)|intros s'].
  apply (keeps_bind R); [|intros _; apply (keeps_ret R)].
  apply (keeps_if R); [apply (keeps_proc_wait R)|apply (keeps_ret R)].
Qed.

Lemma keeps_put_before_memop R `{!FrameSv R} tf cmd :
  (∀ p cn, keeps R (proc_alloc p cn)) → keeps R (put_before_memop tf cmd).
Proof.
  intros Halloc. unfold put_before_memop.
  apply (keeps_bind R); [by apply (keeps_put_child R)|intros pc].
  apply (keeps_bind R); [apply (keeps_put_regs R)|intros _].
  apply (keeps_ret R).
Qed.

Lemma keeps_get_before_memop R `{!Frame R} tf cmd :
  keeps R (get_before_memop tf cmd).
Proof.
  unfold get_before_memop.
  apply (keeps_bind R); [apply (keeps_get_child R)|intros pc].
  apply (keeps_bind R); [apply (keeps_get_regs R)|intros _].
  apply (keeps_ret R).
Qed.

(** do_put, seen from the switch on MEMOP. *)
Lemma do_put_from_memop tf cmd s p cp s1 :
  put_before_memop tf cmd s = Ok (p, cp) s1 →
  do_put tf cmd s
  = (put_memop tf cmd p cp ;; put_perm tf cmd cp ;; put_snap cmd cp ;;
     when (has cmd SYS_START) (proc_ready cp) ;; trap_return tf) s1.
Proof.
  unfold put_before_memop, do_put. rewrite !bind_eq.
  destruct (put_child tf s) as [[p' cp'] s0|e s0]; [|done]. simpl.
  rewrite !bind_eq.
  destruct (put_regs tf cmd cp' s0) as [[] s2|e s2]; [|done].
  intros [= -> -> ->]. reflexivity.
Qed.

Lemma do_put_before_memop tf cmd s e s1 :
  put_before_memop tf cmd s = Exit e s1 → do_put tf cmd s = Exit e s1.
Proof.
  unfold put_before_memop, do_put. rewrite !bind_eq.
  destruct (put_child tf s) as [[p' cp'] s0|e0 s0];
    [|by intros [= -> ->]]. simpl.
  rewrite !bind_eq.
  destruct (put_regs tf cmd cp' s0) as [[] s2|e2 s2];
    [done|by intros [= -> ->]].
Qed.

Lemma do_get_from_memop tf cmd s p cp s1 :
  get_before_memop tf cmd s = Ok (p, cp) s1 →
  do_get tf cmd s
  = (get_memop tf cmd p cp ;; get_perm tf cmd p ;; get_snap tf cmd ;;
     trap_return tf) s1.
Proof.
  unfold get_before_memop, do_get. rewrite !bind_eq.
  destruct (get_child tf s) as [[p' cp'] s0|e s0]; [|done]. simpl.
  rewrite !bind_eq.
  destruct (get_regs tf cmd cp' s0) as [[] s2|e s2]; [|done].
  intros [= -> -> ->]. reflexivity.
Qed.

End Steps.

(** ** The memory operation of PUT and GET *)

Section Memop.
Context {cfg : Config}.

Lemma put_memop_invalid (Hok : config_ok cfg) tf cmd p cp s :
  u32 (esi (regs tf)) → u32 (edi (regs tf)) → u32 (ecx (regs tf)) →
  Z.land cmd SYS_MEMOP ≠ 0 →
  ¬ (region_ok PTOFF (edi (regs tf)) (ecx (regs tf))
     ∧ (Z.land cmd SYS_MEMOP = SYS_COPY →
        region_ok PTOFF (esi (regs tf)) (ecx (regs tf)))) →
  put_memop tf cmd p cp s = Exit (EProcRet (set_trap tf T_GPFLT 0) 0) s.
Proof.
  intros Hs Hd Hz Hm Hbad. unfold put_memop.
  rewrite (proj2 (Z.eqb_neq _ _) Hm).
  destruct (Z.land cmd SYS_MEMOP =? SYS_COPY) eqn:Hc;
    destruct (Z.land cmd SYS_MEMOP =? SYS_ZERO) eqn:Hzero;
    destruct (bad_region PTOFF (esi (regs tf)) (ecx (regs tf))) eqn:Hbs;
    destruct (bad_region PTOFF (edi (regs tf)) (ecx (regs tf))) eqn:Hbd;
    try reflexivity; destruct Hbad;
    (split; [by apply (bad_region_spec Hok)|intros Hcopy]);
    try (by apply (bad_region_spec Hok)); apply Z.eqb_neq in Hc; done.
Qed.

Lemma put_memop_valid (Hok : config_ok cfg) tf cmd p cp s :
  u32 (esi (regs tf)) → u32 (edi (regs tf)) → u32 (ecx (regs tf)) →
  Z.land cmd SYS_MEMOP = SYS_COPY ∨ Z.land cmd SYS_MEMOP = SYS_ZERO →
  region_ok PTOFF (edi (regs tf)) (ecx (regs tf)) →
  (Z.land cmd SYS_MEMOP = SYS_COPY →
   region_ok PTOFF (esi (regs tf)) (ecx (regs tf))) →
  ∃ s2 op, put_memop tf cmd p cp s = Ok tt s2
           ∧ klog s2 = EvPmap op :: klog s.
Proof.
  intros Hs Hd Hz Hm Hdst Hsrc. unfold put_memop.
  apply (bad_region_spec Hok) in Hdst; [|done..]. rewrite Hdst.
  assert (Z.land cmd SYS_MEMOP = SYS_COPY →
          bad_region PTOFF (esi (regs tf)) (ecx (regs tf)) = false) as Hsrc'.
  { intros Hc. apply (bad_region_spec Hok); auto. }
  destruct Hok. destruct Hm as [Hm|Hm]; rewrite Hm.
  - specialize (Hsrc' Hm).
    rewrite (proj2 (Z.eqb_neq _ _) ok_copy0), Z.eqb_refl.
    rewrite (proj2 (Z.eqb_neq _ _) ok_copy_zero0). simpl.
    rewrite Hsrc'. by eexists _, _.
  - rewrite (proj2 (Z.eqb_neq _ _) ok_zero0), Z.eqb_refl.
    rewrite (proj2 (Z.eqb_neq SYS_ZERO SYS_COPY)) by done. simpl.
    by eexists _, _.
Qed.

Lemma get_memop_invalid (Hok : config_ok cfg) tf cmd p cp s :
  u32 (esi (regs tf)) → u32 (edi (regs tf)) → u32 (ecx (regs tf)) →
  Z.land cmd SYS_MEMOP ≠ 0 →
  ¬ (region_ok PTOFF (edi (regs tf)) (ecx (regs tf))
     ∧ (Z.land cmd SYS_MEMOP = SYS_COPY ∨ Z.land cmd SYS_MEMOP = SYS_MERGE →
        region_ok PTOFF (esi (regs tf)) (ecx (regs tf)))) →
  get_memop tf cmd p cp s = Exit (EProcRet (set_trap tf T_GPFLT 0) 0) s.
Proof.
  intros Hs Hd Hz Hm Hbad. unfold get_memop.
  rewrite (proj2 (Z.eqb_neq _ _) Hm).
  destruct (Z.land cmd SYS_MEMOP =? SYS_COPY) eqn:Hc;
    destruct (Z.land cmd SYS_MEMOP =? SYS_MERGE) eqn:Hmg;
    destruct (Z.land cmd SYS_MEMOP =? SYS_ZERO) eqn:Hzero;
    destruct (bad_region PTOFF (esi (regs tf)) (ecx (regs tf))) eqn:Hbs;
    destruct (bad_region PTOFF (edi (regs tf)) (ecx (regs tf))) eqn:Hbd;
    try reflexivity; destruct Hbad;
    (split; [by apply (bad_region_spec Hok)|intros Hcopy]);
    try (by apply (bad_region_spec Hok));
    apply Z.eqb_neq in Hc, Hmg; by destruct Hcopy.
Qed.

Lemma get_memop_valid (Hok : config_ok cfg) tf cmd p cp s :
  u32 (esi (regs tf)) → u32 (edi (regs tf)) → u32 (ecx (regs tf)) →
  Z.land cmd SYS_MEMOP = SYS_COPY ∨ Z.land cmd SYS_MEMOP = SYS_MERGE
  ∨ Z.land cmd SYS_MEMOP = SYS_ZERO →
  region_ok PTOFF (edi (regs tf)) (ecx (regs tf)) →
  (Z.land cmd SYS_MEMOP = SYS_COPY ∨ Z.land cmd SYS_MEMOP = SYS_MERGE →
   region_ok PTOFF (esi (regs tf)) (ecx (regs tf))) →
  ∃ s2 op, get_memop tf cmd p cp s = Ok tt s2
           ∧ klog s2 = EvPmap op :: klog s.
Proof.
  intros Hs Hd Hz Hm Hdst Hsrc. unfold get_memop.
  apply (bad_region_spec Hok) in Hdst; [|done..]. rewrite Hdst.
  assert (Z.land cmd SYS_MEMOP = SYS_COPY ∨ Z.land cmd SYS_MEMOP = SYS_MERGE →
          bad_region PTOFF (esi (regs tf)) (ecx (regs tf)) = false) as Hsrc'.
  { intros Hc. apply (bad_region_spec Hok); auto. }
  destruct Hok. destruct Hm as [Hm|[Hm|Hm]]; rewrite Hm in *;
    repeat match goal with
    | |- context [?a =? ?b] =>
        first [rewrite (Z.eqb_refl a)
              |rewrite (proj2 (Z.eqb_neq a b)) by congruence]
    end; simpl; rewrite ?Hsrc' by auto; by eexists _, _.
Qed.

(** [C3] as amended.  A PUT or GET call with MEMOP ≠ NONE that gets as
    far as the memory operation checks the destination region and, for
    COPY (on GET also for MERGE), the source region: address and size
    aligned to a page table and the region inside the user address
    range, computed without wrap-around.  When a check fails the call
    reflects T_GPFLT to the parent and the page maps of all processes
    are as they were when the call began; when the checks pass, the
    page-map operation is carried out. *)
Theorem memop_validation (Hok : config_ok cfg) tf cmd :
  let sva := esi (regs tf) in
  let dva := edi (regs tf) in
  let size := ecx (regs tf) in
  let m := Z.land cmd SYS_MEMOP in
  u32 sva → u32 dva → u32 size → m ≠ 0 →
  (∀ s p cp s1, put_before_memop tf cmd s = Ok (p, cp) s1 →
     (¬ (region_ok PTOFF dva size
         ∧ (m = SYS_COPY → region_ok PTOFF sva size)) →
      do_put tf cmd s = Exit (EProcRet (set_trap tf T_GPFLT 0) 0) s1
      ∧ same_pmaps s s1)
     ∧ (m = SYS_COPY ∨ m = SYS_ZERO →
        region_ok PTOFF dva size →
        (m = SYS_COPY → region_ok PTOFF sva size) →
        ∃ s2 op, put_memop tf cmd p cp s1 = Ok tt s2
                 ∧ klog s2 = EvPmap op :: klog s1))
  ∧ (∀ s p cp s1, get_before_memop tf cmd s = Ok (p, cp) s1 →
     (¬ (region_ok PTOFF dva size
         ∧ (m = SYS_COPY ∨ m = SYS_MERGE → region_ok PTOFF sva size)) →
      do_get tf cmd s = Exit (EProcRet (set_trap tf T_GPFLT 0) 0) s1
      ∧ same_pmaps s s1)
     ∧ (m = SYS_COPY ∨ m = SYS_MERGE ∨ m = SYS_ZERO →
        region_ok PTOFF dva size →
        (m = SYS_COPY ∨ m = SYS_MERGE → region_ok PTOFF sva size) →
        ∃ s2 op, get_memop tf cmd p cp s1 = Ok tt s2
                 ∧ klog s2 = EvPmap op :: klog s1)).
Proof.
  intros sva dva size m Hs Hd Hz Hm. split; intros s p cp s1 Hpre; split.
  - intros Hbad. split.
    + rewrite (do_put_from_memop _ _ _ _ _ _ Hpre).
      apply bind_exit. by apply put_memop_invalid.
    + pose proof (keeps_put_before_memop same_pmaps tf cmd
                    keeps_same_pmaps_proc_alloc s) as Hk.
      by rewrite Hpre in Hk.
  - intros. by apply put_memop_valid.
  - intros Hbad. split.
    + rewrite (do_get_from_memop _ _ _ _ _ _ Hpre).
      apply bind_exit. by apply get_memop_invalid.
    + pose proof (keeps_get_before_memop same_pmaps tf cmd s) as Hk.
      by rewrite Hpre in Hk.
  - intros. by apply get_memop_valid.
Qed.

(** [C4] as amended.  A PUT call whose MEMOP bits are none of NONE, COPY
    and ZERO, and which gets as far as the memory operation, reflects
    T_GPFLT to the parent.  However such a call ends, it performs no
    page-map operation: the page maps of all processes are as they were
    and no operation is logged. *)
Theorem put_memop_pattern_rejected tf cmd :
  let m := Z.land cmd SYS_MEMOP in
  m ≠ 0 → m ≠ SYS_COPY → m ≠ SYS_ZERO →
  (∀ s p cp s1, put_before_memop tf cmd s = Ok (p, cp) s1 →
     do_put tf cmd s = Exit (EProcRet (set_trap tf T_GPFLT 0) 0) s1)
  ∧ (∀ s, same_pmaps s (final (do_put tf cmd s))).
Proof.
  intros m H0 Hc Hz.
  assert (∀ s p cp s1, put_before_memop tf cmd s = Ok (p, cp) s1 →
     do_put tf cmd s = Exit (EProcRet (set_trap tf T_GPFLT 0) 0) s1) as Hrej.
  { intros s p cp s1 Hpre. rewrite (do_put_from_memop _ _ _ _ _ _ Hpre).
    apply bind_exit. unfold put_memop. fold m.
    by rewrite (proj2 (Z.eqb_neq _ _) H0), (proj2 (Z.eqb_neq _ _) Hc),
      (proj2 (Z.eqb_neq _ _) Hz). }
  split; [done|]. intros s.
  pose proof (keeps_put_before_memop same_pmaps tf cmd
                keeps_same_pmaps_proc_alloc s) as Hk.
  destruct (put_before_memop tf cmd s) as [[p cp] s1|e s1] eqn:Hpre.
  - by rewrite (Hrej _ _ _ _ Hpre).
  - by rewrite (do_put_before_memop _ _ _ _ _ Hpre).
Qed.

End Memop.


(** ** How the steps of a handler can end *)

Section Ends.
Context {cfg : Config}.
Context (P : exit → Prop).
Context (Hret : ∀ tf n, P (EProcRet tf n)).
Context (Hpanic : ∀ msg, P (EPanic msg)).
Context (Hdiv : ∀ n ktf, P (EDiverted n ktf)).

Lemma ends_ret {A} (a : A) : ends P (mret a : K A).
Proof. intros s e s' H. discriminate H. Qed.

Lemma ends_exit {A} e : P e → ends P (kexit e : K A).
Proof. intros He s e' s' [= <- _]. done. Qed.

Lemma ends_bind {A B} (c : K A) (k : A → K B) :
  ends P c → (∀ a, ends P (k a)) → ends P (c ≫= k).
Proof.
  intros Hc Hk s e s'. rewrite bind_eq.
  destruct (c s) as [a s1|e1 s1] eqn:Hcs.
  - apply Hk.
  - intros [= <- _]. by eapply Hc.
Qed.

Lemma ends_kget : ends P kget.
Proof. intros s e s' H. discriminate H. Qed.

Lemma ends_kmod f : ends P (kmod f).
Proof. intros s e s' H. discriminate H. Qed.

Lemma ends_assert b : ends P (assert b).
Proof. destruct b; [apply ends_ret|by apply ends_exit]. Qed.

Lemma ends_when b c : ends P c → ends P (when b c).
Proof. destruct b; [done|intros _; apply ends_ret]. Qed.

Lemma ends_if {A} (b : bool) (c1 c2 : K A) :
  ends P c1 → ends P c2 → ends P (if b then c1 else c2).
Proof. by destruct b. Qed.

Lemma ends_systrap {A} utf no e : ends P (systrap utf no e : K A).
Proof. by apply ends_exit. Qed.

Lemma ends_trap {A} ktf : ends P (trap ktf : K A).
Proof.
  intros s e s'. unfold trap, sysrecover.
  destruct (recover (cur s)) as [[|n]|]; [|by intros [= <- _]..].
  rewrite decide_True by done. by intros [= <- _].
Qed.

Lemma ends_memmove_user copyout kva uva size :
  ends P (memmove_user copyout kva uva size).
Proof.
  intros s e s'. unfold memmove_user. destruct copyout.
  - destruct (uwrite _ _ _) as [[m' n] [k|]]; [apply ends_trap|done].
  - destruct (uread _ _ _) as [bs [k|]]; [apply ends_trap|done].
Qed.

Lemma ends_usercopy utf copyout kva uva size :
  ends P (usercopy utf copyout kva uva size).
Proof.
  unfold usercopy.
  apply ends_bind; [|intros _].
  { unfold checkva. apply ends_if; [apply ends_systrap|apply ends_ret]. }
  apply ends_bind; [apply ends_kget|intros c].
  apply ends_bind; [apply ends_assert|intros _].
  apply ends_bind; [apply ends_kmod|intros _].
  apply ends_bind; [apply ends_memmove_user|intros _].
  apply ends_bind; [apply ends_kget|intros c'].
  apply ends_bind; [apply ends_assert|intros _].
  apply ends_kmod.
Qed.

Lemma ends_do_pmap_setperm q dva size perm msg :
  ends P (do_pmap_setperm q dva size perm msg).
Proof.
  unfold do_pmap_setperm. apply ends_bind; [apply ends_kget|intros s].
  apply ends_if; [|by apply ends_exit].
  apply ends_bind; [apply ends_kmod|intros _; apply ends_kmod].
Qed.

Lemma ends_get_regs tf cmd cp : ends P (get_regs tf cmd cp).
Proof.
  unfold get_regs. apply ends_when.
  apply ends_bind; [apply ends_usercopy|intros _].
  apply ends_memmove_user.
Qed.

Lemma ends_get_memop tf cmd p cp : ends P (get_memop tf cmd p cp).
Proof.
  unfold get_memop. apply ends_if; [apply ends_ret|].
  apply ends_if; [|apply ends_systrap].
  apply ends_bind; [apply ends_when, ends_systrap|intros _].
  apply ends_bind; [apply ends_when, ends_systrap|intros _].
  unfold do_pmap_remove, do_pmap_copy, do_pmap_merge.
  repeat (apply ends_if;
          [apply ends_bind; [apply ends_kmod|intros _; apply ends_kmod]|]).
  apply ends_ret.
Qed.

Lemma ends_get_perm tf cmd p : ends P (get_perm tf cmd p).
Proof.
  unfold get_perm. apply ends_when.
  apply ends_bind; [apply ends_when, ends_systrap|intros _].
  apply ends_do_pmap_setperm.
Qed.

Lemma ends_get_child tf :
  (∀ p cp, P (EProcWait p cp tf)) → ends P (get_child tf).
Proof.
  intros Hwait. unfold get_child.
  apply ends_bind; [by intros s e s' H|intros p].
  apply ends_bind; [apply ends_kget|intros s].
  apply ends_bind; [apply ends_assert|intros _].
  apply ends_bind; [|intros _; apply ends_ret].
  apply ends_if; [by apply ends_exit|apply ends_ret].
Qed.

Lemma ends_proc_alloc p cn : ends P (proc_alloc p cn).
Proof. intros s e s'. unfold proc_alloc. by destruct (nfree s). Qed.

Lemma ends_put_child tf :
  (∀ p cp, P (EProcWait p cp tf)) → ends P (put_child tf).
Proof.
  intros Hwait. unfold put_child.
  apply ends_bind; [by intros s e s' H|intros p].
  apply ends_bind; [apply ends_kget|intros s].
  apply ends_bind; [apply ends_assert|intros _].
  apply ends_bind; [|intros cp].
  { destruct (child (getproc s p) !! _) as [cp|]; [apply ends_ret|].
    apply ends_bind; [apply ends_proc_alloc|intros [cp|]];
      [apply ends_ret|by apply ends_exit]. }
  apply ends_bind; [apply ends_kget|intros s'].
  apply ends_bind; [|intros _; apply ends_ret].
  apply ends_if; [by apply ends_exit|apply ends_ret].
Qed.

Lemma ends_put_regs tf cmd cp : ends P (put_regs tf cmd cp).
Proof.
  unfold put_regs. apply ends_when.
  apply ends_bind; [apply ends_usercopy|intros _].
  apply ends_bind; [apply ends_memmove_user|intros _].
  unfold modfield, modproc.
  repeat (apply ends_bind; [apply ends_kmod|intros _]).
  apply ends_kmod.
Qed.

Lemma ends_put_memop tf cmd p cp : ends P (put_memop tf cmd p cp).
Proof.
  unfold put_memop. apply ends_if; [apply ends_ret|].
  apply ends_if; [|apply ends_systrap].
  apply ends_bind; [apply ends_when, ends_systrap|intros _].
  apply ends_bind; [apply ends_when, ends_systrap|intros _].
  unfold do_pmap_remove, do_pmap_copy.
  repeat (apply ends_if;
          [apply ends_bind; [apply ends_kmod|intros _; apply ends_kmod]|]).
  apply ends_ret.
Qed.

Lemma ends_put_perm tf cmd cp : ends P (put_perm tf cmd cp).
Proof.
  unfold put_perm. apply ends_when.
  apply ends_bind; [apply ends_when, ends_systrap|intros _].
  apply ends_do_pmap_setperm.
Qed.

End Ends.

Section Aborts.
Context {cfg : Config}.

Lemma ends_exit_of {A} P (c : K A) s e :
  ends P c → exit_of (c s) = Some e → P e.
Proof.
  intros Hc. destruct (c s) as [a s1|e1 s1] eqn:Hcs; [done|].
  intros [= <-]. by eapply Hc.
Qed.

(** GET cannot end by trap_return before its last step. *)
Lemma ends_get_before_snap tf cmd :
  ends (λ e, is_trap_return e = false) (get_before_snap tf cmd).
Proof.
  unfold get_before_snap.
  apply ends_bind; [by apply ends_get_child|intros pc].
  apply ends_bind; [by apply ends_get_regs|intros _].
  apply ends_bind; [by apply ends_get_memop|intros _].
  apply ends_bind; [by apply ends_get_perm|intros _].
  apply ends_ret.
Qed.

(** Past the resolution of the child, GET does not wait. *)
Lemma ends_get_body tf cmd p cp :
  ends (λ e, is_proc_wait e = false)
    (get_regs tf cmd cp ;; get_memop tf cmd p cp ;; get_perm tf cmd p ;;
     get_snap tf cmd ;; (trap_return tf : K unit)).
Proof.
  apply ends_bind; [by apply ends_get_regs|intros _].
  apply ends_bind; [by apply ends_get_memop|intros _].
  apply ends_bind; [by apply ends_get_perm|intros _].
  apply ends_bind; [apply ends_when; by apply ends_systrap|intros _].
  by apply ends_exit.
Qed.

End Aborts.

(** ** What GET leaves alone *)

Section Get.
Context {cfg : Config}.

Lemma get_frame_set_pdir p m s :
  get_frame p s (setproc p (set_pdir m (getproc s p)) s).
Proof.
  split; [done|]. intros q. rewrite getproc_setproc.
  destruct (decide (q = p)) as [->|Hq]; [done|].
  by rewrite set_pdir_id.
Qed.

Lemma get_frame_log p e s : get_frame p s (log e s).
Proof. split; [done|]. intros q. split; [|done]. symmetry. apply set_pdir_id. Qed.

Lemma keeps_get_frame_pmap p (f : kstate → pmap) op :
  keeps (get_frame p)
    (kmod (λ s, setproc p (set_pdir (f s) (getproc s p)) s) ;;
     kmod (log (EvPmap op))).
Proof.
  apply (keeps_bind (get_frame p)); [|intros _].
  - apply (keeps_kmod (get_frame p)). intros s. apply get_frame_set_pdir.
  - apply (keeps_kmod (get_frame p)). intros s. apply get_frame_log.
Qed.

Lemma keeps_get_memop tf cmd p cp : keeps (get_frame p) (get_memop tf cmd p cp).
Proof.
  unfold get_memop. set (R := get_frame p).
  apply (keeps_if R); [apply (keeps_ret R)|].
  apply (keeps_if R); [|apply (keeps_systrap R)].
  apply (keeps_bind R); [apply (keeps_when R), (keeps_systrap R)|intros _].
  apply (keeps_bind R); [apply (keeps_when R), (keeps_systrap R)|intros _].
  apply (keeps_if R).
  { apply (keeps_get_frame_pmap p (λ s, pmap_remove (pdir (getproc s p)) _ _)). }
  apply (keeps_if R).
  { apply (keeps_get_frame_pmap p
             (λ s, pmap_copy (pdir (getproc s cp)) _ (pdir (getproc s p)) _ _)). }
  apply (keeps_if R); [|apply (keeps_ret R)].
  apply (keeps_get_frame_pmap p
           (λ s, pmap_merge (rpdir (getproc s cp)) (pdir (getproc s cp)) _
                            (pdir (getproc s p)) _ _)).
Qed.

Lemma keeps_get_perm tf cmd p : keeps (get_frame p) (get_perm tf cmd p).
Proof.
  unfold get_perm. set (R := get_frame p).
  apply (keeps_when R).
  apply (keeps_bind R); [apply (keeps_when R), (keeps_systrap R)|intros _].
  unfold do_pmap_setperm.
  apply (keeps_bind R); [apply (keeps_kget R)|intros s].
  apply (keeps_if R); [|apply (keeps_exit R)].
  apply (keeps_get_frame_pmap p
           (λ s, pmap_setperm (pdir (getproc s p)) _ _ _)).
Qed.

(** How the resolution of the child of a GET ends: with the child
    named by EDX, or proc_null for an empty slot, and the state as it
    was. *)
Lemma get_child_cases tf s :
  let p := cpu_proc (cur s) in
  let cp := match child (getproc s p) !! Z.land (edx (regs tf)) 0xff with
            | Some cp => cp
            | None => proc_null
            end in
  (get_child tf s = Ok (p, cp) s ∧ state (getproc s cp) = PROC_STOP)
  ∨ (get_child tf s = Exit (EPanic "assertion failed") s
     ∧ ¬ (state (getproc s p) = PROC_RUN
          ∧ runcpu (getproc s p) = Some (cpu_id (cur s))))
  ∨ (get_child tf s = Exit (EProcWait p cp tf) s
     ∧ state (getproc s cp) ≠ PROC_STOP).
Proof.
  intros p cp. unfold get_child.
  rewrite bind_eq. simpl. rewrite bind_eq, kget_eq. fold p cp.
  destruct (decide (state (getproc s p) = PROC_RUN
                    ∧ runcpu (getproc s p) = Some (cpu_id (cur s))))
    as [Hrun|Hrun].
  2:{ right; left. by rewrite (bool_decide_eq_false_2 _ Hrun). }
  rewrite (bool_decide_eq_true_2 _ Hrun).
  rewrite bind_eq, assert_true, bind_eq.
  destruct (decide (state (getproc s cp) = PROC_STOP)) as [Hst|Hst].
  - left. rewrite bool_decide_eq_false_2 by (by intros H; apply H). done.
  - right; right. by rewrite bool_decide_eq_true_2.
Qed.

Lemma keeps_get_body tf cmd p cp :
  keeps (get_frame p)
    (get_regs tf cmd cp ;; get_memop tf cmd p cp ;; get_perm tf cmd p ;;
     get_snap tf cmd ;; (trap_return tf : K unit)).
Proof.
  set (R := get_frame p).
  apply (keeps_bind R); [apply (keeps_get_regs R)|intros _].
  apply (keeps_bind R); [apply keeps_get_memop|intros _].
  apply (keeps_bind R); [apply keeps_get_perm|intros _].
  apply (keeps_bind R); [apply (keeps_get_snap R)|intros _].
  apply (keeps_trap_return R).
Qed.

(** A GET changes nothing of the processes but the page map of the
    caller, and allocates nothing. *)
Lemma do_get_frame tf cmd s :
  get_frame (cpu_proc (cur s)) s (final (do_get tf cmd s)).
Proof.
  unfold do_get. rewrite bind_eq.
  destruct (get_child_cases tf s) as [[-> _]|[[-> _]|[-> _]]];
    try reflexivity.
  exact (keeps_get_body tf cmd _ _ s).
Qed.

Lemma do_get_from_snap tf cmd s p cp s1 :
  get_before_snap tf cmd s = Ok (p, cp) s1 →
  do_get tf cmd s = (get_snap tf cmd ;; trap_return tf) s1.
Proof.
  unfold get_before_snap, do_get. rewrite !bind_eq.
  destruct (get_child tf s) as [[p' cp'] s0|e s0]; [|done]. simpl.
  rewrite !bind_eq.
  destruct (get_regs tf cmd cp' s0) as [[] s2|e s2]; [|done].
  rewrite !bind_eq.
  destruct (get_memop tf cmd p' cp' s2) as [[] s3|e s3]; [|done].
  rewrite !bind_eq.
  destruct (get_perm tf cmd p' s3) as [[] s4|e s4]; [|done].
  intros [= -> -> ->]. reflexivity.
Qed.

Lemma do_get_before_snap tf cmd s e s1 :
  get_before_snap tf cmd s = Exit e s1 → do_get tf cmd s = Exit e s1.
Proof.
  unfold get_before_snap, do_get. rewrite !bind_eq.
  destruct (get_child tf s) as [[p' cp'] s0|e0 s0];
    [|by intros [= -> ->]]. simpl.
  rewrite !bind_eq.
  destruct (get_regs tf cmd cp' s0) as [[] s2|e2 s2];
    [|by intros [= -> ->]].
  rewrite !bind_eq.
  destruct (get_memop tf cmd p' cp' s2) as [[] s3|e3 s3];
    [|by intros [= -> ->]].
  rewrite !bind_eq.
  destruct (get_perm tf cmd p' s3) as [[] s4|e4 s4];
    [done|by intros [= -> ->]].
Qed.

(** What [get_frame] says of one process. *)
Lemma get_frame_proc p s s' q :
  get_frame p s s' →
  state (getproc s' q) = state (getproc s q)
  ∧ sv (getproc s' q) = sv (getproc s q)
  ∧ rpdir (getproc s' q) = rpdir (getproc s q)
  ∧ child (getproc s' q) = child (getproc s q)
  ∧ (q ≠ p → getproc s' q = getproc s q).
Proof.
  intros [_ H]. destruct (H q) as [Ha Hb].
  repeat split; try (by rewrite Ha); done.
Qed.

(** [C5] as amended.  A GET call with the SNAP bit set that gets as far
    as the test of SNAP (after the register transfer, the memory
    operation and the permission step) reflects T_GPFLT to the parent.
    No GET call with SNAP completes with a return to the caller.
    However the call ends, every process other than the caller is as it
    was, and so is the child: state, save-area, reference page map and
    child table of every process are unchanged. *)
Theorem get_snap_rejected tf cmd :
  has cmd SYS_SNAP = true →
  (∀ s p cp s1, get_before_snap tf cmd s = Ok (p, cp) s1 →
     do_get tf cmd s = Exit (EProcRet (set_trap tf T_GPFLT 0) 0) s1)
  ∧ (∀ s tf', exit_of (do_get tf cmd s) ≠ Some (ETrapReturn tf'))
  ∧ (∀ s q, let s' := final (do_get tf cmd s) in
       state (getproc s' q) = state (getproc s q)
       ∧ sv (getproc s' q) = sv (getproc s q)
       ∧ rpdir (getproc s' q) = rpdir (getproc s q)
       ∧ child (getproc s' q) = child (getproc s q)
       ∧ (q ≠ cpu_proc (cur s) → getproc s' q = getproc s q)).
Proof.
  intros Hsnap.
  assert (∀ s p cp s1, get_before_snap tf cmd s = Ok (p, cp) s1 →
     do_get tf cmd s = Exit (EProcRet (set_trap tf T_GPFLT 0) 0) s1) as Hrej.
  { intros s p cp s1 Hpre. rewrite (do_get_from_snap _ _ _ _ _ _ Hpre).
    unfold get_snap. by rewrite Hsnap. }
  split; [done|]. split.
  - intros s tf'.
    destruct (get_before_snap tf cmd s) as [[p cp] s1|e s1] eqn:Hpre.
    + by rewrite (Hrej _ _ _ _ Hpre).
    + rewrite (do_get_before_snap _ _ _ _ _ Hpre). simpl.
      intros [= ->]. by apply ends_get_before_snap in Hpre.
  - intros s q. apply (get_frame_proc (cpu_proc (cur s))), do_get_frame.
Qed.

(** [C6] A GET call on an empty child slot allocates nothing.  The
    child it works with is proc_null: with the caller running on this
    CPU (the handler's assertion) and proc_null in state STOP the
    resolution returns proc_null, and the call is the rest of the
    handler run on proc_null.  The child table of the caller and the
    number of free pages are unchanged, and so is every process other
    than the caller.  With proc_null in state STOP, the call does not
    wait, and proc_null is in state STOP afterwards. *)
Theorem get_missing_child tf cmd s :
  let p := cpu_proc (cur s) in
  let s' := final (do_get tf cmd s) in
  child (getproc s p) !! Z.land (edx (regs tf)) 0xff = None →
  (∀ pc s1, get_child tf s = Ok pc s1 → pc = (p, proc_null) ∧ s1 = s)
  ∧ (state (getproc s p) = PROC_RUN
     ∧ runcpu (getproc s p) = Some (cpu_id (cur s)) →
     state (getproc s proc_null) = PROC_STOP →
     get_child tf s = Ok (p, proc_null) s)
  ∧ do_get tf cmd s
    = match get_child tf s with
      | Ok _ _ =>
          (get_regs tf cmd proc_null ;; get_memop tf cmd p proc_null ;;
           get_perm tf cmd p ;; get_snap tf cmd ;; trap_return tf) s
      | Exit e s1 => Exit e s1
      end
  ∧ child (getproc s' p) = child (getproc s p)
  ∧ nfree s' = nfree s
  ∧ (∀ q, q ≠ p → getproc s' q = getproc s q)
  ∧ (state (getproc s proc_null) = PROC_STOP →
     (∀ q tf', exit_of (do_get tf cmd s) ≠ Some (EProcWait p q tf'))
     ∧ state (getproc s' proc_null) = PROC_STOP).
Proof.
  intros p s' Hslot.
  pose proof (get_child_cases tf s) as Hch. simpl in Hch. fold p in Hch.
  rewrite Hslot in Hch.
  pose proof (do_get_frame tf cmd s) as Hfr. fold p s' in Hfr.
  split; [|split; [|split; [|split; [|split; [|split]]]]].
  - intros pc s1 Hok. destruct Hch as [[H _]|[[H _]|[H _]]]; rewrite H in Hok;
      [|done..]. by injection Hok as <- <-.
  - intros Hrun Hstop. by destruct Hch as [[H _]|[[_ H]|[_ H]]].
  - unfold do_get. rewrite bind_eq.
    by destruct Hch as [[-> _]|[[-> _]|[-> _]]].
  - by apply (get_frame_proc p s s' p).
  - apply Hfr.
  - intros q. by apply (get_frame_proc p s s' q).
  - intros Hstop. split.
    + intros q tf'. unfold do_get. rewrite bind_eq.
      destruct Hch as [[-> _]|[[-> _]|[_ Hne]]]; [|done..].
      intros Hw.
      by apply (ends_exit_of _ _ _ _ (ends_get_body tf cmd p proc_null)) in Hw.
    + pose proof (get_frame_proc p s s' proc_null Hfr) as (Hst & _).
      by rewrite Hst.
Qed.

End Get.

(** ** Fields of a save-area *)

Section Fields.

Lemma land_bound n a b : 0 ≤ n → 0 ≤ b < 2 ^ n → 0 ≤ Z.land a b < 2 ^ n.
Proof.
  intros Hn Hb.
  replace (Z.land a b) with (Z.land a b mod 2 ^ n);
    [apply Z.mod_pos_bound; lia|].
  rewrite <- Z.land_ones, <- Z.land_assoc, Z.land_ones by done.
  by rewrite (Z.mod_small b).
Qed.

Lemma lor_bound n a b :
  0 ≤ n → 0 ≤ a < 2 ^ n → 0 ≤ b < 2 ^ n → 0 ≤ Z.lor a b < 2 ^ n.
Proof.
  intros Hn Ha Hb.
  replace (Z.lor a b) with (Z.lor a b mod 2 ^ n);
    [apply Z.mod_pos_bound; lia|].
  rewrite <- Z.land_ones, Z.land_lor_distr_l, !Z.land_ones by done.
  by rewrite (Z.mod_small a), (Z.mod_small b).
Qed.

Lemma length_store off n v buf : length (store off n v buf) = length buf.
Proof. apply length_inserts. Qed.

Lemma length_field n v : length (Z_to_little_endian (Z.of_nat n) 8 v) = n.
Proof. apply Nat2Z.inj, length_Z_to_little_endian; lia. Qed.

(** A store changes the bytes of its field only. *)
Lemma lookup_store_other off n v buf (i : nat) :
  0 ≤ off → ¬ (off ≤ Z.of_nat i < off + Z.of_nat n) →
  store off n v buf !! i = buf !! i.
Proof.
  intros Hoff Hi. unfold store.
  destruct (decide (i < Z.to_nat off)%nat).
  - by apply list_lookup_inserts_lt.
  - apply list_lookup_inserts_ge. rewrite length_field. lia.
Qed.

(** A load reads the bytes of its field only. *)
Lemma load_ext off n buf buf' :
  (∀ i : nat, off ≤ Z.of_nat i < off + Z.of_nat n → buf !! i = buf' !! i) →
  0 ≤ off → load off n buf = load off n buf'.
Proof.
  intros H Hoff. unfold load. f_equal. apply list_eq. intros j.
  destruct (decide (j < n)%nat).
  - rewrite !lookup_take_lt, !lookup_drop by done. apply H. lia.
  - by rewrite !lookup_take_ge by lia.
Qed.

Lemma load_store_other off n v off' n' buf :
  0 ≤ off → 0 ≤ off' →
  off' + Z.of_nat n' ≤ off ∨ off + Z.of_nat n ≤ off' →
  load off' n' (store off n v buf) = load off' n' buf.
Proof.
  intros Hoff Hoff' Hdis. apply load_ext; [|done].
  intros i Hi. apply lookup_store_other; [done|lia].
Qed.

Lemma load_store_same off n v buf :
  0 ≤ off → off + Z.of_nat n ≤ Z.of_nat (length buf) →
  load off n (store off n v buf) = v mod 2 ^ (Z.of_nat n * 8).
Proof.
  intros Hoff Hlen. unfold load, store.
  rewrite <- (little_endian_to_Z_to_little_endian (Z.of_nat n) 8 v) by lia.
  f_equal. apply list_eq. intros j.
  destruct (decide (j < n)%nat).
  - rewrite lookup_take_lt, lookup_drop by done.
    rewrite list_lookup_inserts by (rewrite ?length_field; lia).
    f_equal. lia.
  - rewrite lookup_take_ge by lia. symmetry. apply lookup_ge_None_2.
    rewrite length_field. lia.
Qed.



Lemma overwrite_twice data buf :
  overwrite data (overwrite data buf) = overwrite data buf.
Proof.
  unfold overwrite. f_equal. by rewrite drop_app_length.
Qed.

Lemma length_overwrite data buf :
  (length data ≤ length (overwrite data buf))%nat.
Proof. unfold overwrite. rewrite length_app. lia. Qed.

End Fields.

(** ** Successful copies, step by step *)

Section Copies.
Context {cfg : Config}.

Lemma uread_ok_length m uva n X : uread m uva n = (X, None) → length X = n.
Proof.
  revert uva X. induction n as [|n IH]; intros uva X; simpl.
  - by intros [= <-].
  - destruct (m uva) as [[b w]|]; [|done].
    destruct (uread m (uva + 1) n) as [bs f] eqn:Hr.
    intros [= <- ->]. simpl. f_equal. by eapply IH.
Qed.

Lemma uwrite_ok_length m uva bs m' n :
  uwrite m uva bs = (m', n, None) → n = length bs.
Proof.
  revert m uva m' n. induction bs as [|b bs IH]; intros m uva m' n; simpl.
  - by intros [= _ <-].
  - destruct (m uva) as [[b' [|]]|]; [|done..].
    destruct (uwrite _ (uva + 1) bs) as [[m1 n1] f] eqn:Hw.
    intros [= _ <- ->]. f_equal. by eapply IH.
Qed.

Lemma trap_not_ok {A} ktf s (a : A) s1 : trap ktf s ≠ Ok a s1.
Proof.
  unfold trap, sysrecover. destruct (recover (cur s)) as [[|n]|]; [|done..].
  by rewrite decide_True.
Qed.

Lemma memmove_in_ok kva uva size s s1 :
  memmove_user false kva uva size s = Ok tt s1 →
  ∃ X, uread (umem s) uva (Z.to_nat size) = (X, None)
       ∧ s1 = log (EvRead uva X (guarded s)) (kwrite kva X s).
Proof.
  unfold memmove_user. destruct (uread _ _ _) as [bs [e|]].
  - intros H. by apply trap_not_ok in H.
  - intros [= <-]. by exists bs.
Qed.

Lemma memmove_out_ok kva uva size s s1 :
  memmove_user true kva uva size s = Ok tt s1 →
  let Y := take (Z.to_nat size) (kread kva s) in
  ∃ m', uwrite (umem s) uva Y = (m', length Y, None)
        ∧ s1 = log (EvWrite uva Y (guarded s)) (set_umem m' s).
Proof.
  intros H Y. unfold memmove_user in H. fold Y in H.
  destruct (uwrite (umem s) uva Y) as [[m' n] [e|]] eqn:Hw.
  - by apply trap_not_ok in H.
  - injection H as <-. pose proof (uwrite_ok_length _ _ _ _ _ Hw) as ->.
    exists m'. by rewrite firstn_all.
Qed.

Lemma usercopy_ok utf copyout kva uva size s s1 :
  usercopy utf copyout kva uva size s = Ok tt s1 →
  recover (cur s) = None
  ∧ ∃ s', memmove_user copyout kva uva size
            (set_recover (Some FN_sysrecover) s) = Ok tt s'
          ∧ s1 = set_recover None s'.
Proof.
  unfold usercopy. rewrite bind_eq.
  destruct (checkva_cases utf uva size s) as [[-> _]|[-> _]]; [|done].
  rewrite bind_eq, kget_eq.
  destruct (recover (cur s)) as [fn|] eqn:Hrec.
  { rewrite bool_decide_eq_false_2 by done.
    by rewrite bind_eq, assert_false. }
  rewrite bool_decide_eq_true_2 by done.
  rewrite bind_eq, assert_true, bind_eq, kmod_eq, bind_eq.
  destruct (memmove_user_cases copyout kva uva size
              (set_recover (Some FN_sysrecover) s))
    as (s' & ev & [Hm | [e Hm]] & Hlog & Hcur & _ & _); rewrite Hm.
  - rewrite bind_eq, kget_eq, Hcur. simpl. intros [= <-]. eauto.
  - by rewrite trap_sysrecover by (by rewrite Hcur).
Qed.

End Copies.

(** ** Frames of the page-map steps *)

Global Instance same_tree_preorder : PreOrder same_tree.
Proof.
  split.
  - by intros s.
  - intros s1 s2 s3 [H1 H1'] [H2 H2']. split; [congruence|].
    intros q. by rewrite H2', H1'.
Qed.

Global Instance same_tree_framesv : FrameSv same_tree.
Proof.
  split; [split; [apply _|..]|]; try done.
  intros cp b s. split; [done|]. intros q. rewrite getproc_setproc.
  by destruct (decide (q = cp)) as [->|].
Qed.

Global Instance same_tree_framepm : FramePm same_tree.
Proof.
  split; [apply _|..]; try done;
    intros q0 m s; (split; [done|]); intros q; rewrite getproc_setproc;
    by destruct (decide (q = q0)) as [->|].
Qed.

Global Instance same_tree_framest : FrameSt same_tree.
Proof.
  split; [apply _|].
  intros q0 m s; (split; [done|]); intros q; rewrite getproc_setproc;
    by destruct (decide (q = q0)) as [->|].
Qed.

Global Instance same_regs_preorder : PreOrder same_regs.
Proof.
  split.
  - by intros s.
  - intros s1 s2 s3 [H1 H1'] [H2 H2']. split; [congruence|].
    intros q. destruct (H1' q) as [Ha Hb], (H2' q) as [Hc Hd].
    split; congruence.
Qed.

Global Instance same_regs_frame : Frame same_regs.
Proof. split; [apply _|..]; done. Qed.

Global Instance same_regs_framepm : FramePm same_regs.
Proof.
  split; [apply _|..]; try done;
    intros q0 m s; (split; [done|]); intros q; rewrite getproc_setproc;
    by destruct (decide (q = q0)) as [->|].
Qed.

Global Instance same_regs_framest : FrameSt same_regs.
Proof.
  split; [apply _|].
  intros q0 m s; (split; [done|]); intros q; rewrite getproc_setproc;
    by destruct (decide (q = q0)) as [->|].
Qed.

Global Instance log_ext_framepm : FramePm log_ext.
Proof.
  split; [apply _|..]; intros; try (by exists []). by eexists [_].
Qed.

Global Instance log_ext_framest : FrameSt log_ext.
Proof. split; [apply _|]. intros. by exists []. Qed.

Section KeepsFramePm.
Context {cfg : Config}.
Context (R : relation kstate) `{!FramePm R}.

Lemma keeps_log_any e : keeps R (kmod (log e)).
Proof. apply (keeps_kmod R). intros s. apply frame_log_any. Qed.

Lemma keeps_do_pmap_remove q dva size : keeps R (do_pmap_remove q dva size).
Proof.
  unfold do_pmap_remove.
  apply (keeps_bind R); [|intros _; apply keeps_log_any].
  apply (keeps_kmod R). intros s. apply frame_pdir.
Qed.

Lemma keeps_do_pmap_copy src sva dst dva size :
  keeps R (do_pmap_copy src sva dst dva size).
Proof.
  unfold do_pmap_copy.
  apply (keeps_bind R); [|intros _; apply keeps_log_any].
  apply (keeps_kmod R). intros s. apply frame_pdir.
Qed.

Lemma keeps_do_pmap_merge cp sva p dva size :
  keeps R (do_pmap_merge cp sva p dva size).
Proof.
  unfold do_pmap_merge.
  apply (keeps_bind R); [|intros _; apply keeps_log_any].
  apply (keeps_kmod R). intros s. apply frame_pdir.
Qed.

Lemma keeps_do_pmap_setperm q dva size perm msg :
  keeps R (do_pmap_setperm q dva size perm msg).
Proof.
  unfold do_pmap_setperm.
  apply (keeps_bind R); [apply (keeps_kget R)|intros s].
  apply (keeps_if R); [|apply (keeps_exit R)].
  apply (keeps_bind R); [|intros _; apply keeps_log_any].
  apply (keeps_kmod R). intros s'. apply frame_pdir.
Qed.

Lemma keeps_put_memop tf cmd p cp : keeps R (put_memop tf cmd p cp).
Proof.
  unfold put_memop.
  apply (keeps_if R); [apply (keeps_ret R)|].
  apply (keeps_if R); [|apply (keeps_systrap R)].
  apply (keeps_bind R); [apply (keeps_when R), (keeps_systrap R)|intros _].
  apply (keeps_bind R); [apply (keeps_when R), (keeps_systrap R)|intros _].
  apply (keeps_if R); [apply keeps_do_pmap_remove|].
  apply (keeps_if R); [apply keeps_do_pmap_copy|apply (keeps_ret R)].
Qed.

Lemma keeps_put_perm tf cmd cp : keeps R (put_perm tf cmd cp).
Proof.
  unfold put_perm. apply (keeps_when R).
  apply (keeps_bind R); [apply (keeps_when R), (keeps_systrap R)|intros _].
  apply keeps_do_pmap_setperm.
Qed.

Lemma keeps_put_snap cmd cp : keeps R (put_snap cmd cp).
Proof.
  unfold put_snap. apply (keeps_when R).
  apply (keeps_bind R); [|intros _; apply keeps_log_any].
  apply (keeps_kmod R). intros s. apply frame_rpdir.
Qed.

(** The steps of GET after the register transfer. *)
Lemma keeps_get_tail tf cmd p cp :
  keeps R (get_memop tf cmd p cp ;; get_perm tf cmd p ;; get_snap tf cmd ;;
           (trap_return tf : K unit)).
Proof.
  apply (keeps_bind R); [|intros _].
  { unfold get_memop.
    apply (keeps_if R); [apply (keeps_ret R)|].
    apply (keeps_if R); [|apply (keeps_systrap R)].
    apply (keeps_bind R); [apply (keeps_when R), (keeps_systrap R)|intros _].
    apply (keeps_bind R); [apply (keeps_when R), (keeps_systrap R)|intros _].
    apply (keeps_if R); [apply keeps_do_pmap_remove|].
    apply (keeps_if R); [apply keeps_do_pmap_copy|].
    apply (keeps_if R); [apply keeps_do_pmap_merge|apply (keeps_ret R)]. }
  apply (keeps_bind R); [|intros _].
  { unfold get_perm. apply (keeps_when R).
    apply (keeps_bind R); [apply (keeps_when R), (keeps_systrap R)|intros _].
    apply keeps_do_pmap_setperm. }
  apply (keeps_bind R); [apply (keeps_get_snap R)|intros _].
  apply (keeps_trap_return R).
Qed.

End KeepsFramePm.

Section KeepsFrameSt.
Context {cfg : Config}.
Context (R : relation kstate) `{!FrameSt R}.

Lemma keeps_proc_ready cp : keeps R (proc_ready cp).
Proof. apply (keeps_kmod R). intros s. apply frame_state. Qed.

(** The steps of PUT after the register transfer. *)
Lemma keeps_put_tail tf cmd p cp :
  keeps R (put_memop tf cmd p cp ;; put_perm tf cmd cp ;; put_snap cmd cp ;;
           when (has cmd SYS_START) (proc_ready cp) ;;
           (trap_return tf : K unit)).
Proof.
  apply (keeps_bind R); [apply (keeps_put_memop R)|intros _].
  apply (keeps_bind R); [apply (keeps_put_perm R)|intros _].
  apply (keeps_bind R); [apply (keeps_put_snap R)|intros _].
  apply (keeps_bind R); [apply (keeps_when R), keeps_proc_ready|intros _].
  apply (keeps_trap_return R).
Qed.

End KeepsFrameSt.

(** ** A PUT that completes, step by step *)

Section PutOk.
Context {cfg : Config}.

(** The child that PUT resolves is in the slot named by EDX afterwards,
    and it is stopped; user memory, the log and the CPU are as they
    were. *)
Lemma put_child_ok tf s p cp s0 :
  put_child tf s = Ok (p, cp) s0 →
  p = cpu_proc (cur s)
  ∧ child (getproc s0 p) !! Z.land (edx (regs tf)) 0xff = Some cp
  ∧ state (getproc s0 cp) = PROC_STOP
  ∧ cur s0 = cur s ∧ umem s0 = umem s ∧ klog s0 = klog s.
Proof.
  unfold put_child. rewrite bind_eq. simpl. rewrite bind_eq, kget_eq.
  set (p0 := cpu_proc (cur s)). set (cn := Z.land (edx (regs tf)) 255).
  destruct (bool_decide (state (getproc s p0) = PROC_RUN ∧ _)); [|done].
  rewrite bind_eq, assert_true, bind_eq.
  assert (∀ cp1 s1,
    child (getproc s1 p0) !! cn = Some cp1 →
    cur s1 = cur s → umem s1 = umem s → klog s1 = klog s →
    (kget ≫= λ s2 : kstate,
       (if bool_decide (state (getproc s2 cp1) ≠ PROC_STOP)
        then proc_wait p0 cp1 tf else mret ()) ≫= λ _ : (), mret (p0, cp1)) s1
    = Ok (p, cp) s0 →
    p = p0 ∧ child (getproc s0 p) !! cn = Some cp
    ∧ state (getproc s0 cp) = PROC_STOP
    ∧ cur s0 = cur s ∧ umem s0 = umem s ∧ klog s0 = klog s) as Hrest.
  { intros cp1 s1 Hch Hcur Hmem Hlog. rewrite bind_eq, kget_eq, bind_eq.
    destruct (decide (state (getproc s1 cp1) = PROC_STOP)) as [Hst|Hst].
    - rewrite bool_decide_eq_false_2 by (by intros H; apply H).
      by intros [= <- <- <-].
    - by rewrite bool_decide_eq_true_2. }
  destruct (child (getproc s p0) !! cn) as [cp1|] eqn:Hslot.
  - by apply Hrest.
  - rewrite bind_eq.
    destruct (proc_alloc_cases p0 cn s)
      as [[_ ->]|(n & cp1 & c & -> & _ & Hne & _)]; [done|].
    apply Hrest; try done.
    rewrite getproc_setproc, decide_True by done. simpl.
    apply lookup_insert_eq.
Qed.

Lemma do_put_ok tf cmd s tf' s' :
  do_put tf cmd s = Exit (ETrapReturn tf') s' →
  ∃ p cp s0 s1,
    put_child tf s = Ok (p, cp) s0
    ∧ put_regs tf cmd cp s0 = Ok tt s1
    ∧ (put_memop tf cmd p cp ;; put_perm tf cmd cp ;; put_snap cmd cp ;;
       when (has cmd SYS_START) (proc_ready cp) ;;
       (trap_return tf : K unit)) s1 = Exit (ETrapReturn tf') s'.
Proof.
  unfold do_put. rewrite bind_eq.
  destruct (put_child tf s) as [[p cp] s0|e s0] eqn:Hc.
  - simpl. rewrite bind_eq.
    destruct (put_regs tf cmd cp s0) as [[] s1|e s1] eqn:Hr.
    + intros H. by exists p, cp, s0, s1.
    + intros [= -> ->].
      by apply (ends_put_regs (λ e, is_trap_return e = false)) in Hr.
  - intros [= -> ->].
    by apply (ends_put_child (λ e, is_trap_return e = false)) in Hc.
Qed.

(** What the register step of PUT leaves in the child's save-area. *)
Lemma put_regs_ok tf cmd cp s s1 :
  has cmd SYS_REGS = true →
  put_regs tf cmd cp s = Ok tt s1 →
  ∃ X, uread (umem s) (ebx (regs tf)) (Z.to_nat (regs_len cmd)) = (X, None)
       ∧ sv (getproc s1 cp) = forced (overwrite X (sv (getproc s cp)))
       ∧ klog s1 = EvRead (ebx (regs tf)) X false
                   :: EvRead (ebx (regs tf)) X true :: klog s
       ∧ umem s1 = umem s.
Proof.
  intros Hregs. unfold put_regs. rewrite Hregs. simpl. rewrite bind_eq.
  destruct (usercopy _ _ _ _ _ s) as [[] s2|e s2] eqn:Hu; [|done].
  apply usercopy_ok in Hu as (Hrec & s3 & Hm & ->).
  apply memmove_in_ok in Hm as (X & HX & ->).
  rewrite bind_eq.
  destruct (memmove_user _ _ _ _ _) as [[] s4|e s4] eqn:Hm2; [|done].
  apply memmove_in_ok in Hm2 as (X' & HX' & ->).
  simpl in HX, HX'. rewrite HX in HX'. injection HX' as <-.
  intros [= <-]. exists X. split; [done|].
  split; [|split; [reflexivity|reflexivity]].
  simpl.
  repeat rewrite ?getproc_log, ?getproc_set_recover, ?getproc_setproc_eq,
    ?sv_set_sv.
  by rewrite overwrite_twice.
Qed.

End PutOk.

(** ** Snapshot *)

Section Snap.
Context {cfg : Config}.

Lemma pmap_copy_in_range spd sva dpd dva size va :
  dva ≤ va < dva + size →
  pmap_copy spd sva dpd dva size va = spd (va - dva + sva).
Proof.
  intros H. unfold pmap_copy, in_range.
  by rewrite (proj2 (Z.leb_le _ _)), (proj2 (Z.ltb_lt _ _)) by lia.
Qed.

(** [C8] After a PUT with the SNAP bit that completes, the reference
    page map of the child (the process in the slot named by EDX) agrees
    with its page map at every address of the user address range.  The
    snapshot is taken from the page map to the reference page map: the
    page map of the child is the one that the steps of the call before
    the snapshot have left, at every address, and the reference page
    map is that map over the user address range and what it was
    outside it. *)
Theorem put_snap_baseline (Hok : config_ok cfg) tf cmd s tf' s' :
  has cmd SYS_SNAP = true →
  do_put tf cmd s = Exit (ETrapReturn tf') s' →
  ∃ cp s0,
    child (getproc s' (cpu_proc (cur s))) !! Z.land (edx (regs tf)) 0xff
    = Some cp
    ∧ put_before_snap tf cmd s = Ok (cpu_proc (cur s), cp) s0
    ∧ (∀ va, VM_USERLO ≤ va < VM_USERHI →
             rpdir (getproc s' cp) va = pdir (getproc s' cp) va)
    ∧ (∀ va, pdir (getproc s' cp) va = pdir (getproc s0 cp) va)
    ∧ (∀ va, ¬ VM_USERLO ≤ va < VM_USERHI →
             rpdir (getproc s' cp) va = rpdir (getproc s0 cp) va).
Proof.
  intros Hsnap Hput.
  apply do_put_ok in Hput as (p & cp & s0 & s1 & Hc & Hr & Htail).
  pose proof Hc as Hc'.
  apply put_child_ok in Hc' as (-> & Hslot & _).
  pose proof (keeps_put_regs same_tree tf cmd cp s0) as [_ Ht1].
  rewrite Hr in Ht1. simpl in Ht1.
  pose proof (keeps_put_tail same_tree tf cmd (cpu_proc (cur s)) cp s1)
    as [_ Ht2].
  rewrite Htail in Ht2. simpl in Ht2.
  revert Htail. rewrite bind_eq.
  destruct (put_memop _ _ _ _ s1) as [[] s2|e s2] eqn:Hm.
  2:{ intros [= -> ->].
      by apply (ends_put_memop (λ e, is_trap_return e = false)) in Hm. }
  rewrite bind_eq.
  destruct (put_perm _ _ _ s2) as [[] s3|e s3] eqn:Hp.
  2:{ intros [= -> ->].
      by apply (ends_put_perm (λ e, is_trap_return e = false)) in Hp. }
  intros Htail. exists cp, s3.
  split; [by rewrite Ht2, Ht1|].
  split.
  { unfold put_before_snap. rewrite bind_eq, Hc. cbv beta iota.
    change ((cpu_proc (cur s), cp).1) with (cpu_proc (cur s)).
    change ((cpu_proc (cur s), cp).2) with cp.
    by rewrite bind_eq, Hr, bind_eq, Hm, bind_eq, Hp. }
  revert Htail. unfold put_snap. rewrite Hsnap. simpl.
  set (c := getproc s3 cp).
  assert (∀ va, VM_USERLO ≤ va < VM_USERHI →
    pmap_copy (pdir c) VM_USERLO (rpdir c) VM_USERLO
      (wrap32 (VM_USERHI - VM_USERLO)) va = pdir c va) as Hcopy.
  { intros va Hva. destruct Hok. rewrite pmap_copy_in_range.
    - f_equal. lia.
    - unfold wrap32. rewrite Z.mod_small by lia. lia. }
  assert (∀ va, ¬ VM_USERLO ≤ va < VM_USERHI →
    pmap_copy (pdir c) VM_USERLO (rpdir c) VM_USERLO
      (wrap32 (VM_USERHI - VM_USERLO)) va = rpdir c va) as Hout.
  { intros va Hva. destruct Hok. unfold pmap_copy, in_range, wrap32.
    rewrite Z.mod_small by lia.
    destruct (VM_USERLO <=? va) eqn:H1; [|done].
    destruct (va <? VM_USERLO + (VM_USERHI - VM_USERLO)) eqn:H2; [|done].
    apply Z.leb_le in H1. apply Z.ltb_lt in H2. lia. }
  destruct (has cmd SYS_START); simpl; intros [= _ <-];
    (split; [|split]); intros va; try intros Hva;
    repeat rewrite ?getproc_log, ?getproc_setproc_eq; simpl;
    auto.
Qed.

End Snap.

(** ** The register round trip *)

Section Regs.
Context {cfg : Config}.

(** The rewrite assigns its five fields and nothing else. *)
Lemma forced_spec (Hok : config_ok cfg) b :
  procstate_fx ≤ Z.of_nat (length b) →
  (∀ i : nat, ¬ in_forced_field (Z.of_nat i) → forced b !! i = b !! i)
  ∧ load off_ds 2 (forced b) = Z.lor CPU_GDT_UDATA 3
  ∧ load off_es 2 (forced b) = Z.lor CPU_GDT_UDATA 3
  ∧ load off_cs 2 (forced b) = Z.lor CPU_GDT_UCODE 3
  ∧ load off_ss 2 (forced b) = Z.lor CPU_GDT_UDATA 3
  ∧ load off_eflags 4 (forced b)
    = Z.lor (Z.land (load off_eflags 4 b) FL_USER) FL_IF.
Proof.
  intros Hlen. pose proof Hok as [].
  assert (0 ≤ Z.lor CPU_GDT_UDATA 3 < 2 ^ 16) as Hud
    by (apply lor_bound; lia).
  assert (0 ≤ Z.lor CPU_GDT_UCODE 3 < 2 ^ 16) as Huc
    by (apply lor_bound; lia).
  unfold forced.
  set (b1 := store off_ds 2 _ b).
  set (b2 := store off_es 2 _ b1).
  set (b3 := store off_cs 2 _ b2).
  set (b4 := store off_ss 2 _ b3).
  set (b5 := store off_eflags 4 _ b4).
  assert (length b1 = length b) as L1 by apply length_store.
  assert (length b2 = length b) as L2 by (unfold b2; by rewrite length_store).
  assert (length b3 = length b) as L3 by (unfold b3; by rewrite length_store).
  assert (length b4 = length b) as L4 by (unfold b4; by rewrite length_store).
  assert (length b5 = length b) as L5 by (unfold b5; by rewrite length_store).
  split; [|split; [|split; [|split; [|split]]]].
  - intros i Hi. unfold in_forced_field in Hi.
    rewrite lookup_store_other by lia. unfold b5.
    rewrite lookup_store_other by lia. unfold b4.
    rewrite lookup_store_other by lia. unfold b3.
    rewrite lookup_store_other by lia. unfold b2.
    rewrite lookup_store_other by lia. unfold b1.
    by rewrite lookup_store_other by lia.
  - rewrite load_store_other by lia. unfold b5.
    rewrite load_store_other by lia. unfold b4.
    rewrite load_store_other by lia. unfold b3.
    rewrite load_store_other by lia. unfold b2.
    rewrite load_store_other by lia. unfold b1.
    rewrite load_store_same by lia. by apply Z.mod_small.
  - rewrite load_store_other by lia. unfold b5.
    rewrite load_store_other by lia. unfold b4.
    rewrite load_store_other by lia. unfold b3.
    rewrite load_store_other by lia. unfold b2.
    rewrite load_store_same by lia. by apply Z.mod_small.
  - rewrite load_store_other by lia. unfold b5.
    rewrite load_store_other by lia. unfold b4.
    rewrite load_store_other by lia. unfold b3.
    rewrite load_store_same by lia. by apply Z.mod_small.
  - rewrite load_store_other by lia. unfold b5.
    rewrite load_store_other by lia. unfold b4.
    rewrite load_store_same by lia. by apply Z.mod_small.
  - rewrite load_store_same by lia.
    rewrite Z.mod_small.
    2:{ apply (lor_bound 32); [lia| |lia]. unfold b5.
        rewrite load_store_same by lia. apply Z.mod_pos_bound. lia. }
    f_equal. unfold b5. rewrite load_store_same by lia.
    rewrite Z.mod_small by (apply (land_bound 32); lia).
    f_equal. unfold b4. rewrite load_store_other by lia. unfold b3.
    rewrite load_store_other by lia. unfold b2.
    rewrite load_store_other by lia. unfold b1.
    by rewrite load_store_other by lia.
Qed.

Lemma regs_len_bound (Hok : config_ok cfg) cmd :
  procstate_fx ≤ regs_len cmd ∧ 0 ≤ procstate_fx.
Proof. destruct Hok. unfold regs_len. destruct (has cmd SYS_FPU); lia. Qed.


Lemma do_get_ok tf cmd s tf' s' :
  do_get tf cmd s = Exit (ETrapReturn tf') s' →
  let p := cpu_proc (cur s) in
  let cp := match child (getproc s p) !! Z.land (edx (regs tf)) 0xff with
            | Some cp => cp
            | None => proc_null
            end in
  ∃ s1,
    get_regs tf cmd cp s = Ok tt s1
    ∧ (get_memop tf cmd p cp ;; get_perm tf cmd p ;; get_snap tf cmd ;;
       (trap_return tf : K unit)) s1 = Exit (ETrapReturn tf') s'.
Proof.
  intros H p cp. revert H. unfold do_get. rewrite bind_eq.
  destruct (get_child_cases tf s) as [[-> _]|[[-> _]|[-> _]]]; [|done..].
  fold p cp. simpl. rewrite bind_eq.
  destruct (get_regs tf cmd cp s) as [[] s1|e s1] eqn:Hr.
  - intros H. by exists s1.
  - intros [= -> ->].
    by apply (ends_get_regs (λ e, is_trap_return e = false)) in Hr.
Qed.


End Regs.

(** ** The second copy of the register steps *)

Section SecondCopy.
Context {cfg : Config}.






End SecondCopy.

(** ** CPUTS *)

Section Cputs.
Context {cfg : Config}.

(** A copy-in of a block that passes checkva and is readable, with the
    recover slot empty, returns. *)
Lemma usercopy_in_run (Hok : config_ok cfg) utf kva uva size s data :
  u32 uva → u32 size →
  VM_USERLO ≤ uva ∧ uva + size < VM_USERHI →
  recover (cur s) = None →
  uread (umem s) uva (Z.to_nat size) = (data, None) →
  usercopy utf false kva uva size s
  = Ok tt (set_recover None
             (log (EvRead uva data true)
                (kwrite kva data (set_recover (Some FN_sysrecover) s)))).
Proof.
  intros Hu Hs Hv Hrec Hread. unfold usercopy.
  rewrite (bind_ok _ _ _ _ _ (checkva_accepted Hok utf uva size s Hu Hs Hv)).
  rewrite bind_eq, kget_eq, Hrec, bind_eq. simpl.
  rewrite bind_eq, kmod_eq, bind_eq. unfold memmove_user.
  change (umem (set_recover (Some FN_sysrecover) s)) with (umem s).
  rewrite Hread. rewrite bind_eq, kget_eq.
  by destruct kva.
Qed.

Lemma terminate_buffer (data old : list Z) n :
  length data = n →
  <[n := 0]> (overwrite data (resize (S n) 0 old)) = data ++ [0].
Proof.
  intros <-. unfold overwrite.
  rewrite insert_app_r_alt, Nat.sub_diag by done. f_equal.
  assert (length (drop (length data) (resize (S (length data)) 0 old)) = 1%nat)
    as Hlen by (rewrite length_drop, length_resize; lia).
  destruct (drop _ _) as [|x [|y r]]; by try discriminate Hlen.
Qed.

(** [C9] as amended.  A CPUTS call made with no recovery handler
    installed, whose block of CPUTS_MAX bytes at the user pointer in
    EBX passes checkva and is readable, copies these CPUTS_MAX bytes
    into the buffer, terminates the buffer with a NUL, hands the string
    (the bytes before the first NUL) to the console and returns to the
    caller by trap_return with the trapframe as it was.  A CPUTS call
    with user pointer VM_USERHI - 4 puts nothing on the console and
    touches no user memory: it reflects T_PGFLT to the parent with the
    trapframe unchanged but for trapno and err, so with the EIP and ESP
    of the caller. *)
Theorem cputs_spec (Hok : config_ok cfg) tf cmd s :
  let uva := ebx (regs tf) in
  u32 uva →
  (VM_USERLO ≤ uva ∧ uva + CPUTS_MAX < VM_USERHI →
   recover (cur s) = None →
   ∀ data, uread (umem s) uva (Z.to_nat CPUTS_MAX) = (data, None) →
     ∃ s', do_cputs tf cmd s = Exit (ETrapReturn tf) s'
           ∧ length data = Z.to_nat CPUTS_MAX
           ∧ kbuf s' = data ++ [0]
           ∧ klog s' = EvCons (cstring (data ++ [0]))
                       :: EvRead uva data true :: klog s)
  ∧ (uva = VM_USERHI - 4 →
     ∃ s', do_cputs tf cmd s = Exit (EProcRet (set_trap tf T_PGFLT 0) 0) s'
           ∧ klog s' = klog s ∧ umem s' = umem s
           ∧ eip (set_trap tf T_PGFLT 0) = eip tf
           ∧ esp (set_trap tf T_PGFLT 0) = esp tf).
Proof.
  intros uva Hu. pose proof Hok as [].
  assert (u32 CPUTS_MAX) as Hmax by (unfold u32; lia).
  split.
  - intros Hv Hrec data Hread.
    pose proof (uread_ok_length _ _ _ _ Hread) as Hlen.
    unfold do_cputs. rewrite bind_eq, kmod_eq.
    set (s0 := set_kbuf _ s).
    rewrite (bind_ok _ _ _ _ _
      (usercopy_in_run Hok tf KBuf uva CPUTS_MAX s0 data Hu Hmax
         Hv Hrec Hread)).
    rewrite bind_eq, kmod_eq, bind_eq, kget_eq.
    eexists. split; [reflexivity|]. split; [done|].
    assert (<[Z.to_nat CPUTS_MAX:=0]>
              (overwrite data (resize (Z.to_nat (CPUTS_MAX + 1)) 0 (kbuf s)))
            = data ++ [0]) as Hbuf.
    { replace (Z.to_nat (CPUTS_MAX + 1)) with (S (Z.to_nat CPUTS_MAX)) by lia.
      by apply terminate_buffer. }
    simpl. by rewrite Hbuf.
  - intros Huva. unfold do_cputs. rewrite bind_eq, kmod_eq.
    eexists. split.
    { apply bind_exit. apply (usercopy_rejected Hok); [done..|].
      fold uva. lia. }
    done.
Qed.

End Cputs.

(** ** The null process stays stopped *)

Global Instance null_inv_kept_preorder : PreOrder null_inv_kept.
Proof.
  split.
  - intros s H. exact H.
  - intros s1 s2 s3 H1 H2 H. by apply H2, H1.
Qed.

Global Instance null_inv_kept_framesv : FrameSv null_inv_kept.
Proof.
  split; [split; [apply _|..]|]; try (by intros ? s H);
    try (by intros ? s ? H).
  intros cp b s [Hst Hch]. split.
  - rewrite getproc_setproc. by destruct (decide (proc_null = cp)) as [<-|].
  - intros q cn. rewrite getproc_setproc.
    destruct (decide (q = cp)) as [->|]; apply Hch.
Qed.

Global Instance null_inv_kept_framepm : FramePm null_inv_kept.
Proof.
  split; [apply _|..]; try (by intros ? s H);
    intros cp m s [Hst Hch]; split;
    try (rewrite getproc_setproc;
         by destruct (decide (proc_null = cp)) as [<-|]);
    intros q cn; rewrite getproc_setproc;
    destruct (decide (q = cp)) as [->|]; apply Hch.
Qed.

Section NullInv.
Context {cfg : Config}.

Lemma keeps_null_inv_proc_alloc p cn : keeps null_inv_kept (proc_alloc p cn).
Proof.
  intros s.
  destruct (proc_alloc_cases p cn s)
    as [[_ ->]|(n & cp & c & -> & _ & Hp & Hnull & Hcp & Hst & _ & _ & Hc)];
    [reflexivity|].
  simpl. intros [Hstop Hch]. split.
  - rewrite !getproc_setproc.
    destruct (decide (proc_null = p)) as [<-|]; [done|].
    by rewrite decide_False by done.
  - intros q cn'. rewrite !getproc_setproc.
    destruct (decide (q = p)) as [->|Hq].
    + simpl. destruct (decide (cn' = cn)) as [->|Hcn].
      * rewrite lookup_insert_eq. by intros [= ->].
      * rewrite lookup_insert_ne by done. apply Hch.
    + destruct (decide (q = cp)) as [->|]; [|apply Hch].
      by rewrite Hc, lookup_empty.
Qed.

Lemma keeps_null_inv_proc_ready cp :
  cp ≠ proc_null → keeps null_inv_kept (proc_ready cp).
Proof.
  intros Hcp. apply (keeps_kmod null_inv_kept). intros s [Hst Hch]. split.
  - by rewrite getproc_setproc, decide_False.
  - intros q cn. rewrite getproc_setproc.
    destruct (decide (q = cp)) as [->|]; apply Hch.
Qed.

Lemma do_put_null_inv tf cmd s : null_inv s → null_inv (final (do_put tf cmd s)).
Proof.
  intros Hinv. unfold do_put. rewrite bind_eq.
  pose proof (keeps_put_child null_inv_kept tf keeps_null_inv_proc_alloc s Hinv)
    as H0.
  destruct (put_child tf s) as [[p cp] s0|e s0] eqn:Hc; simpl in *; [|done].
  apply put_child_ok in Hc as (_ & Hslot & _).
  assert (cp ≠ proc_null) as Hcp.
  { intros ->. by destruct H0 as [_ Hch], (Hch p _ Hslot). }
  revert H0. generalize s0. set (R := null_inv_kept).
  change (keeps R (put_regs tf cmd cp ;; put_memop tf cmd p cp ;;
                   put_perm tf cmd cp ;; put_snap cmd cp ;;
                   when (has cmd SYS_START) (proc_ready cp) ;;
                   (trap_return tf : K unit))).
  apply (keeps_bind R); [apply (keeps_put_regs R)|intros _].
  apply (keeps_bind R); [apply (keeps_put_memop R)|intros _].
  apply (keeps_bind R); [apply (keeps_put_perm R)|intros _].
  apply (keeps_bind R); [apply (keeps_put_snap R)|intros _].
  apply (keeps_bind R);
    [by apply (keeps_when R), keeps_null_inv_proc_ready|intros _].
  apply (keeps_trap_return R).
Qed.

Lemma do_get_null_inv tf cmd s : null_inv s → null_inv (final (do_get tf cmd s)).
Proof.
  revert s. set (R := null_inv_kept). change (keeps R (do_get tf cmd)).
  unfold do_get.
  apply (keeps_bind R); [apply (keeps_get_child R)|intros pc].
  apply (keeps_bind R); [apply (keeps_get_regs R)|intros _].
  apply (keeps_get_tail R).
Qed.

Lemma do_cputs_null_inv tf cmd s :
  null_inv s → null_inv (final (do_cputs tf cmd s)).
Proof.
  revert s. set (R := null_inv_kept). change (keeps R (do_cputs tf cmd)).
  unfold do_cputs.
  apply (keeps_bind R); [|intros _].
  { apply (keeps_kmod R). intros s. apply frame_kbuf. }
  apply (keeps_bind R); [|intros _].
  { apply (keeps_usercopy_with R), (keeps_memmove_in_buf R). }
  apply (keeps_bind R); [|intros _].
  { apply (keeps_kmod R). intros s. apply frame_kbuf. }
  apply (keeps_bind R); [apply (keeps_kget R)|intros s].
  apply (keeps_bind R); [|intros _; apply (keeps_trap_return R)].
  apply (keeps_kmod R). intros s'. by apply frame_log.
Qed.

(** [X25] The null process stays what it is under every system call:
    when proc_null is stopped and no child slot of any process refers
    to it, the same holds after the call, however the call ends.  So a
    GET on an empty slot, which works on proc_null, never waits. *)
Lemma syscall_null_inv tf s : null_inv s → null_inv (final (syscall tf s)).
Proof.
  intros Hinv. unfold syscall.
  destruct (_ =? SYS_CPUTS); [by apply do_cputs_null_inv|].
  destruct (_ =? SYS_PUT); [by apply do_put_null_inv|].
  destruct (_ =? SYS_GET); [by apply do_get_null_inv|].
  by destruct (_ =? SYS_RET).
Qed.

End NullInv.

(** ** Rules for [stable] *)

Section Stable.
Context {cfg : Config}.
Context (I : kstate → Prop) (E : exit → Prop).

Lemma stable_ret {A} (a : A) : stable I E (mret a : K A).
Proof. by intros s Hs. Qed.

Lemma stable_exit {A} e : E e → stable I E (kexit e : K A).
Proof. by intros He s Hs. Qed.

Lemma stable_bind {A B} (c : K A) (k : A → K B) :
  stable I E c → (∀ a, stable I E (k a)) → stable I E (c ≫= k).
Proof.
  intros Hc Hk s Hs. rewrite bind_eq. specialize (Hc s Hs).
  destruct (c s) as [a s1|e s1]; [by apply Hk|done].
Qed.

Lemma stable_kmod f : (∀ s, I s → I (f s)) → stable I E (kmod f).
Proof. intros Hf s Hs. by apply Hf. Qed.

Lemma stable_when b c : stable I E c → stable I E (when b c).
Proof. destruct b; [done|intros _; apply stable_ret]. Qed.

Lemma stable_if {A} (b : bool) (c1 c2 : K A) :
  stable I E c1 → stable I E c2 → stable I E (if b then c1 else c2).
Proof. by destruct b. Qed.

Lemma stable_systrap {A} utf no e :
  E (EProcRet (set_trap utf no e) 0) → stable I E (systrap utf no e : K A).
Proof. apply stable_exit. Qed.

(** A write to the proc structure at [q] and a page-map entry of the
    log: the steps of PUT and GET after the register transfer are made
    of these. *)
Context (q : pid) (tf : trapframe).
Context (Hwrite : ∀ v s, I s → I (setproc q v s)).
Context (Hlog : ∀ op s, I s → I (log (EvPmap op) s)).
Context (Hgp : E (EProcRet (set_trap tf T_GPFLT 0) 0)).
Context (Hpanic : ∀ msg, msg ≠ "assertion failed" → E (EPanic msg)).
Context (Hret : E (ETrapReturn tf)).

Lemma stable_modproc f : stable I E (modproc q f).
Proof. apply stable_kmod. intros s. apply Hwrite. Qed.

Lemma stable_log_pmap op : stable I E (kmod (log (EvPmap op))).
Proof. apply stable_kmod. intros s. apply Hlog. Qed.

Lemma stable_do_pmap_remove dva size : stable I E (do_pmap_remove q dva size).
Proof.
  apply stable_bind; [apply stable_modproc|intros _; apply stable_log_pmap].
Qed.

Lemma stable_do_pmap_copy src sva dva size :
  stable I E (do_pmap_copy src sva q dva size).
Proof.
  apply stable_bind; [|intros _; apply stable_log_pmap].
  apply stable_kmod. intros s. apply Hwrite.
Qed.

Lemma stable_do_pmap_merge cp sva dva size :
  stable I E (do_pmap_merge cp sva q dva size).
Proof.
  apply stable_bind; [|intros _; apply stable_log_pmap].
  apply stable_kmod. intros s. apply Hwrite.
Qed.

Lemma stable_do_pmap_setperm dva size perm msg :
  msg ≠ "assertion failed" →
  stable I E (do_pmap_setperm q dva size perm msg).
Proof.
  intros Hmsg. unfold do_pmap_setperm.
  apply stable_bind; [by intros s Hs|intros s].
  apply stable_if; [|by apply stable_exit, Hpanic].
  apply stable_bind; [apply stable_modproc|intros _; apply stable_log_pmap].
Qed.

(** The steps of PUT after the register transfer, for the child [q]. *)
Lemma stable_put_tail cmd p : stable I E (put_tail tf cmd p q).
Proof.
  unfold put_tail.
  apply stable_bind; [|intros _].
  { unfold put_memop. apply stable_if; [apply stable_ret|].
    apply stable_if; [|apply stable_systrap, Hgp].
    apply stable_bind; [apply stable_when, stable_systrap, Hgp|intros _].
    apply stable_bind; [apply stable_when, stable_systrap, Hgp|intros _].
    apply stable_if; [apply stable_do_pmap_remove|].
    apply stable_if; [apply stable_do_pmap_copy|apply stable_ret]. }
  apply stable_bind; [|intros _].
  { unfold put_perm. apply stable_when.
    apply stable_bind; [apply stable_when, stable_systrap, Hgp|intros _].
    by apply stable_do_pmap_setperm. }
  apply stable_bind; [|intros _].
  { unfold put_snap. apply stable_when.
    apply stable_bind; [|intros _; apply stable_log_pmap].
    apply stable_kmod. intros s. apply Hwrite. }
  apply stable_bind; [|intros _; by apply stable_exit].
  apply stable_when. unfold proc_ready. apply stable_modproc.
Qed.

(** The steps of GET after the register transfer, for the caller [q]
    and the child [cp]. *)
Lemma stable_get_tail cmd cp : stable I E (get_tail tf cmd q cp).
Proof.
  unfold get_tail.
  apply stable_bind; [|intros _].
  { unfold get_memop. apply stable_if; [apply stable_ret|].
    apply stable_if; [|apply stable_systrap, Hgp].
    apply stable_bind; [apply stable_when, stable_systrap, Hgp|intros _].
    apply stable_bind; [apply stable_when, stable_systrap, Hgp|intros _].
    apply stable_if; [apply stable_do_pmap_remove|].
    apply stable_if; [apply stable_do_pmap_copy|].
    apply stable_if; [apply stable_do_pmap_merge|apply stable_ret]. }
  apply stable_bind; [|intros _].
  { unfold get_perm. apply stable_when.
    apply stable_bind; [apply stable_when, stable_systrap, Hgp|intros _].
    by apply stable_do_pmap_setperm. }
  apply stable_bind; [|intros _; by apply stable_exit].
  unfold get_snap. apply stable_when, stable_systrap, Hgp.
Qed.

(** The register transfer of PUT into the child [q]: the two copies,
    then the rewrite of the saved trapframe. *)
Lemma stable_put_regs cmd :
  (has cmd SYS_REGS = true → stable I E (regs_copies tf cmd false q)) →
  stable I E (put_regs tf cmd q).
Proof.
  intros Hc. unfold put_regs.
  destruct (has cmd SYS_REGS); [|apply stable_ret]. simpl.
  intros s Hs. specialize (Hc eq_refl s Hs). revert Hc.
  unfold regs_copies. rewrite !bind_eq.
  destruct (usercopy _ _ _ _ _ s) as [[] s1|e s1]; [|done].
  rewrite !bind_eq.
  destruct (memmove_user _ _ _ _ s1) as [[] s2|e s2]; [|done].
  intros Hs2. revert s2 Hs2. unfold modfield.
  change (stable I E
    (modproc q (λ c, set_sv (store off_ds 2 (Z.lor CPU_GDT_UDATA 3) (sv c)) c)
     ;; modproc q (λ c, set_sv (store off_es 2 (Z.lor CPU_GDT_UDATA 3) (sv c)) c)
     ;; modproc q (λ c, set_sv (store off_cs 2 (Z.lor CPU_GDT_UCODE 3) (sv c)) c)
     ;; modproc q (λ c, set_sv (store off_ss 2 (Z.lor CPU_GDT_UDATA 3) (sv c)) c)
     ;; modproc q (λ c, set_sv (store off_eflags 4
                                  (Z.land (load off_eflags 4 (sv c)) FL_USER)
                                  (sv c)) c)
     ;; modproc q (λ c, set_sv (store off_eflags 4
                                  (Z.lor (load off_eflags 4 (sv c)) FL_IF)
                                  (sv c)) c))).
  repeat (apply stable_bind; [apply stable_modproc|intros _]).
  apply stable_modproc.
Qed.

Lemma stable_put_body cmd p :
  (has cmd SYS_REGS = true → stable I E (regs_copies tf cmd false q)) →
  stable I E (put_body tf cmd p q).
Proof.
  intros Hc. unfold put_body.
  apply stable_bind; [by apply stable_put_regs|intros _].
  apply stable_put_tail.
Qed.

End Stable.

Section StableGet.
Context {cfg : Config}.
Context (I : kstate → Prop) (E : exit → Prop).
Context (p : pid) (tf : trapframe).
Context (Hwrite : ∀ v s, I s → I (setproc p v s)).
Context (Hlog : ∀ op s, I s → I (log (EvPmap op) s)).
Context (Hgp : E (EProcRet (set_trap tf T_GPFLT 0) 0)).
Context (Hpanic : ∀ msg, msg ≠ "assertion failed" → E (EPanic msg)).
Context (Hret : E (ETrapReturn tf)).

Lemma stable_get_body cmd cp :
  (has cmd SYS_REGS = true → stable I E (regs_copies tf cmd true cp)) →
  stable I E (get_body tf cmd p cp).
Proof.
  intros Hc. unfold get_body.
  apply stable_bind; [|intros _; by apply stable_get_tail].
  unfold get_regs. destruct (has cmd SYS_REGS); [|apply stable_ret].
  by apply Hc.
Qed.

End StableGet.

Section StableCputs.
Context {cfg : Config}.
Context (I : kstate → Prop) (E : exit → Prop).

Lemma stable_do_cputs tf cmd :
  E (ETrapReturn tf) →
  (∀ b s, I s → I (set_kbuf b s)) →
  (∀ str s, I s → I (log (EvCons str) s)) →
  stable I E (usercopy tf false KBuf (ebx (regs tf)) CPUTS_MAX) →
  stable I E (do_cputs tf cmd).
Proof.
  intros Hret Hbuf Hcons Hu. unfold do_cputs.
  apply stable_bind; [|intros _].
  { apply stable_kmod. intros s. apply Hbuf. }
  apply stable_bind; [exact Hu|intros _].
  apply stable_bind; [|intros _].
  { apply stable_kmod. intros s. apply Hbuf. }
  apply stable_bind; [by intros s Hs|intros s].
  apply stable_bind; [|intros _; by apply stable_exit].
  apply stable_kmod. intros s'. apply Hcons.
Qed.

End StableCputs.

(** ** How the resolution of the child of a PUT ends *)

Section PutChild.
Context {cfg : Config}.

Lemma put_child_cases tf s :
  let p := cpu_proc (cur s) in
  (¬ caller_runs s ∧ put_child tf s = Exit (EPanic "assertion failed") s)
  ∨ (caller_runs s ∧
     match named_child tf s with
     | Some cp =>
         (state (getproc s cp) = PROC_STOP ∧ put_child tf s = Ok (p, cp) s)
         ∨ (state (getproc s cp) ≠ PROC_STOP
            ∧ put_child tf s = Exit (EProcWait p cp tf) s)
     | None =>
         (nfree s = O
          ∧ put_child tf s = Exit (EPanic "sys_put: no memory for child") s)
         ∨ ∃ n cp c,
             nfree s = S n ∧ cp ≠ p ∧ cp ≠ proc_null ∧ procs s !! cp = None
             ∧ state c = PROC_STOP ∧ pdir c = pmap_zero
             ∧ rpdir c = pmap_zero ∧ child c = ∅
             ∧ put_child tf s
               = Ok (p, cp)
                    (setproc p (set_child (child_slot tf) cp (getproc s p))
                       (setproc cp c (set_nfree n s)))
     end).
Proof.
  intros p. unfold put_child, named_child, child_slot.
  rewrite bind_eq. simpl. rewrite bind_eq, kget_eq. fold p.
  destruct (decide (caller_runs s)) as [Hrun|Hrun].
  2:{ left. split; [done|]. unfold caller_runs in Hrun. fold p in Hrun.
      by rewrite (bool_decide_eq_false_2 _ Hrun). }
  right. split; [done|]. pose proof Hrun as Hrun'.
  unfold caller_runs in Hrun'. fold p in Hrun'.
  rewrite (bool_decide_eq_true_2 _ Hrun').
  rewrite bind_eq, assert_true, bind_eq.
  destruct (child (getproc s p) !! Z.land (edx (regs tf)) 255) as [cp|].
  - simpl. rewrite bind_eq, kget_eq, bind_eq.
    destruct (decide (state (getproc s cp) = PROC_STOP)) as [Hst|Hst].
    + left. by rewrite bool_decide_eq_false_2 by (by intros H; apply H).
    + right. by rewrite bool_decide_eq_true_2.
  - rewrite bind_eq.
    destruct (proc_alloc_cases p (Z.land (edx (regs tf)) 255) s)
      as [[Hn ->]|(n & cp & c & -> & Hn & Hne & Hnull & Hfresh & Hst & Hpd
                   & Hrpd & Hch)]; [by left|right].
    exists n, cp, c. repeat (split; [done|]).
    unfold mret at 1, K_ret at 1.
    rewrite bind_eq, kget_eq, bind_eq.
    rewrite getproc_setproc, decide_False by done.
    rewrite getproc_setproc_eq.
    by rewrite bool_decide_eq_false_2 by (by intros H; apply H).
Qed.

End PutChild.

(** ** How a system call can end *)

Section Outcome.
Context {cfg : Config}.

Lemma cur_recover_restored s s1 :
  recover (cur s) = None → cur s1 = cur (set_recover (Some FN_sysrecover) s) →
  cur (set_recover None s1) = cur s.
Proof.
  intros Hrec Hcur. unfold set_recover in *. simpl in *. rewrite Hcur. simpl.
  destruct (cur s). simpl in *. by subst.
Qed.

(** usercopy, entered with the recover slot empty, leaves the CPU block
    as it was; it ends by returning, by the trap of checkva, or by the
    trap that sysrecover reflects. *)
Lemma usercopy_outcome utf copyout kva uva size s :
  recover (cur s) = None →
  match usercopy utf copyout kva uva size s with
  | Ok _ s' => cur s' = cur s
  | Exit e s' =>
      cur s' = cur s
      ∧ (e = EProcRet (set_trap utf T_PGFLT 0) 0
         ∨ ∃ k, e = EProcRet (set_trap (recoverdata (cur s)) T_PGFLT k) 0)
  end.
Proof.
  intros Hrec. unfold usercopy. rewrite bind_eq.
  destruct (checkva_cases utf uva size s) as [[-> _]|[-> _]]; [|by auto].
  rewrite bind_eq, kget_eq, Hrec.
  rewrite bool_decide_eq_true_2 by done.
  rewrite bind_eq, assert_true, bind_eq, kmod_eq, bind_eq.
  destruct (memmove_user_cases copyout kva uva size
              (set_recover (Some FN_sysrecover) s))
    as (s1 & ev & [-> | [e ->]] & _ & Hcur & _ & _).
  - rewrite bind_eq, kget_eq, Hcur. simpl. by apply cur_recover_restored.
  - rewrite trap_sysrecover by (by rewrite Hcur).
    split; [by apply cur_recover_restored|].
    right. exists e. by rewrite Hcur.
Qed.

(** The direct copy of the register steps, entered with the recover
    slot empty: it returns, or the kernel panics on the trap. *)
Lemma memmove_user_outcome copyout kva uva size s :
  recover (cur s) = None →
  match memmove_user copyout kva uva size s with
  | Ok _ s' => cur s' = cur s
  | Exit e s' => cur s' = cur s ∧ e = EPanic "unhandled trap in kernel"
  end.
Proof.
  intros Hrec.
  destruct (memmove_user_cases copyout kva uva size s)
    as (s1 & ev & [-> | [e ->]] & _ & Hcur & _ & _); [done|].
  rewrite trap_unguarded by (by rewrite Hcur). done.
Qed.

Lemma stable_usercopy_cur c0 tf copyout kva uva size :
  recover c0 = None →
  stable (λ s, cur s = c0) (body_exit tf (recoverdata c0))
    (usercopy tf copyout kva uva size).
Proof.
  intros Hrec s Hs. subst c0.
  pose proof (usercopy_outcome tf copyout kva uva size s Hrec) as H.
  destruct (usercopy _ _ _ _ _ s) as [[] s'|e s']; [done|].
  destruct H as [Hcur [->|[k ->]]]; (split; [done|]); simpl; eauto.
Qed.

Lemma stable_memmove_cur c0 tf copyout kva uva size :
  recover c0 = None →
  stable (λ s, cur s = c0) (body_exit tf (recoverdata c0))
    (memmove_user copyout kva uva size).
Proof.
  intros Hrec s Hs. subst c0.
  pose proof (memmove_user_outcome copyout kva uva size s Hrec) as H.
  destruct (memmove_user _ _ _ _ s) as [[] s'|e s']; [done|].
  by destruct H as [Hcur ->].
Qed.

(** A handler never returns to its caller in C: its last step is a
    non-returning call. *)
Lemma value_of_bind {A B} (c : K A) (k : A → K B) s :
  (∀ a s1, value_of (k a s1) = None) → value_of ((c ≫= k) s) = None.
Proof. intros Hk. rewrite bind_eq. by destruct (c s). Qed.

Lemma do_cputs_no_return tf cmd s : value_of (do_cputs tf cmd s) = None.
Proof. unfold do_cputs. repeat (apply value_of_bind; intros ??). done. Qed.

Lemma do_put_no_return tf cmd s : value_of (do_put tf cmd s) = None.
Proof. unfold do_put. repeat (apply value_of_bind; intros ??). done. Qed.

Lemma do_get_no_return tf cmd s : value_of (do_get tf cmd s) = None.
Proof. unfold do_get. repeat (apply value_of_bind; intros ??). done. Qed.

Lemma body_handler_exit tf s e s' :
  body_exit tf (recoverdata (cur s)) e → handler_exit tf s e s'.
Proof. destruct e; simpl; done. Qed.

Lemma do_cputs_outcome tf cmd s :
  recover (cur s) = None →
  ∃ e s', do_cputs tf cmd s = Exit e s' ∧ cur s' = cur s
          ∧ handler_exit tf s e s'.
Proof.
  intros Hrec.
  assert (stable (λ s', cur s' = cur s) (body_exit tf (recoverdata (cur s)))
            (do_cputs tf cmd)) as Hst.
  { apply stable_do_cputs; try done. by apply stable_usercopy_cur. }
  specialize (Hst s eq_refl). pose proof (do_cputs_no_return tf cmd s) as Hn.
  destruct (do_cputs tf cmd s) as [[] s'|e s']; [done|].
  destruct Hst as [Hcur He]. exists e, s'.
  split; [done|]. split; [done|]. by apply body_handler_exit.
Qed.

Lemma do_put_eq tf cmd s :
  do_put tf cmd s
  = match put_child tf s with
    | Ok pc s0 => put_body tf cmd pc.1 pc.2 s0
    | Exit e s0 => Exit e s0
    end.
Proof. reflexivity. Qed.

Lemma do_get_eq tf cmd s :
  do_get tf cmd s
  = match get_child tf s with
    | Ok pc s0 => get_body tf cmd pc.1 pc.2 s0
    | Exit e s0 => Exit e s0
    end.
Proof. reflexivity. Qed.

Lemma put_body_no_return tf cmd p cp s :
  value_of (put_body tf cmd p cp s) = None.
Proof. unfold put_body. repeat (apply value_of_bind; intros ??). done. Qed.

Lemma get_body_no_return tf cmd p cp s :
  value_of (get_body tf cmd p cp s) = None.
Proof. unfold get_body. repeat (apply value_of_bind; intros ??). done. Qed.

Lemma put_body_outcome tf cmd p cp s s0 :
  recover (cur s) = None → cur s0 = cur s →
  ∃ e s', put_body tf cmd p cp s0 = Exit e s' ∧ cur s' = cur s
          ∧ body_exit tf (recoverdata (cur s)) e.
Proof.
  intros Hrec Hcur.
  assert (stable (λ s', cur s' = cur s)
            (body_exit tf (recoverdata (cur s)))
            (put_body tf cmd p cp)) as Hst.
  { apply stable_put_body; try done.
    - split; [done|]. by left.
    - intros _. apply stable_bind; [by apply stable_usercopy_cur|intros _].
      by apply stable_memmove_cur. }
  specialize (Hst s0 Hcur).
  pose proof (put_body_no_return tf cmd p cp s0) as Hn.
  destruct (put_body tf cmd p cp s0) as [[] s'|e s']; [done|].
  by exists e, s'.
Qed.

Lemma get_body_outcome tf cmd p cp s s0 :
  recover (cur s) = None → cur s0 = cur s →
  ∃ e s', get_body tf cmd p cp s0 = Exit e s' ∧ cur s' = cur s
          ∧ body_exit tf (recoverdata (cur s)) e.
Proof.
  intros Hrec Hcur.
  assert (stable (λ s', cur s' = cur s)
            (body_exit tf (recoverdata (cur s)))
            (get_body tf cmd p cp)) as Hst.
  { apply stable_get_body; try done.
    - split; [done|]. by left.
    - intros _. apply stable_bind; [by apply stable_usercopy_cur|intros _].
      by apply stable_memmove_cur. }
  specialize (Hst s0 Hcur).
  pose proof (get_body_no_return tf cmd p cp s0) as Hn.
  destruct (get_body tf cmd p cp s0) as [[] s'|e s']; [done|].
  by exists e, s'.
Qed.

Lemma do_put_outcome tf cmd s :
  recover (cur s) = None →
  ∃ e s', do_put tf cmd s = Exit e s' ∧ cur s' = cur s
          ∧ handler_exit tf s e s'.
Proof.
  intros Hrec. rewrite do_put_eq.
  assert (∀ p cp s0, cur s0 = cur s →
    ∃ e s', put_body tf cmd p cp s0 = Exit e s' ∧ cur s' = cur s
            ∧ handler_exit tf s e s') as Hbody.
  { intros p cp s0 Hcur.
    destruct (put_body_outcome tf cmd p cp s s0 Hrec Hcur)
      as (e & s' & H1 & H2 & H3).
    exists e, s'. split; [done|]. split; [done|]. by apply body_handler_exit. }
  destruct (put_child_cases tf s) as [[Hrun ->]|[Hrun Hc]].
  { eexists _, _; split; [reflexivity|]; split; [reflexivity|]; by simpl. }
  destruct (named_child tf s) as [cp|].
  - destruct Hc as [[Hst ->]|[Hst ->]].
    + by apply Hbody.
    + eexists _, _; split; [reflexivity|]; split; [reflexivity|]; by simpl.
  - destruct Hc as [[_ ->]|(n & cp & c & _ & _ & _ & _ & _ & _ & _ & _ & ->)].
    + eexists _, _; split; [reflexivity|]; split; [reflexivity|]; by simpl.
    + by apply Hbody.
Qed.

Lemma do_get_outcome tf cmd s :
  recover (cur s) = None →
  ∃ e s', do_get tf cmd s = Exit e s' ∧ cur s' = cur s
          ∧ handler_exit tf s e s'.
Proof.
  intros Hrec. rewrite do_get_eq.
  destruct (get_child_cases tf s) as [[-> _]|[[-> Hrun]|[-> Hst]]].
  - destruct (get_body_outcome tf cmd (cpu_proc (cur s))
                (match child (getproc s (cpu_proc (cur s)))
                         !! Z.land (edx (regs tf)) 255 with
                 | Some cp => cp
                 | None => proc_null
                 end) s s Hrec eq_refl)
      as (e & s' & H1 & H2 & H3).
    exists e, s'. split; [done|]. split; [done|]. by apply body_handler_exit.
  - eexists _, _; split; [reflexivity|]; split; [reflexivity|]; by simpl.
  - eexists _, _; split; [reflexivity|]; split; [reflexivity|]; by simpl.
Qed.

(** A system call entered with the recover slot empty.  It returns to
    its caller in C for an undefined type only, the state untouched.
    Otherwise it leaves the CPU block as it was and ends by proc_ret
    with entry 1 and the trapframe of the call, for RET, or in one of
    the ways of the handlers. *)
Lemma syscall_outcome tf s :
  recover (cur s) = None →
  match syscall tf s with
  | Ok _ s' =>
      s' = s
      ∧ Z.land (eax (regs tf)) SYS_TYPE ≠ SYS_CPUTS
      ∧ Z.land (eax (regs tf)) SYS_TYPE ≠ SYS_PUT
      ∧ Z.land (eax (regs tf)) SYS_TYPE ≠ SYS_GET
      ∧ Z.land (eax (regs tf)) SYS_TYPE ≠ SYS_RET
  | Exit e s' =>
      cur s' = cur s
      ∧ ((e = EProcRet tf 1 ∧ s' = s
          ∧ Z.land (eax (regs tf)) SYS_TYPE = SYS_RET)
         ∨ handler_exit tf s e s')
  end.
Proof.
  intros Hrec. unfold syscall.
  destruct (_ =? SYS_CPUTS) eqn:H1.
  { destruct (do_cputs_outcome tf (eax (regs tf)) s Hrec)
      as (e & s' & -> & Hc & He). auto. }
  destruct (_ =? SYS_PUT) eqn:H2.
  { destruct (do_put_outcome tf (eax (regs tf)) s Hrec)
      as (e & s' & -> & Hc & He). auto. }
  destruct (_ =? SYS_GET) eqn:H3.
  { destruct (do_get_outcome tf (eax (regs tf)) s Hrec)
      as (e & s' & -> & Hc & He). auto. }
  destruct (_ =? SYS_RET) eqn:H4.
  { apply Z.eqb_eq in H4. split; [done|]. by left. }
  apply Z.eqb_neq in H1, H2, H3, H4. done.
Qed.

End Outcome.

(** ** The dispatcher *)

Section Dispatch.
Context {cfg : Config}.

(** [X1] syscall decodes the type of the call from EAX.  For a type
    that is none of CPUTS, PUT, GET and RET it returns to its caller
    with the kernel state untouched (the call is then handled as a
    regular trap); for each of the four types it does not return to its
    caller, since every handler ends in a non-returning call; and RET
    ends by proc_ret with the trapframe of the call and entry 1, the
    state untouched. *)
Theorem syscall_dispatch tf s :
  let ty := Z.land (eax (regs tf)) SYS_TYPE in
  (ty ≠ SYS_CPUTS → ty ≠ SYS_PUT → ty ≠ SYS_GET → ty ≠ SYS_RET →
   syscall tf s = Ok tt s)
  ∧ (ty = SYS_CPUTS ∨ ty = SYS_PUT ∨ ty = SYS_GET ∨ ty = SYS_RET →
     value_of (syscall tf s) = None)
  ∧ (ty = SYS_RET →
     SYS_RET ≠ SYS_CPUTS → SYS_RET ≠ SYS_PUT → SYS_RET ≠ SYS_GET →
     syscall tf s = Exit (EProcRet tf 1) s).
Proof.
  intros ty. unfold syscall. fold ty.
  split; [|split].
  - intros H1 H2 H3 H4.
    by rewrite !(proj2 (Z.eqb_neq _ _)) by done.
  - intros Hty.
    destruct (ty =? SYS_CPUTS) eqn:H1; [apply do_cputs_no_return|].
    destruct (ty =? SYS_PUT) eqn:H2; [apply do_put_no_return|].
    destruct (ty =? SYS_GET) eqn:H3; [apply do_get_no_return|].
    destruct (ty =? SYS_RET) eqn:H4; [done|].
    apply Z.eqb_neq in H1, H2, H3, H4. by destruct Hty as [?|[?|[?|?]]].
  - intros -> H1 H2 H3.
    by rewrite !(proj2 (Z.eqb_neq _ _)), Z.eqb_refl by done.
Qed.

(** [X2] A system call entered with no recovery handler installed
    leaves the per-CPU block as it was, up to the non-returning call
    that ends it and however it ends: no handler is left installed, and
    the current process of the CPU and the recovery data are
    unchanged. *)
Theorem syscall_cpu_unchanged tf s :
  recover (cur s) = None → cur (final (syscall tf s)) = cur s.
Proof.
  intros Hrec. pose proof (syscall_outcome tf s Hrec) as H.
  destruct (syscall tf s) as [[] s'|e s']; simpl.
  - by destruct H as [-> _].
  - by destruct H as [-> _].
Qed.

(** [X3] The assertions of the file hold in every system call that is
    entered with no recovery handler installed and with the calling
    process running on this CPU: the call does not end in a failed
    assertion (of do_put, do_get, usercopy or sysrecover), and no trap
    taken during the call is handed to a recovery function other than
    sysrecover. *)
Theorem syscall_assertions_hold tf s :
  recover (cur s) = None → caller_runs s →
  (∀ s', syscall tf s ≠ Exit (EPanic "assertion failed") s')
  ∧ (∀ n ktf s', syscall tf s ≠ Exit (EDiverted n ktf) s').
Proof.
  intros Hrec Hrun. pose proof (syscall_outcome tf s Hrec) as H.
  split.
  - intros s' Heq. rewrite Heq in H. destruct H as [_ [[? _]|H]]; [done|].
    simpl in H. by apply H.
  - intros n ktf s' Heq. rewrite Heq in H.
    by destruct H as [_ [[? _]|H]].
Qed.

(** [X4] The trapframes that a system call hands on, for a call entered
    with no recovery handler installed.  A call that completes resumes
    the caller by trap_return with the trapframe of the call, unchanged.
    A call that waits for its child calls proc_wait for the current
    process with the trapframe of the call, the kernel state untouched,
    and the child is not stopped.  proc_ret is called with entry 1 for
    RET only, with the trapframe of the call; every other proc_ret
    reflects a trap with entry 0, and the trap is T_GPFLT or T_PGFLT
    with error code 0 on the trapframe of the call, or T_PGFLT on the
    trapframe that the recovery data of the CPU refers to. *)
Theorem syscall_exits tf s e s' :
  recover (cur s) = None →
  syscall tf s = Exit e s' →
  match e with
  | ETrapReturn tf' => tf' = tf
  | EProcWait p cp tf' =>
      p = cpu_proc (cur s) ∧ tf' = tf ∧ s' = s
      ∧ state (getproc s cp) ≠ PROC_STOP
  | EProcRet tf' n =>
      (n = 1 ∧ tf' = tf ∧ s' = s
       ∧ Z.land (eax (regs tf)) SYS_TYPE = SYS_RET)
      ∨ (n = 0
         ∧ (tf' = set_trap tf T_GPFLT 0 ∨ tf' = set_trap tf T_PGFLT 0
            ∨ ∃ k, tf' = set_trap (recoverdata (cur s)) T_PGFLT k))
  | EPanic _ | EDiverted _ _ => True
  end.
Proof.
  intros Hrec Heq. pose proof (syscall_outcome tf s Hrec) as H.
  rewrite Heq in H. destruct H as [_ [(-> & -> & Hty)|H]]; [by left|].
  destruct e as [tf'|tf' n|p cp tf'|msg|n k]; simpl in H; try done.
  by right.
Qed.

End Dispatch.

(** ** What the copies do to user memory and to the kernel buffers *)

Section UserMemory.
Context {cfg : Config}.

Lemma uwrite_count m uva bs m' n f :
  uwrite m uva bs = (m', n, f) → (n ≤ length bs)%nat.
Proof.
  revert m uva m' n f. induction bs as [|b bs IH]; intros m uva m' n f; simpl.
  - intros [= _ <- _]. lia.
  - destruct (m uva) as [[b' [|]]|]; try (intros [= _ <- _]; lia).
    destruct (uwrite _ (uva + 1) bs) as [[m1 n1] f1] eqn:Hw.
    intros [= _ <- _]. apply IH in Hw. lia.
Qed.

(** A copy into user memory changes the bytes it has written only. *)
Lemma uwrite_outside m uva bs m' n f a :
  uwrite m uva bs = (m', n, f) →
  ¬ (uva ≤ a < uva + Z.of_nat n) → m' a = m a.
Proof.
  revert m uva m' n f. induction bs as [|b bs IH]; intros m uva m' n f; simpl.
  - by intros [= <- _ _].
  - destruct (m uva) as [[b' [|]]|] eqn:Hm; try (by intros [= <- _ _]).
    destruct (uwrite _ (uva + 1) bs) as [[m1 n1] f1] eqn:Hw.
    intros [= <- <- _] Ha. rewrite (IH _ _ _ _ _ Hw) by lia.
    unfold mem_upd. rewrite decide_False; [done|lia].
Qed.

Lemma uread_count m uva n bs f :
  uread m uva n = (bs, f) → (length bs ≤ n)%nat.
Proof.
  revert uva bs f. induction n as [|n IH]; intros uva bs f; simpl.
  - intros [= <- _]. simpl. lia.
  - destruct (m uva) as [[b w]|]; [|intros [= <- _]; simpl; lia].
    destruct (uread m (uva + 1) n) as [bs1 f1] eqn:Hr.
    intros [= <- _]. simpl. apply IH in Hr. lia.
Qed.

(** The bytes of a copy into user memory that went through are read
    back by a copy out of it. *)
Lemma uwrite_read_back m uva bs m' n :
  uwrite m uva bs = (m', n, None) → uread m' uva (length bs) = (bs, None).
Proof.
  revert m uva m' n. induction bs as [|b bs IH]; intros m uva m' n; simpl.
  - done.
  - destruct (m uva) as [[b' [|]]|] eqn:Hm; [|done..].
    destruct (uwrite _ (uva + 1) bs) as [[m1 n1] f1] eqn:Hw.
    intros [= <- <- ->].
    rewrite (uwrite_outside _ _ _ _ _ _ uva Hw) by lia.
    unfold mem_upd at 1. rewrite decide_True by done.
    by rewrite (IH _ _ _ _ Hw).
Qed.

(** A trap in kernel mode changes nothing but the recover slot. *)
Lemma trap_final {A} ktf s :
  final (trap (A := A) ktf s) = s
  ∨ final (trap (A := A) ktf s) = set_recover None s.
Proof.
  unfold trap, sysrecover. destruct (recover (cur s)) as [[|n]|]; auto.
Qed.

(** The state that a copy leaves, up to the recover slot: a log entry
    on top of the new user memory, or of the new kernel buffer. *)
Lemma memmove_user_shape copyout kva uva size s :
  ∃ s1 ev,
    (final (memmove_user copyout kva uva size s) = s1
     ∨ final (memmove_user copyout kva uva size s) = set_recover None s1)
    ∧ is_pmap_event ev = false ∧ is_cons_event ev = false
    ∧ if copyout
      then ∃ m' n f,
             uwrite (umem s) uva (take (Z.to_nat size) (kread kva s))
             = (m', n, f)
             ∧ s1 = log ev (set_umem m' s)
      else ∃ bs f,
             uread (umem s) uva (Z.to_nat size) = (bs, f)
             ∧ s1 = log ev (kwrite kva bs s).
Proof.
  unfold memmove_user. destruct copyout.
  - destruct (uwrite _ _ _) as [[m' n] f] eqn:Hw.
    eexists _, _. split; [|split; [|split]]; [| | |by eexists _, _, _].
    + destruct f as [e|]; [apply trap_final|by left].
    + done.
    + done.
  - destruct (uread _ _ _) as [bs f] eqn:Hr.
    eexists _, _. split; [|split; [|split]]; [| | |by eexists _, _].
    + destruct f as [e|]; [apply trap_final|by left].
    + done.
    + done.
Qed.

(** A copy changes no byte of user memory outside its block, and a
    copy from user memory changes none. *)
Lemma memmove_user_umem copyout kva uva size s a :
  copyout = false ∨ ¬ (uva ≤ a < uva + size) →
  umem (final (memmove_user copyout kva uva size s)) a = umem s a.
Proof.
  intros Hcase.
  destruct (memmove_user_shape copyout kva uva size s)
    as (s1 & ev & Hfin & _ & _ & Hs1).
  assert (umem (final (memmove_user copyout kva uva size s)) = umem s1) as ->.
  { by destruct Hfin as [-> | ->]. }
  destruct copyout.
  - destruct Hs1 as (m' & n & f & Hw & ->). simpl.
    destruct Hcase as [?|Hout]; [done|].
    pose proof (uwrite_count _ _ _ _ _ _ Hw) as Hn.
    rewrite length_take in Hn.
    apply (uwrite_outside _ _ _ _ _ _ a Hw). lia.
  - destruct Hs1 as (bs & f & _ & ->). by destruct kva.
Qed.

Lemma kread_kwrite k kva bs s :
  kread k (kwrite kva bs s)
  = if decide (k = kva) then overwrite bs (kread kva s) else kread k s.
Proof.
  destruct k as [cp|], kva as [cp'|]; simpl; try done.
  rewrite getproc_setproc.
  destruct (decide (cp = cp')) as [->|Hne].
  - by rewrite decide_True.
  - rewrite decide_False; [done|congruence].
Qed.

Lemma drop_overwrite n bs buf :
  (length bs ≤ n)%nat → drop n (overwrite bs buf) = drop n buf.
Proof.
  intros Hn. unfold overwrite. rewrite drop_app_ge by done.
  rewrite drop_drop. f_equal. lia.
Qed.

(** A copy changes no kernel buffer but its own, and of its own buffer
    no byte past the size of the copy; a copy to user memory changes
    no kernel buffer at all. *)
Lemma memmove_user_kread copyout kva uva size s k :
  (copyout = true ∨ k ≠ kva →
   kread k (final (memmove_user copyout kva uva size s)) = kread k s)
  ∧ drop (Z.to_nat size)
      (kread k (final (memmove_user copyout kva uva size s)))
    = drop (Z.to_nat size) (kread k s).
Proof.
  destruct (memmove_user_shape copyout kva uva size s)
    as (s1 & ev & Hfin & _ & _ & Hs1).
  assert (kread k (final (memmove_user copyout kva uva size s)) = kread k s1)
    as ->.
  { destruct Hfin as [-> | ->]; by destruct k. }
  destruct copyout.
  - destruct Hs1 as (m' & n & f & _ & ->). by destruct k.
  - destruct Hs1 as (bs & f & Hr & ->).
    replace (kread k (log ev (kwrite kva bs s)))
      with (kread k (kwrite kva bs s)) by (by destruct k).
    rewrite kread_kwrite. split.
    + intros [?|Hne]; [done|]. by rewrite decide_False.
    + destruct (decide (k = kva)) as [->|]; [|done].
      apply drop_overwrite. by eapply uread_count.
Qed.

(** The state that usercopy leaves: the state as it was, or, for a
    block that checkva lets through, the state that the copy leaves,
    up to the recover slot. *)
Lemma usercopy_final utf copyout kva uva size s :
  final (usercopy utf copyout kva uva size s) = s
  ∨ (((uva <? VM_USERLO) || (uva >=? VM_USERHI)
      || (size >=? wrap32 (VM_USERHI - uva))) = false
     ∧ (final (usercopy utf copyout kva uva size s)
        = final (memmove_user copyout kva uva size
                   (set_recover (Some FN_sysrecover) s))
        ∨ final (usercopy utf copyout kva uva size s)
          = set_recover None
              (final (memmove_user copyout kva uva size
                        (set_recover (Some FN_sysrecover) s))))).
Proof.
  unfold usercopy. rewrite bind_eq.
  destruct (checkva_cases utf uva size s) as [[-> Ht]|[-> _]]; [|by left].
  rewrite bind_eq, kget_eq.
  destruct (bool_decide (recover (cur s) = None)); [|by left].
  rewrite bind_eq, assert_true, bind_eq, kmod_eq, bind_eq.
  right. split; [done|].
  destruct (memmove_user _ _ _ _ _) as [[] s1|e s1]; [|by left].
  rewrite bind_eq, kget_eq.
  destruct (bool_decide _); [|by left].
  rewrite bind_eq, assert_true, kmod_eq. by right.
Qed.

(** [X5] usercopy moves at most [size] bytes, and only to or from the
    user address range.  However the call ends, a byte of user memory
    that has changed lies in the block of the call, which is inside
    [VM_USERLO, VM_USERHI), and the call was a copy to user memory; the
    bytes of the kernel buffer past [size] are as they were, every
    other kernel buffer is untouched, and a copy to user memory changes
    no kernel buffer. *)
Theorem usercopy_confined (Hok : config_ok cfg)
    utf copyout kva uva size s :
  u32 uva → u32 size →
  let s' := final (usercopy utf copyout kva uva size s) in
  (∀ a, umem s' a ≠ umem s a →
        copyout = true ∧ uva ≤ a < uva + size
        ∧ VM_USERLO ≤ a < VM_USERHI)
  ∧ drop (Z.to_nat size) (kread kva s') = drop (Z.to_nat size) (kread kva s)
  ∧ (∀ k, copyout = true ∨ k ≠ kva → kread k s' = kread k s).
Proof.
  intros Hu Hs s'.
  destruct (usercopy_final utf copyout kva uva size s) as [H|[Ht H]];
    fold s' in H.
  { rewrite H. done. }
  apply (checkva_test Hok uva size Hu Hs) in Ht.
  set (s0 := set_recover (Some FN_sysrecover) s) in *.
  set (s1 := final (memmove_user copyout kva uva size s0)) in *.
  assert (umem s' = umem s1 ∧ ∀ k, kread k s' = kread k s1) as [Hm Hk].
  { destruct H as [-> | ->]; [done|]. split; [done|]. by intros [cp|]. }
  unfold u32 in *.
  split; [|split].
  - intros a. rewrite Hm. intros Hne.
    destruct copyout.
    2:{ destruct Hne. unfold s1. rewrite memmove_user_umem; [done|by left]. }
    destruct (decide (uva ≤ a < uva + size)) as [Hin|Hout].
    + split; [done|]. lia.
    + destruct Hne. unfold s1. rewrite memmove_user_umem; [done|by right].
  - rewrite Hk. unfold s1.
    by destruct (memmove_user_kread copyout kva uva size s0 kva) as [_ ->].
  - intros k Hcase. rewrite Hk. unfold s1.
    by destruct (memmove_user_kread copyout kva uva size s0 k) as [-> _].
Qed.

End UserMemory.

(** ** User memory under the handlers *)

Section HandlersMemory.
Context {cfg : Config}.

Lemma stable_of_final (I : kstate → Prop) {A} (c : K A) :
  (∀ s, I s → I (final (c s))) → stable I (λ _, True) c.
Proof.
  intros H s Hs. specialize (H s Hs). by destruct (c s).
Qed.

Lemma stable_final (I : kstate → Prop) E {A} (c : K A) s :
  stable I E c → I s → I (final (c s)).
Proof.
  intros H Hs. specialize (H s Hs). destruct (c s); [done|by destruct H].
Qed.

Lemma memmove_in_umem kva uva size s :
  umem (final (memmove_user false kva uva size s)) = umem s.
Proof.
  destruct (memmove_user_shape false kva uva size s)
    as (s1 & ev & Hfin & _ & _ & bs & f & _ & ->).
  destruct Hfin as [-> | ->]; by destruct kva.
Qed.

Lemma usercopy_in_umem utf kva uva size s :
  umem (final (usercopy utf false kva uva size s)) = umem s.
Proof.
  destruct (usercopy_final utf false kva uva size s)
    as [->|[_ [-> | ->]]]; [done| |].
  - by rewrite memmove_in_umem.
  - change (umem (set_recover None ?x)) with (umem x).
    by rewrite memmove_in_umem.
Qed.

Lemma usercopy_umem utf copyout kva uva size s a :
  copyout = false ∨ ¬ (uva ≤ a < uva + size) →
  umem (final (usercopy utf copyout kva uva size s)) a = umem s a.
Proof.
  intros Hcase.
  destruct (usercopy_final utf copyout kva uva size s)
    as [->|[_ [-> | ->]]]; [done| |].
  - by rewrite memmove_user_umem.
  - change (umem (set_recover None ?x)) with (umem x).
    by rewrite memmove_user_umem.
Qed.

(** A usercopy that returns has passed the test of checkva. *)
Lemma usercopy_ok_check utf copyout kva uva size s s1 :
  usercopy utf copyout kva uva size s = Ok tt s1 →
  ((uva <? VM_USERLO) || (uva >=? VM_USERHI)
   || (size >=? wrap32 (VM_USERHI - uva))) = false.
Proof.
  unfold usercopy. rewrite bind_eq.
  by destruct (checkva_cases utf uva size s) as [[-> Ht]|[-> _]].
Qed.

(** A usercopy of a block that passes the test of checkva, entered
    with the recover slot empty, returns when its copy returns. *)
Lemma usercopy_run utf copyout kva uva size s s1 :
  ((uva <? VM_USERLO) || (uva >=? VM_USERHI)
   || (size >=? wrap32 (VM_USERHI - uva))) = false →
  recover (cur s) = None →
  memmove_user copyout kva uva size (set_recover (Some FN_sysrecover) s)
  = Ok tt s1 →
  usercopy utf copyout kva uva size s = Ok tt (set_recover None s1).
Proof.
  intros Ht Hrec Hm. unfold usercopy. rewrite bind_eq.
  destruct (checkva_cases utf uva size s) as [[-> _]|[_ Ht']];
    [|congruence].
  rewrite bind_eq, kget_eq, Hrec, bind_eq. simpl.
  rewrite bind_eq, kmod_eq, bind_eq, Hm, bind_eq, kget_eq.
  destruct (memmove_user_cases copyout kva uva size
              (set_recover (Some FN_sysrecover) s))
    as (s2 & ev & [Hm2 | [e Hm2]] & _ & Hcur & _ & _); rewrite Hm in Hm2.
  - injection Hm2 as <-. by rewrite Hcur.
  - symmetry in Hm2. by apply trap_not_ok in Hm2.
Qed.

(** [X6] What usercopy has copied to user memory, usercopy reads back:
    after a copy of [size] bytes of a kernel buffer to a user address
    that returns, a copy of [size] bytes from the same address returns
    as well, and the bytes it delivers are those of the kernel
    buffer. *)
Theorem usercopy_out_in utf utf' kva uva size s s1 :
  usercopy utf true kva uva size s = Ok tt s1 →
  (Z.to_nat size ≤ length (kread kva s))%nat →
  ∃ s2, usercopy utf' false KBuf uva size s1 = Ok tt s2
        ∧ take (Z.to_nat size) (kbuf s2) = take (Z.to_nat size) (kread kva s).
Proof.
  intros Hout Hlen.
  pose proof (usercopy_ok_check _ _ _ _ _ _ _ Hout) as Ht.
  apply usercopy_ok in Hout as (Hrec & s' & Hm & ->).
  apply memmove_out_ok in Hm as (m' & Hw & ->).
  set (s0 := set_recover (Some FN_sysrecover) s) in *.
  set (Y := take (Z.to_nat size) (kread kva s0)) in *.
  assert (length Y = Z.to_nat size) as HY.
  { unfold Y. rewrite length_take.
    replace (kread kva s0) with (kread kva s) by (by destruct kva). lia. }
  apply uwrite_read_back in Hw. rewrite HY in Hw.
  set (s1 := set_recover None (log (EvWrite uva Y (guarded s0))
                                 (set_umem m' s0))).
  eexists. split.
  - apply usercopy_run; [done|done|]. unfold memmove_user.
    change (umem (set_recover (Some FN_sysrecover) s1)) with m'.
    rewrite Hw. reflexivity.
  - simpl. unfold overwrite. rewrite take_app_length' by done.
    unfold Y. by destruct kva.
Qed.

(** The two copies of a register transfer change no byte of user
    memory outside the block at EBX, which lies in the user address
    range when a byte has changed; and the copies of PUT change none. *)
Lemma regs_copies_umem (Hok : config_ok cfg) tf cmd copyout cp s a :
  u32 (ebx (regs tf)) → u32 (regs_len cmd) →
  copyout = false
  ∨ ¬ (ebx (regs tf) ≤ a < ebx (regs tf) + regs_len cmd
       ∧ VM_USERLO ≤ a < VM_USERHI) →
  umem (final (regs_copies tf cmd copyout cp s)) a = umem s a.
Proof.
  intros Hu Hl Hcase. unfold regs_copies. rewrite bind_eq.
  set (uva := ebx (regs tf)) in *. set (len := regs_len cmd) in *.
  assert (((uva <? VM_USERLO) || (uva >=? VM_USERHI)
           || (len >=? wrap32 (VM_USERHI - uva))) = false →
          copyout = false ∨ ¬ (uva ≤ a < uva + len)) as Hblock.
  { intros Ht. apply (checkva_test Hok uva len Hu Hl) in Ht.
    destruct Hcase as [?|Hout]; [by left|right].
    intros Hin. apply Hout. unfold u32 in *. lia. }
  destruct (usercopy tf copyout (KSv cp) uva len s) as [[] s1|e s1] eqn:Hc.
  - pose proof (usercopy_ok_check _ _ _ _ _ _ _ Hc) as Ht.
    rewrite memmove_user_umem by auto.
    replace s1 with (final (usercopy tf copyout (KSv cp) uva len s))
      by (by rewrite Hc).
    apply usercopy_umem. auto.
  - replace s1 with (final (usercopy tf copyout (KSv cp) uva len s))
      by (by rewrite Hc).
    destruct (usercopy_final tf copyout (KSv cp) uva len s)
      as [->|[Ht _]]; [done|].
    apply usercopy_umem. auto.
Qed.

Lemma put_child_umem tf s : umem (final (put_child tf s)) = umem s.
Proof.
  destruct (put_child_cases tf s) as [[_ ->]|[_ Hc]]; [done|].
  destruct (named_child tf s) as [cp|].
  - by destruct Hc as [[_ ->]|[_ ->]].
  - by destruct Hc
      as [[_ ->]|(n & cp & c & _ & _ & _ & _ & _ & _ & _ & _ & ->)].
Qed.

(** [X7] do_put and do_cputs read user memory and never write it:
    however the call ends, user memory is as it was. *)
Theorem put_cputs_keep_user_memory tf cmd s :
  umem (final (do_put tf cmd s)) = umem s
  ∧ umem (final (do_cputs tf cmd s)) = umem s.
Proof.
  set (I := λ s' : kstate, umem s' = umem s).
  split.
  - rewrite do_put_eq. pose proof (put_child_umem tf s) as Hc.
    destruct (put_child tf s) as [[p cp] s0|e s0]; [|done]. simpl in *.
    apply (stable_final I (λ _, True)); [|done].
    apply stable_put_body; try done.
    intros _. apply stable_of_final. intros s1 Hs1. unfold I in *.
    rewrite <- Hs1. unfold regs_copies. rewrite bind_eq.
    pose proof (usercopy_in_umem tf (KSv cp) (ebx (regs tf)) (regs_len cmd) s1)
      as Hu.
    destruct (usercopy _ _ _ _ _ s1) as [[] s2|e s2]; [|done].
    simpl in Hu. by rewrite memmove_in_umem.
  - apply (stable_final I (λ _, True)); [|done].
    apply stable_do_cputs; try done.
    apply stable_of_final. intros s1 Hs1. unfold I in *.
    by rewrite usercopy_in_umem.
Qed.

(** A GET changes no byte of user memory outside the block of its
    register transfer. *)
Lemma do_get_umem (Hok : config_ok cfg) tf cmd s a :
  u32 (ebx (regs tf)) → u32 (regs_len cmd) →
  ¬ (has cmd SYS_REGS = true
     ∧ ebx (regs tf) ≤ a < ebx (regs tf) + regs_len cmd
     ∧ VM_USERLO ≤ a < VM_USERHI) →
  umem (final (do_get tf cmd s)) a = umem s a.
Proof.
  intros Hu Hl Hout. rewrite do_get_eq.
  set (I := λ s' : kstate, umem s' a = umem s a).
  destruct (get_child_cases tf s) as [[-> _]|[[-> _]|[-> _]]]; [|done..].
  simpl. apply (stable_final I (λ _, True)); [|done].
  apply stable_get_body; try done.
  intros Hregs. apply stable_of_final. intros s1 Hs1. unfold I in *.
  rewrite <- Hs1. apply (regs_copies_umem Hok); [done..|].
  right. intros [H1 H2]. by apply Hout.
Qed.

(** [X8] do_get writes user memory in its register transfer only.
    However the call ends, a byte of user memory that the handler has
    changed lies in the block of regs_len bytes at EBX, inside the user
    address range, and the call had SYS_REGS set. *)
Theorem get_user_memory (Hok : config_ok cfg) tf cmd s a :
  u32 (ebx (regs tf)) → u32 (regs_len cmd) →
  umem (final (do_get tf cmd s)) a ≠ umem s a →
  has cmd SYS_REGS = true
  ∧ ebx (regs tf) ≤ a < ebx (regs tf) + regs_len cmd
  ∧ VM_USERLO ≤ a < VM_USERHI.
Proof.
  intros Hu Hl Hne.
  destruct (decide (has cmd SYS_REGS = true
                    ∧ ebx (regs tf) ≤ a < ebx (regs tf) + regs_len cmd
                    ∧ VM_USERLO ≤ a < VM_USERHI)) as [Hin|Hout]; [done|].
  destruct Hne. by apply (do_get_umem Hok).
Qed.

(** [X9] A GET with SYS_REGS and no memory operation that completes
    delivers the saved registers of the child: afterwards the regs_len
    bytes of user memory at EBX are the first regs_len bytes of the
    save-area of the child named by EDX (of proc_null for an empty
    slot). *)
Theorem get_regs_delivers tf cmd s tf' s' :
  let cp := default proc_null (named_child tf s) in
  has cmd SYS_REGS = true → Z.land cmd SYS_MEMOP = 0 →
  (Z.to_nat (regs_len cmd) ≤ length (sv (getproc s cp)))%nat →
  do_get tf cmd s = Exit (ETrapReturn tf') s' →
  uread (umem s') (ebx (regs tf)) (Z.to_nat (regs_len cmd))
  = (take (Z.to_nat (regs_len cmd)) (sv (getproc s cp)), None).
Proof.
  intros cp Hregs _ Hlen Hget.
  apply do_get_ok in Hget as (s1 & Hg & Htail).
  assert (cp = match child (getproc s (cpu_proc (cur s)))
                     !! Z.land (edx (regs tf)) 255 with
               | Some cp => cp
               | None => proc_null
               end) as Hcp.
  { unfold cp, named_child, child_slot. by destruct (_ !! _). }
  rewrite <- Hcp in Hg, Htail.
  set (p := cpu_proc (cur s)) in *.
  set (len := Z.to_nat (regs_len cmd)) in *.
  assert (umem s' = umem s1) as ->.
  { pose proof (stable_final (λ s2, umem s2 = umem s1) (λ _, True)
                  (get_tail tf cmd p cp) s1) as Hst.
    unfold get_tail in Hst. rewrite Htail in Hst. apply Hst; [|done].
    by apply stable_get_tail. }
  revert Hg. unfold get_regs. rewrite Hregs. simpl. rewrite bind_eq.
  destruct (usercopy _ _ _ _ _ s) as [[] s2|e s2] eqn:Hu; [|done].
  apply usercopy_ok in Hu as (Hrec & s3 & Hm & ->).
  apply memmove_out_ok in Hm as (m1 & _ & ->).
  intros Hm2. apply memmove_out_ok in Hm2 as (m2 & Hw & ->).
  simpl in *. apply uwrite_read_back in Hw.
  by rewrite length_take, Nat.min_l in Hw by done.
Qed.

End HandlersMemory.

(** ** The child that a call names *)

Section Child.
Context {cfg : Config}.

(** [X10] A PUT or GET on a child that is not stopped has no effect
    before the caller waits: with the caller running on this CPU and
    the slot named by EDX holding a child that is not in state STOP,
    the call ends in proc_wait for the caller and that child, with the
    trapframe of the call and the kernel state untouched. *)
Theorem busy_child_waits tf cmd s cp :
  caller_runs s → named_child tf s = Some cp →
  state (getproc s cp) ≠ PROC_STOP →
  do_put tf cmd s = Exit (EProcWait (cpu_proc (cur s)) cp tf) s
  ∧ do_get tf cmd s = Exit (EProcWait (cpu_proc (cur s)) cp tf) s.
Proof.
  intros Hrun Hslot Hst. split.
  - rewrite do_put_eq.
    destruct (put_child_cases tf s) as [[Hn _]|[_ Hc]]; [done|].
    rewrite Hslot in Hc. by destruct Hc as [[Hstop _]|[_ ->]].
  - rewrite do_get_eq. pose proof (get_child_cases tf s) as Hc.
    unfold named_child, child_slot in Hslot. simpl in Hc.
    rewrite Hslot in Hc.
    by destruct Hc as [[_ Hstop]|[[_ Hn]|[-> _]]].
Qed.

(** [X11] A GET changes nothing of any process but the page map of the
    caller, whatever its flags and however it ends: every other
    process, the child among them, is as it was; of the caller, the
    state, the save-area, the reference page map, the child table, the
    parent and the CPU are as they were; and no page is allocated. *)
Theorem get_changes_caller_pmap_only tf cmd s q :
  let s' := final (do_get tf cmd s) in
  nfree s' = nfree s
  ∧ getproc s' q = set_pdir (pdir (getproc s' q)) (getproc s q)
  ∧ (q ≠ cpu_proc (cur s) → getproc s' q = getproc s q).
Proof.
  intros s'. destruct (do_get_frame tf cmd s) as [Hn Hq].
  split; [done|]. apply Hq.
Qed.

Lemma memmove_user_getproc copyout kva uva size s q :
  copyout = true ∨ kva ≠ KSv q →
  getproc (final (memmove_user copyout kva uva size s)) q = getproc s q.
Proof.
  intros Hcase.
  destruct (memmove_user_shape copyout kva uva size s)
    as (s1 & ev & Hfin & _ & _ & Hs1).
  assert (getproc (final (memmove_user copyout kva uva size s)) q
          = getproc s1 q) as ->.
  { by destruct Hfin as [-> | ->]. }
  destruct copyout.
  - by destruct Hs1 as (m' & n & f & _ & ->).
  - destruct Hs1 as (bs & f & _ & ->).
    destruct Hcase as [?|Hne]; [done|].
    destruct kva as [cp|]; [|done].
    rewrite getproc_log. simpl. rewrite getproc_setproc, decide_False; [done|].
    congruence.
Qed.

Lemma usercopy_getproc utf copyout kva uva size s q :
  copyout = true ∨ kva ≠ KSv q →
  getproc (final (usercopy utf copyout kva uva size s)) q = getproc s q.
Proof.
  intros Hcase.
  destruct (usercopy_final utf copyout kva uva size s)
    as [->|[_ [-> | ->]]]; [done| |].
  - by rewrite memmove_user_getproc.
  - rewrite getproc_set_recover. by rewrite memmove_user_getproc.
Qed.

(** From the register transfer on, a PUT writes no proc structure but
    that of the child. *)
Lemma put_body_getproc tf cmd p cp s q :
  q ≠ cp → getproc (final (put_body tf cmd p cp s)) q = getproc s q.
Proof.
  intros Hq.
  apply (stable_final (λ s', getproc s' q = getproc s q) (λ _, True));
    [|done].
  apply stable_put_body; try done.
  - intros v s1 Hs1. by rewrite getproc_setproc, decide_False.
  - intros _. apply stable_of_final. intros s1 Hs1. rewrite <- Hs1.
    unfold regs_copies. rewrite bind_eq.
    pose proof (usercopy_getproc tf false (KSv cp) (ebx (regs tf))
                  (regs_len cmd) s1 q) as Hu.
    destruct (usercopy _ _ _ _ _ s1) as [[] s2|e s2]; cbv beta iota.
    + rewrite memmove_user_getproc by (right; congruence).
      apply Hu. right. congruence.
    + apply Hu. right. congruence.
Qed.

(** [X12] A PUT changes no process but the child it names, and of the
    caller nothing but the entry of that child: however the call ends,
    a process that is neither the caller nor in the named slot of the
    caller afterwards is as it was; the state, the save-area, the page
    maps, the parent and the CPU of the caller are as they were, and so
    is every other slot of its child table; and the named slot itself
    changes only when it was empty. *)
Theorem put_touches_child_only tf cmd s :
  let p := cpu_proc (cur s) in
  let s' := final (do_put tf cmd s) in
  (∀ q, q ≠ p → child (getproc s' p) !! child_slot tf ≠ Some q →
        getproc s' q = getproc s q)
  ∧ state (getproc s' p) = state (getproc s p)
  ∧ sv (getproc s' p) = sv (getproc s p)
  ∧ pdir (getproc s' p) = pdir (getproc s p)
  ∧ rpdir (getproc s' p) = rpdir (getproc s p)
  ∧ parent (getproc s' p) = parent (getproc s p)
  ∧ runcpu (getproc s' p) = runcpu (getproc s p)
  ∧ (∀ cn, cn ≠ child_slot tf →
           child (getproc s' p) !! cn = child (getproc s p) !! cn)
  ∧ (is_Some (named_child tf s) →
     child (getproc s' p) = child (getproc s p)).
Proof.
  intros p s'. unfold s'. rewrite do_put_eq.
  destruct (put_child_cases tf s) as [[_ ->]|[Hrun Hc]]; [done|].
  fold p in Hc. destruct (named_child tf s) as [cp|] eqn:Hslot.
  - destruct Hc as [[Hst ->]|[_ ->]]; [|done]. simpl.
    assert (cp ≠ p) as Hne.
    { intros ->. destruct Hrun as [Hrun _]. fold p in Hrun. congruence. }
    pose proof (put_body_getproc tf cmd p cp s) as Hbody.
    rewrite (Hbody p) by done.
    split; [|done]. intros q Hq Hs. apply Hbody. intros ->.
    by apply Hs.
  - destruct Hc
      as [[_ ->]|(n & cp & c & _ & Hne & _ & Hfresh & _ & _ & _ & _ & ->)];
      [by split; [|repeat split; try done; by intros [??]]|].
    simpl.
    set (s0 := setproc p (set_child (child_slot tf) cp (getproc s p))
                 (setproc cp c (set_nfree n s))).
    pose proof (put_body_getproc tf cmd p cp s0) as Hbody.
    assert (getproc s0 p = set_child (child_slot tf) cp (getproc s p)) as Hp.
    { unfold s0. by rewrite getproc_setproc_eq. }
    rewrite (Hbody p), Hp by done. simpl.
    split.
    + intros q Hq Hs. rewrite lookup_insert_eq in Hs.
      rewrite Hbody by congruence. unfold s0.
      rewrite getproc_setproc, decide_False by done.
      rewrite getproc_setproc, decide_False by congruence. done.
    + repeat split; try done;
        try (intros cn Hcn; by rewrite lookup_insert_ne);
        try (by intros [??]).
Qed.

End Child.

(** ** Calls that are rejected *)

Section Rejected.
Context {cfg : Config}.

(** An address or size that is aligned to a page table is aligned to a
    page, when the offset mask of a page lies within that of a page
    table. *)
Lemma bad_region_pg va size :
  Z.land (PTSIZE - 1) (PGSIZE - 1) = PGSIZE - 1 →
  bad_region PTOFF va size = false → bad_region PGOFF va size = false.
Proof.
  intros Hmask. unfold bad_region.
  rewrite !orb_false_iff, !negb_false_iff, !Z.eqb_eq.
  assert (∀ x, PTOFF x = 0 → PGOFF x = 0) as Hoff.
  { intros x Hx. unfold PTOFF, PGOFF in *.
    by rewrite <- Hmask, Z.land_assoc, Hx, Z.land_0_l. }
  intros [[[[H1 H2] H3] H4] H5]. auto 10.
Qed.

(** The memory operation of PUT: rejected with the state untouched, or
    none asked for, or carried out on a destination region that has
    passed the check. *)
Lemma put_memop_cases tf cmd p cp s :
  put_memop tf cmd p cp s = Exit (EProcRet (set_trap tf T_GPFLT 0) 0) s
  ∨ (put_memop tf cmd p cp s = Ok tt s ∧ Z.land cmd SYS_MEMOP = 0)
  ∨ (∃ s1, put_memop tf cmd p cp s = Ok tt s1
           ∧ bad_region PTOFF (edi (regs tf)) (ecx (regs tf)) = false).
Proof.
  unfold put_memop.
  destruct (Z.land cmd SYS_MEMOP =? 0) eqn:H0.
  { right; left. by apply Z.eqb_eq in H0. }
  destruct ((Z.land cmd SYS_MEMOP =? SYS_COPY)
            || (Z.land cmd SYS_MEMOP =? SYS_ZERO)); [|by left].
  rewrite bind_eq.
  destruct ((Z.land cmd SYS_MEMOP =? SYS_COPY)
            && bad_region PTOFF (esi (regs tf)) (ecx (regs tf)));
    [by left|].
  simpl. rewrite bind_eq.
  destruct (bad_region PTOFF (edi (regs tf)) (ecx (regs tf))); [by left|].
  simpl. right; right.
  destruct (Z.land cmd SYS_MEMOP =? SYS_ZERO); [by eexists|].
  destruct (Z.land cmd SYS_MEMOP =? SYS_COPY); by eexists.
Qed.

Lemma get_memop_cases tf cmd p cp s :
  get_memop tf cmd p cp s = Exit (EProcRet (set_trap tf T_GPFLT 0) 0) s
  ∨ (get_memop tf cmd p cp s = Ok tt s ∧ Z.land cmd SYS_MEMOP = 0)
  ∨ (∃ s1, get_memop tf cmd p cp s = Ok tt s1
           ∧ bad_region PTOFF (edi (regs tf)) (ecx (regs tf)) = false).
Proof.
  unfold get_memop.
  destruct (Z.land cmd SYS_MEMOP =? 0) eqn:H0.
  { right; left. by apply Z.eqb_eq in H0. }
  destruct ((Z.land cmd SYS_MEMOP =? SYS_COPY)
            || (Z.land cmd SYS_MEMOP =? SYS_MERGE)
            || (Z.land cmd SYS_MEMOP =? SYS_ZERO)); [|by left].
  rewrite bind_eq.
  destruct (((Z.land cmd SYS_MEMOP =? SYS_COPY)
             || (Z.land cmd SYS_MEMOP =? SYS_MERGE))
            && bad_region PTOFF (esi (regs tf)) (ecx (regs tf)));
    [by left|].
  simpl. rewrite bind_eq.
  destruct (bad_region PTOFF (edi (regs tf)) (ecx (regs tf))); [by left|].
  simpl. right; right.
  destruct (Z.land cmd SYS_MEMOP =? SYS_ZERO); [by eexists|].
  destruct (Z.land cmd SYS_MEMOP =? SYS_COPY); [by eexists|].
  destruct (Z.land cmd SYS_MEMOP =? SYS_MERGE); by eexists.
Qed.

(** The permission step: not asked for; rejected with the state
    untouched, the region having failed the check; a panic for lack of
    memory; or carried out. *)
Lemma do_pmap_setperm_cases q dva size perm msg s :
  do_pmap_setperm q dva size perm msg s = Exit (EPanic msg) s
  ∨ ∃ s1, do_pmap_setperm q dva size perm msg s = Ok tt s1.
Proof.
  unfold do_pmap_setperm. rewrite bind_eq, kget_eq.
  destruct (pmap_setperm_ok s size); [right; by eexists|by left].
Qed.

Lemma put_perm_cases tf cmd cp s :
  (put_perm tf cmd cp s = Ok tt s ∧ has cmd SYS_PERM = false)
  ∨ (has cmd SYS_PERM = true
     ∧ ((put_perm tf cmd cp s = Exit (EProcRet (set_trap tf T_GPFLT 0) 0) s
         ∧ bad_region PGOFF (edi (regs tf)) (ecx (regs tf)) = true)
        ∨ (bad_region PGOFF (edi (regs tf)) (ecx (regs tf)) = false
           ∧ (put_perm tf cmd cp s
              = Exit (EPanic "pmap_put: no memory to set permissions") s
              ∨ ∃ s1, put_perm tf cmd cp s = Ok tt s1)))).
Proof.
  unfold put_perm. destruct (has cmd SYS_PERM); [right|by left].
  split; [done|]. simpl. rewrite bind_eq.
  destruct (bad_region PGOFF _ _); [by left|right]. split; [done|].
  simpl. apply do_pmap_setperm_cases.
Qed.

Lemma get_perm_cases tf cmd p s :
  (get_perm tf cmd p s = Ok tt s ∧ has cmd SYS_PERM = false)
  ∨ (has cmd SYS_PERM = true
     ∧ ((get_perm tf cmd p s = Exit (EProcRet (set_trap tf T_GPFLT 0) 0) s
         ∧ bad_region PGOFF (edi (regs tf)) (ecx (regs tf)) = true)
        ∨ (bad_region PGOFF (edi (regs tf)) (ecx (regs tf)) = false
           ∧ (get_perm tf cmd p s
              = Exit (EPanic "pmap_get: no memory to set permissions") s
              ∨ ∃ s1, get_perm tf cmd p s = Ok tt s1)))).
Proof.
  unfold get_perm. destruct (has cmd SYS_PERM); [right|by left].
  split; [done|]. simpl. rewrite bind_eq.
  destruct (bad_region PGOFF _ _); [by left|right]. split; [done|].
  simpl. apply do_pmap_setperm_cases.
Qed.

(** After the permission step a PUT completes. *)
Lemma put_finish tf cmd cp s :
  ∃ s', (put_snap cmd cp ;; when (has cmd SYS_START) (proc_ready cp) ;;
         (trap_return tf : K unit)) s = Exit (ETrapReturn tf) s'.
Proof.
  unfold put_snap, proc_ready, modproc.
  destruct (has cmd SYS_SNAP), (has cmd SYS_START); by eexists.
Qed.

(** From the memory operation on, a PUT that reflects a trap has not
    touched the state. *)
Lemma put_tail_reflects tf cmd p cp s tf' n s' :
  Z.land (PTSIZE - 1) (PGSIZE - 1) = PGSIZE - 1 →
  put_tail tf cmd p cp s = Exit (EProcRet tf' n) s' → s' = s.
Proof.
  intros Hmask. unfold put_tail. rewrite bind_eq.
  assert (∀ s1, bad_region PGOFF (edi (regs tf)) (ecx (regs tf)) = false
                ∨ s1 = s →
    (put_perm tf cmd cp ;; put_snap cmd cp ;;
     when (has cmd SYS_START) (proc_ready cp) ;; (trap_return tf : K unit)) s1
    = Exit (EProcRet tf' n) s' → s' = s) as Hperm.
  { intros s1 Hs1. rewrite bind_eq.
    destruct (put_perm_cases tf cmd cp s1)
      as [[-> _]|[_ [[-> Hb]|[_ [-> |[s2 ->]]]]]]; try done.
    - destruct (put_finish tf cmd cp s1) as [s2 ->]. done.
    - destruct Hs1 as [Hg| ->]; [congruence|]. by intros [= _ _ <-].
    - destruct (put_finish tf cmd cp s2) as [s3 ->]. done. }
  destruct (put_memop_cases tf cmd p cp s)
    as [-> |[[-> _]|(s1 & -> & Hb)]].
  - by intros [= _ _ <-].
  - apply Hperm. by right.
  - apply Hperm. left. by apply bad_region_pg.
Qed.

Lemma get_tail_reflects tf cmd p cp s tf' n s' :
  Z.land (PTSIZE - 1) (PGSIZE - 1) = PGSIZE - 1 →
  has cmd SYS_SNAP = false →
  get_tail tf cmd p cp s = Exit (EProcRet tf' n) s' → s' = s.
Proof.
  intros Hmask Hsnap. unfold get_tail. rewrite bind_eq.
  assert (∀ s1, bad_region PGOFF (edi (regs tf)) (ecx (regs tf)) = false
                ∨ s1 = s →
    (get_perm tf cmd p ;; get_snap tf cmd ;; (trap_return tf : K unit)) s1
    = Exit (EProcRet tf' n) s' → s' = s) as Hperm.
  { intros s1 Hs1. rewrite bind_eq. unfold get_snap. rewrite Hsnap.
    destruct (get_perm_cases tf cmd p s1)
      as [[-> _]|[_ [[-> Hb]|[_ [-> |[s2 ->]]]]]]; try done.
    destruct Hs1 as [Hg| ->]; [congruence|]. by intros [= _ _ <-]. }
  destruct (get_memop_cases tf cmd p cp s)
    as [-> |[[-> _]|(s1 & -> & Hb)]].
  - by intros [= _ _ <-].
  - apply Hperm. by right.
  - apply Hperm. left. by apply bad_region_pg.
Qed.

(** [X13] A PUT that is rejected has changed no address space.  With
    the offset mask of a page within that of a page table (both sizes
    are powers of two, pages the smaller), a call of do_put that ends
    by reflecting a trap to the parent, whichever the trap, leaves the
    page maps and the reference page maps of all processes as they
    were, and has performed no page-map operation.  The same holds of a
    call of do_get without SYS_SNAP. *)
Theorem rejected_call_keeps_pmaps tf cmd s tf' n s' :
  Z.land (PTSIZE - 1) (PGSIZE - 1) = PGSIZE - 1 →
  (do_put tf cmd s = Exit (EProcRet tf' n) s' → same_pmaps s s')
  ∧ (has cmd SYS_SNAP = false →
     do_get tf cmd s = Exit (EProcRet tf' n) s' → same_pmaps s s').
Proof.
  intros Hmask. split.
  - rewrite do_put_eq.
    pose proof (keeps_put_child same_pmaps tf keeps_same_pmaps_proc_alloc s)
      as Hc.
    destruct (put_child tf s) as [[p cp] s0|e s0]; simpl in *;
      [|by intros [= _ <-]].
    unfold put_body. rewrite bind_eq.
    pose proof (keeps_put_regs same_pmaps tf cmd cp s0) as Hr.
    destruct (put_regs tf cmd cp s0) as [[] s1|e s1]; simpl in *.
    + intros Ht. apply put_tail_reflects in Ht as ->; [|done].
      by transitivity s0.
    + intros [= _ <-]. by transitivity s0.
  - intros Hsnap. rewrite do_get_eq.
    pose proof (keeps_get_child same_pmaps tf s) as Hc.
    destruct (get_child tf s) as [[p cp] s0|e s0]; simpl in *;
      [|by intros [= _ <-]].
    unfold get_body. rewrite bind_eq.
    pose proof (keeps_get_regs same_pmaps tf cmd cp s0) as Hr.
    destruct (get_regs tf cmd cp s0) as [[] s1|e s1]; simpl in *.
    + intros Ht. apply get_tail_reflects in Ht as ->; [|done..].
      by transitivity s0.
    + intros [= _ <-]. by transitivity s0.
Qed.

Lemma do_put_from_perm tf cmd s p cp s1 :
  put_before_perm tf cmd s = Ok (p, cp) s1 →
  do_put tf cmd s
  = (put_perm tf cmd cp ;; put_snap cmd cp ;;
     when (has cmd SYS_START) (proc_ready cp) ;; trap_return tf) s1.
Proof.
  unfold put_before_perm, do_put. rewrite !bind_eq.
  destruct (put_child tf s) as [[p' cp'] s0|e s0]; [|done]. simpl.
  rewrite !bind_eq.
  destruct (put_regs tf cmd cp' s0) as [[] s2|e s2]; [|done].
  rewrite !bind_eq.
  destruct (put_memop tf cmd p' cp' s2) as [[] s3|e s3]; [|done].
  intros [= -> -> ->]. reflexivity.
Qed.

Lemma do_get_from_perm tf cmd s p cp s1 :
  get_before_perm tf cmd s = Ok (p, cp) s1 →
  do_get tf cmd s
  = (get_perm tf cmd p ;; get_snap tf cmd ;; trap_return tf) s1.
Proof.
  unfold get_before_perm, do_get. rewrite !bind_eq.
  destruct (get_child tf s) as [[p' cp'] s0|e s0]; [|done]. simpl.
  rewrite !bind_eq.
  destruct (get_regs tf cmd cp' s0) as [[] s2|e s2]; [|done].
  rewrite !bind_eq.
  destruct (get_memop tf cmd p' cp' s2) as [[] s3|e s3]; [|done].
  intros [= -> -> ->]. reflexivity.
Qed.

(** [X14] The permission step of PUT and GET checks the region at EDI
    of ECX bytes for alignment to a page, not to a page table, and for
    lying in the user address range, computed without wrap-around.  A
    call with SYS_PERM that gets as far as this step and whose region
    fails the check reflects T_GPFLT to the parent, with the state as
    the step found it.  When the region passes, the step reflects no
    trap: it sets the permissions, or the kernel panics for lack of
    memory. *)
Theorem perm_validation (Hok : config_ok cfg) tf cmd :
  let dva := edi (regs tf) in
  let size := ecx (regs tf) in
  u32 dva → u32 size → has cmd SYS_PERM = true →
  (¬ region_ok PGOFF dva size →
   (∀ s p cp s1, put_before_perm tf cmd s = Ok (p, cp) s1 →
      do_put tf cmd s = Exit (EProcRet (set_trap tf T_GPFLT 0) 0) s1)
   ∧ (∀ s p cp s1, get_before_perm tf cmd s = Ok (p, cp) s1 →
        do_get tf cmd s = Exit (EProcRet (set_trap tf T_GPFLT 0) 0) s1))
  ∧ (region_ok PGOFF dva size →
     (∀ s cp e s', put_perm tf cmd cp s = Exit e s' →
        e = EPanic "pmap_put: no memory to set permissions" ∧ s' = s)
     ∧ (∀ s p e s', get_perm tf cmd p s = Exit e s' →
          e = EPanic "pmap_get: no memory to set permissions" ∧ s' = s)).
Proof.
  intros dva size Hd Hs Hperm. split.
  - intros Hbad.
    assert (bad_region PGOFF dva size = true) as Hb.
    { destruct (bad_region PGOFF dva size) eqn:Hb; [done|].
      by apply (bad_region_spec Hok) in Hb. }
    unfold dva, size in Hb.
    split; intros s p cp s1 Hpre.
    + rewrite (do_put_from_perm _ _ _ _ _ _ Hpre). apply bind_exit.
      destruct (put_perm_cases tf cmd cp s1)
        as [[_ ?]|[_ [[-> _]|[? _]]]]; [congruence|done|congruence].
    + rewrite (do_get_from_perm _ _ _ _ _ _ Hpre). apply bind_exit.
      destruct (get_perm_cases tf cmd p s1)
        as [[_ ?]|[_ [[-> _]|[? _]]]]; [congruence|done|congruence].
  - intros Hgood. apply (bad_region_spec Hok) in Hgood; [|done..].
    unfold dva, size in Hgood.
    split.
    + intros s cp e s'.
      destruct (put_perm_cases tf cmd cp s)
        as [[-> _]|[_ [[_ Hb]|[_ [-> |[s2 ->]]]]]]; try done.
      * congruence.
      * by intros [= <- <-].
    + intros s p e s'.
      destruct (get_perm_cases tf cmd p s)
        as [[-> _]|[_ [[_ Hb]|[_ [-> |[s2 ->]]]]]]; try done.
      * congruence.
      * by intros [= <- <-].
Qed.

End Rejected.

(** ** The saved registers of a child after PUT *)

Section SavedRegs.
Context {cfg : Config}.

Lemma land_lor_same a b : Z.land (Z.lor a b) b = b.
Proof.
  apply Z.bits_inj'. intros n Hn. rewrite Z.land_spec, Z.lor_spec.
  by destruct (Z.testbit a n), (Z.testbit b n).
Qed.

Lemma land_masked_outside e u f :
  Z.land (Z.lor (Z.land e u) f) (Z.lnot (Z.lor u f)) = 0.
Proof.
  apply Z.bits_inj'. intros n Hn.
  rewrite Z.land_spec, Z.lor_spec, Z.land_spec, Z.lnot_spec, Z.lor_spec,
    Z.bits_0 by done.
  by destruct (Z.testbit e n), (Z.testbit u n), (Z.testbit f n).
Qed.

Lemma length_forced b : length (forced b) = length b.
Proof. unfold forced. by rewrite !length_store. Qed.

(** The rewrite leaves the bytes after the integer registers alone. *)
Lemma drop_forced (Hok : config_ok cfg) b :
  procstate_fx ≤ Z.of_nat (length b) →
  drop (Z.to_nat procstate_fx) (forced b) = drop (Z.to_nat procstate_fx) b.
Proof.
  intros Hlen. destruct (forced_spec Hok b Hlen) as [Hother _].
  apply list_eq. intros i. rewrite !lookup_drop. apply Hother.
  destruct Hok. unfold in_forced_field. lia.
Qed.

(** A PUT with SYS_REGS that completes: the save-area of the child is
    the rewrite of the bytes read at EBX, laid over what the save-area
    held. *)
Lemma do_put_regs_ok tf cmd s tf' s' :
  has cmd SYS_REGS = true →
  do_put tf cmd s = Exit (ETrapReturn tf') s' →
  ∃ cp s0 X,
    put_child tf s = Ok (cpu_proc (cur s), cp) s0
    ∧ child (getproc s' (cpu_proc (cur s))) !! child_slot tf = Some cp
    ∧ uread (umem s) (ebx (regs tf)) (Z.to_nat (regs_len cmd)) = (X, None)
    ∧ sv (getproc s' cp) = forced (overwrite X (sv (getproc s0 cp))).
Proof.
  intros Hregs Hput.
  apply do_put_ok in Hput as (p & cp & s0 & s1 & Hc & Hr & Htail).
  pose proof Hc as Hc'.
  apply put_child_ok in Hc' as (-> & Hslot & _ & _ & Hmem & _).
  destruct (put_regs_ok _ _ _ _ _ Hregs Hr) as (X & HX & Hsv & _ & _).
  rewrite Hmem in HX.
  pose proof (keeps_put_regs same_tree tf cmd cp s0) as [_ Ht1].
  rewrite Hr in Ht1. simpl in Ht1.
  pose proof (keeps_put_tail same_regs tf cmd (cpu_proc (cur s)) cp s1)
    as [_ Ht2].
  rewrite Htail in Ht2. simpl in Ht2.
  exists cp, s0, X. split; [done|]. split.
  { destruct (Ht2 (cpu_proc (cur s))) as [-> _]. by rewrite Ht1. }
  split; [done|]. destruct (Ht2 cp) as [_ ->]. done.
Qed.

(** [X15] Whatever register state a caller supplies, the child of a
    PUT with SYS_REGS that completes cannot run with kernel privilege.
    In the saved trapframe of the child, the selectors cs, ds, es and
    ss have requested privilege level 3; in eflags the interrupt flag
    is set and no bit is set outside FL_USER and FL_IF (so none of
    IOPL, NT, VM and the like). *)
Theorem put_regs_user_mode (Hok : config_ok cfg) tf cmd s tf' s' :
  has cmd SYS_REGS = true →
  do_put tf cmd s = Exit (ETrapReturn tf') s' →
  ∃ cp,
    child (getproc s' (cpu_proc (cur s))) !! child_slot tf = Some cp
    ∧ Z.land (load off_cs 2 (sv (getproc s' cp))) 3 = 3
    ∧ Z.land (load off_ds 2 (sv (getproc s' cp))) 3 = 3
    ∧ Z.land (load off_es 2 (sv (getproc s' cp))) 3 = 3
    ∧ Z.land (load off_ss 2 (sv (getproc s' cp))) 3 = 3
    ∧ Z.land (load off_eflags 4 (sv (getproc s' cp))) FL_IF = FL_IF
    ∧ Z.land (load off_eflags 4 (sv (getproc s' cp)))
        (Z.lnot (Z.lor FL_USER FL_IF)) = 0.
Proof.
  intros Hregs Hput.
  destruct (do_put_regs_ok _ _ _ _ _ Hregs Hput)
    as (cp & s0 & X & _ & Hslot & HX & Hsv).
  exists cp. split; [done|]. rewrite Hsv.
  set (B := overwrite X (sv (getproc s0 cp))).
  pose proof (uread_ok_length _ _ _ _ HX) as HlenX.
  pose proof (regs_len_bound Hok cmd) as [Hb1 Hfx].
  pose proof (length_overwrite X (sv (getproc s0 cp))) as HlenB.
  fold B in HlenB.
  assert (procstate_fx ≤ Z.of_nat (length B)) as HB by lia.
  destruct (forced_spec Hok B HB) as (_ & -> & -> & -> & -> & ->).
  rewrite !land_lor_same. repeat (split; [done|]).
  apply land_masked_outside.
Qed.

(** [X16] A PUT with SYS_REGS and without SYS_FPU transfers the integer
    registers only: when such a call on an existing child completes,
    the bytes of the save-area of the child from offsetof(procstate,
    fx) on, the floating-point state, are as they were. *)
Theorem put_regs_keeps_fpu (Hok : config_ok cfg) tf cmd s cp tf' s' :
  has cmd SYS_REGS = true → has cmd SYS_FPU = false →
  named_child tf s = Some cp →
  do_put tf cmd s = Exit (ETrapReturn tf') s' →
  drop (Z.to_nat procstate_fx) (sv (getproc s' cp))
  = drop (Z.to_nat procstate_fx) (sv (getproc s cp)).
Proof.
  intros Hregs Hfpu Hnamed Hput.
  destruct (do_put_regs_ok _ _ _ _ _ Hregs Hput)
    as (cp' & s0 & X & Hc & _ & HX & Hsv).
  destruct (put_child_cases tf s) as [[_ Hc']|[_ Hc']]; [congruence|].
  rewrite Hnamed in Hc'. destruct Hc' as [[_ Hc']|[_ Hc']]; [|congruence].
  rewrite Hc in Hc'. injection Hc' as -> ->.
  rewrite Hsv.
  pose proof (uread_ok_length _ _ _ _ HX) as HlenX.
  unfold regs_len in HlenX. rewrite Hfpu in HlenX.
  pose proof (length_overwrite X (sv (getproc s cp))) as HlenB.
  pose proof Hok as [].
  rewrite drop_forced by (done || lia).
  apply drop_overwrite. lia.
Qed.

End SavedRegs.

(** ** The state of the child after PUT *)

Global Instance same_states_preorder : PreOrder same_states.
Proof.
  split.
  - by intros s q.
  - intros s1 s2 s3 H1 H2 q. by rewrite H2, H1.
Qed.

Global Instance same_states_framesv : FrameSv same_states.
Proof.
  split; [split; [apply _|..]|]; try done.
  intros cp b s q. rewrite getproc_setproc.
  by destruct (decide (q = cp)) as [->|].
Qed.

Global Instance same_states_framepm : FramePm same_states.
Proof.
  split; [apply _|..]; try done;
    intros q0 m s q; rewrite getproc_setproc;
    by destruct (decide (q = q0)) as [->|].
Qed.

Section Start.
Context {cfg : Config}.

Lemma keeps_same_states_proc_alloc p cn : keeps same_states (proc_alloc p cn).
Proof.
  intros s.
  destruct (proc_alloc_cases p cn s)
    as [[_ ->]|(n & cp & c & -> & _ & Hp & _ & Hcp & Hst & _)];
    [reflexivity|].
  simpl. intros q. rewrite !getproc_setproc.
  destruct (decide (q = p)) as [->|Hq]; [done|].
  destruct (decide (q = cp)) as [->|Hq']; [|done].
  rewrite Hst. unfold getproc. simpl. by rewrite Hcp.
Qed.

(** [X17] do_put starts the child only when asked to.  When a PUT
    completes, the child in the slot named by EDX is in state READY if
    SYS_START was given and in state STOP otherwise, and every other
    process is in the state it was in. *)
Theorem put_start tf cmd s tf' s' :
  do_put tf cmd s = Exit (ETrapReturn tf') s' →
  ∃ cp,
    child (getproc s' (cpu_proc (cur s))) !! child_slot tf = Some cp
    ∧ state (getproc s' cp)
      = (if has cmd SYS_START then PROC_READY else PROC_STOP)
    ∧ ∀ q, q ≠ cp → state (getproc s' q) = state (getproc s q).
Proof.
  intros Hput.
  apply do_put_ok in Hput as (p & cp & s0 & s1 & Hc & Hr & Htail).
  pose proof (keeps_put_child same_states tf keeps_same_states_proc_alloc s)
    as Hs0.
  rewrite Hc in Hs0. simpl in Hs0.
  apply put_child_ok in Hc as (-> & Hslot & Hstop & _).
  pose proof (keeps_put_regs same_tree tf cmd cp s0) as [_ Ht1].
  pose proof (keeps_put_regs same_states tf cmd cp s0) as Hs1.
  rewrite Hr in Ht1, Hs1. simpl in Ht1, Hs1.
  pose proof (keeps_put_tail same_tree tf cmd (cpu_proc (cur s)) cp s1)
    as [_ Ht2].
  rewrite Htail in Ht2. simpl in Ht2.
  exists cp. split; [by rewrite Ht2, Ht1|].
  revert Htail. rewrite bind_eq.
  pose proof (keeps_put_memop same_states tf cmd (cpu_proc (cur s)) cp s1)
    as Hs2.
  destruct (put_memop _ _ _ _ s1) as [[] s2|e s2] eqn:Hm.
  2:{ intros [= -> ->].
      by apply (ends_put_memop (λ e, is_trap_return e = false)) in Hm. }
  rewrite bind_eq.
  pose proof (keeps_put_perm same_states tf cmd cp s2) as Hs3.
  destruct (put_perm _ _ _ s2) as [[] s3|e s3] eqn:Hp.
  2:{ intros [= -> ->].
      by apply (ends_put_perm (λ e, is_trap_return e = false)) in Hp. }
  rewrite bind_eq.
  pose proof (keeps_put_snap same_states cmd cp s3) as Hs4.
  destruct (put_snap cmd cp s3) as [[] s4|e s4] eqn:Hn.
  2:{ revert Hn. unfold put_snap. by destruct (has cmd SYS_SNAP). }
  simpl in Hs2, Hs3, Hs4.
  assert (∀ q, state (getproc s4 q) = state (getproc s q)) as Hst.
  { intros q. by rewrite Hs4, Hs3, Hs2, Hs1, Hs0. }
  assert (state (getproc s4 cp) = PROC_STOP) as Hcp.
  { by rewrite Hs4, Hs3, Hs2, Hs1. }
  unfold proc_ready, modproc.
  destruct (has cmd SYS_START); simpl; intros [= _ <-].
  - split; [by rewrite getproc_setproc_eq|].
    intros q Hq. by rewrite getproc_setproc, decide_False.
  - done.
Qed.

End Start.

(** ** CPUTS of a string that is not readable to its end *)

Section CputsFault.
Context {cfg : Config}.

(** A copy from user memory that faults, under usercopy: sysrecover
    reflects the page fault. *)
Lemma usercopy_in_fault (Hok : config_ok cfg) utf kva uva size s bs e :
  u32 uva → u32 size →
  VM_USERLO ≤ uva ∧ uva + size < VM_USERHI →
  recover (cur s) = None →
  uread (umem s) uva (Z.to_nat size) = (bs, Some e) →
  usercopy utf false kva uva size s
  = Exit (EProcRet (set_trap (recoverdata (cur s)) T_PGFLT e) 0)
         (set_recover None
            (log (EvRead uva bs true)
               (kwrite kva bs (set_recover (Some FN_sysrecover) s)))).
Proof.
  intros Hu Hs Hv Hrec Hread. unfold usercopy.
  rewrite (bind_ok _ _ _ _ _ (checkva_accepted Hok utf uva size s Hu Hs Hv)).
  rewrite bind_eq, kget_eq, Hrec, bind_eq. simpl.
  rewrite bind_eq, kmod_eq, bind_eq. unfold memmove_user.
  change (umem (set_recover (Some FN_sysrecover) s)) with (umem s).
  rewrite Hread. rewrite trap_sysrecover by (by destruct kva).
  by destruct kva.
Qed.

(** [X18] do_cputs always copies CPUTS_MAX bytes, wherever the string
    ends.  When the block of CPUTS_MAX bytes at EBX passes checkva but
    one of its bytes cannot be read, the call puts nothing on the
    console, even if the bytes before the fault hold the terminating
    NUL of the string: it ends by reflecting the page fault to the
    parent, with the error code of the faulting access, and the log
    holds the read of the bytes before the fault and nothing else. *)
Theorem cputs_needs_whole_block (Hok : config_ok cfg) tf cmd s bs e :
  let uva := ebx (regs tf) in
  u32 uva →
  VM_USERLO ≤ uva ∧ uva + CPUTS_MAX < VM_USERHI →
  recover (cur s) = None →
  uread (umem s) uva (Z.to_nat CPUTS_MAX) = (bs, Some e) →
  ∃ s', do_cputs tf cmd s
        = Exit (EProcRet (set_trap (recoverdata (cur s)) T_PGFLT e) 0) s'
        ∧ klog s' = EvRead uva bs true :: klog s.
Proof.
  intros uva Hu Hv Hrec Hread. pose proof Hok as [].
  assert (u32 CPUTS_MAX) as Hmax by (unfold u32; lia).
  unfold do_cputs. rewrite bind_eq, kmod_eq.
  set (s0 := set_kbuf _ s).
  eexists. split.
  - apply bind_exit.
    by apply (usercopy_in_fault Hok tf KBuf uva CPUTS_MAX s0 bs e).
  - done.
Qed.

End CputsFault.

(** ** Register transfers that do not complete *)

Section Partial.
Context {cfg : Config}.

(** The traps that the register transfer of PUT reflects are page
    faults. *)
Lemma usercopy_reflects utf copyout kva uva size s tf' n s' :
  usercopy utf copyout kva uva size s = Exit (EProcRet tf' n) s' →
  trapno tf' = T_PGFLT.
Proof.
  unfold usercopy. rewrite bind_eq.
  destruct (checkva_cases utf uva size s) as [[-> _]|[-> _]];
    [|by intros [= <- _ _]].
  rewrite bind_eq, kget_eq.
  destruct (bool_decide (recover (cur s) = None)); [|done].
  rewrite bind_eq, assert_true, bind_eq, kmod_eq, bind_eq.
  destruct (memmove_user_cases copyout kva uva size
              (set_recover (Some FN_sysrecover) s))
    as (s1 & ev & [-> | [e ->]] & _ & Hcur & _ & _).
  - rewrite bind_eq, kget_eq. destruct (bool_decide _); done.
  - rewrite trap_sysrecover by (by rewrite Hcur). by intros [= <- _ _].
Qed.

Lemma memmove_user_reflects copyout kva uva size s tf' n s' :
  memmove_user copyout kva uva size s = Exit (EProcRet tf' n) s' →
  trapno tf' = T_PGFLT.
Proof.
  destruct (memmove_user_cases copyout kva uva size s)
    as (s1 & ev & [-> | [e ->]] & _ & _ & _ & _); [done|].
  unfold trap, sysrecover.
  destruct (recover (cur s1)) as [[|k]|]; [|done..].
  rewrite decide_True by done. by intros [= <- _ _].
Qed.

Lemma put_regs_reflects tf cmd cp s tf' n s' :
  put_regs tf cmd cp s = Exit (EProcRet tf' n) s' → trapno tf' = T_PGFLT.
Proof.
  unfold put_regs. destruct (has cmd SYS_REGS); [|done]. simpl.
  rewrite bind_eq.
  destruct (usercopy _ _ _ _ _ s) as [[] s1|e s1] eqn:Hu.
  2:{ intros [= -> ->]. by apply usercopy_reflects in Hu. }
  rewrite bind_eq.
  destruct (memmove_user _ _ _ _ s1) as [[] s2|e s2] eqn:Hm.
  2:{ intros [= -> ->]. by apply memmove_user_reflects in Hm. }
  done.
Qed.

(** [X19] The rejection of a PUT by T_GPFLT comes after its register
    transfer.  When a PUT with SYS_REGS on an existing child ends by
    reflecting T_GPFLT (for its memory operation or its permission
    step), the save-area of the child has already been replaced: it
    holds the rewrite of the bytes read at EBX, laid over what it held
    before. *)
Theorem gpflt_after_regs tf cmd s cp tf' n s' :
  T_GPFLT ≠ T_PGFLT →
  has cmd SYS_REGS = true →
  named_child tf s = Some cp →
  do_put tf cmd s = Exit (EProcRet tf' n) s' →
  trapno tf' = T_GPFLT →
  ∃ X, uread (umem s) (ebx (regs tf)) (Z.to_nat (regs_len cmd)) = (X, None)
       ∧ sv (getproc s' cp) = forced (overwrite X (sv (getproc s cp))).
Proof.
  intros Hne Hregs Hnamed Hput Htrap. revert Hput. rewrite do_put_eq.
  destruct (put_child_cases tf s) as [[_ ->]|[_ Hc]]; [done|].
  rewrite Hnamed in Hc. destruct Hc as [[_ ->]|[_ ->]]; [|done].
  simpl. unfold put_body. rewrite bind_eq.
  destruct (put_regs tf cmd cp s) as [[] s1|e s1] eqn:Hr.
  2:{ intros [= -> ->]. apply put_regs_reflects in Hr. congruence. }
  intros Htail.
  destruct (put_regs_ok _ _ _ _ _ Hregs Hr) as (X & HX & Hsv & _ & _).
  exists X. split; [done|].
  pose proof (keeps_put_tail same_regs tf cmd (cpu_proc (cur s)) cp s1)
    as [_ Ht].
  unfold put_tail in Htail. rewrite Htail in Ht. simpl in Ht.
  destruct (Ht cp) as [_ ->]. done.
Qed.

(** [X20] A PUT with SYS_REGS whose copy under the recovery handler
    faults leaves the save-area of the child partly replaced and not
    rewritten.  For a call on a stopped child, made by a caller running
    on this CPU with no recovery handler installed, whose block at EBX
    passes checkva but cannot be read to its end: the call reflects the
    page fault to the parent, and the save-area of the child holds the
    bytes read before the fault, as the caller supplied them, laid over
    what it held before. *)
Theorem put_regs_fault_partial (Hok : config_ok cfg) tf cmd s cp bs e :
  let uva := ebx (regs tf) in
  has cmd SYS_REGS = true →
  caller_runs s → named_child tf s = Some cp →
  state (getproc s cp) = PROC_STOP →
  recover (cur s) = None →
  u32 uva → u32 (regs_len cmd) →
  VM_USERLO ≤ uva ∧ uva + regs_len cmd < VM_USERHI →
  uread (umem s) uva (Z.to_nat (regs_len cmd)) = (bs, Some e) →
  ∃ s', do_put tf cmd s
        = Exit (EProcRet (set_trap (recoverdata (cur s)) T_PGFLT e) 0) s'
        ∧ sv (getproc s' cp) = overwrite bs (sv (getproc s cp)).
Proof.
  intros uva Hregs Hrun Hnamed Hstop Hrec Hu Hl Hv Hread.
  rewrite do_put_eq.
  destruct (put_child_cases tf s) as [[? _]|[_ Hc]]; [done|].
  rewrite Hnamed in Hc. destruct Hc as [[_ ->]|[? _]]; [|done].
  simpl. unfold put_body, put_regs. rewrite Hregs. simpl.
  eexists. split.
  - apply bind_exit, bind_exit.
    by apply (usercopy_in_fault Hok tf (KSv cp) uva (regs_len cmd) s bs e).
  - rewrite getproc_set_recover, getproc_log. unfold kwrite.
    by rewrite getproc_setproc_eq.
Qed.

(** [X21] The save-areas are written by the register transfer only: a
    PUT without SYS_REGS on an existing child leaves the save-area of
    every process as it was, however the call ends. *)
Theorem put_without_regs_keeps_sv tf cmd s q :
  has cmd SYS_REGS = false → is_Some (named_child tf s) →
  sv (getproc (final (do_put tf cmd s)) q) = sv (getproc s q).
Proof.
  intros Hregs [cp Hnamed]. rewrite do_put_eq.
  destruct (put_child_cases tf s) as [[_ ->]|[_ Hc]]; [done|].
  rewrite Hnamed in Hc. destruct Hc as [[_ ->]|[_ ->]]; [|done].
  cbv beta iota. unfold put_body. rewrite bind_eq.
  unfold put_regs. rewrite Hregs. unfold when, mret, K_ret. cbv beta iota.
  pose proof (keeps_put_tail same_regs tf cmd (cpu_proc (cur s)) cp s)
    as [_ Ht].
  destruct (Ht q) as [_ Hq]. exact Hq.
Qed.

End Partial.

(** ** What CPUTS prints *)

Section CputsString.
Context {cfg : Config}.

(** The string of a buffer that ends in a NUL. *)
Lemma cstring_app_nul data :
  Forall (λ b, b ≠ 0) (cstring (data ++ [0]))
  ∧ (cstring (data ++ [0]) = data
     ∨ ∃ rest, data = cstring (data ++ [0]) ++ 0 :: rest).
Proof.
  induction data as [|b d [IH1 IH2]]; simpl.
  - split; [done|by left].
  - destruct (b =? 0) eqn:Hb.
    + apply Z.eqb_eq in Hb as ->. split; [done|]. right. by exists d.
    + apply Z.eqb_neq in Hb. split; [by constructor|].
      destruct IH2 as [->|[rest Hrest]]; [by left|right].
      exists rest. simpl. by rewrite <- Hrest.
Qed.

(** [X22] What do_cputs prints.  For a call with no recovery handler
    installed whose block of CPUTS_MAX bytes at EBX passes checkva and
    is readable, the console receives one string and the call returns
    to the caller: the string holds no NUL, and it is the bytes of the
    block up to the first NUL, or all CPUTS_MAX bytes of the block if
    there is none. *)
Theorem cputs_prints_string (Hok : config_ok cfg) tf cmd s data :
  let uva := ebx (regs tf) in
  u32 uva →
  VM_USERLO ≤ uva ∧ uva + CPUTS_MAX < VM_USERHI →
  recover (cur s) = None →
  uread (umem s) uva (Z.to_nat CPUTS_MAX) = (data, None) →
  ∃ s' str,
    do_cputs tf cmd s = Exit (ETrapReturn tf) s'
    ∧ klog s' = EvCons str :: EvRead uva data true :: klog s
    ∧ Forall (λ b, b ≠ 0) str
    ∧ (length str ≤ Z.to_nat CPUTS_MAX)%nat
    ∧ (str = data ∨ ∃ rest, data = str ++ 0 :: rest).
Proof.
  intros uva Hu Hv Hrec Hread. pose proof Hok as [].
  assert (u32 CPUTS_MAX) as Hmax by (unfold u32; lia).
  pose proof (uread_ok_length _ _ _ _ Hread) as Hlen.
  unfold do_cputs. rewrite bind_eq, kmod_eq.
  set (s0 := set_kbuf _ s).
  rewrite (bind_ok _ _ _ _ _
    (usercopy_in_run Hok tf KBuf uva CPUTS_MAX s0 data Hu Hmax
       Hv Hrec Hread)).
  rewrite bind_eq, kmod_eq, bind_eq, kget_eq.
  assert (<[Z.to_nat CPUTS_MAX:=0]>
            (overwrite data (resize (Z.to_nat (CPUTS_MAX + 1)) 0 (kbuf s)))
          = data ++ [0]) as Hbuf.
  { replace (Z.to_nat (CPUTS_MAX + 1)) with (S (Z.to_nat CPUTS_MAX)) by lia.
    by apply terminate_buffer. }
  destruct (cstring_app_nul data) as [Hnz Hstr].
  eexists _, (cstring (data ++ [0])). split; [reflexivity|].
  split; [simpl; by rewrite Hbuf|]. split; [done|]. split; [|done].
  destruct Hstr as [->|[rest Hrest]]; [lia|].
  rewrite <- Hlen. rewrite Hrest at 2. rewrite length_app. lia.
Qed.

End CputsString.

(** ** When usercopy returns *)

Section Returns.
Context {cfg : Config}.

(** [X23] usercopy returns to its caller exactly when the block passes
    checkva, no recovery handler is installed at entry, and every byte
    of the block can be accessed: read, for a copy from user memory;
    written, for a copy of the first [size] bytes of the kernel buffer
    to user memory. *)
Theorem usercopy_returns_iff (Hok : config_ok cfg)
    utf copyout kva uva size s :
  u32 uva → u32 size →
  (∃ s1, usercopy utf copyout kva uva size s = Ok tt s1)
  ↔ (VM_USERLO ≤ uva ∧ uva + size < VM_USERHI)
    ∧ recover (cur s) = None
    ∧ if copyout
      then ∃ m' n, uwrite (umem s) uva (take (Z.to_nat size) (kread kva s))
                   = (m', n, None)
      else ∃ bs, uread (umem s) uva (Z.to_nat size) = (bs, None).
Proof.
  intros Hu Hs. split.
  - intros [s1 Hc].
    pose proof (usercopy_ok_check _ _ _ _ _ _ _ Hc) as Ht.
    apply (checkva_test Hok uva size Hu Hs) in Ht.
    apply usercopy_ok in Hc as (Hrec & s' & Hm & _).
    split; [done|]. split; [done|]. destruct copyout.
    + apply memmove_out_ok in Hm as (m' & Hw & _).
      eexists _, _.
      replace (kread kva s)
        with (kread kva (set_recover (Some FN_sysrecover) s))
        by (by destruct kva).
      exact Hw.
    + apply memmove_in_ok in Hm as (X & HX & _). by exists X.
  - intros (Hv & Hrec & Hacc).
    apply (checkva_test Hok uva size Hu Hs) in Hv.
    destruct copyout.
    + destruct Hacc as (m' & n & Hw).
      eexists. apply usercopy_run; [done..|]. unfold memmove_user.
      replace (kread kva (set_recover (Some FN_sysrecover) s))
        with (kread kva s) by (by destruct kva).
      change (umem (set_recover (Some FN_sysrecover) s)) with (umem s).
      rewrite Hw. reflexivity.
    + destruct Hacc as (bs & Hr).
      eexists. apply usercopy_run; [done..|]. unfold memmove_user.
      change (umem (set_recover (Some FN_sysrecover) s)) with (umem s).
      rewrite Hr. reflexivity.
Qed.

End Returns.

(** ** A GET with SNAP is rejected last *)

Section SnapLast.
Context {cfg : Config}.

(** [X24] do_get tests SYS_SNAP after its other steps, so the rejection
    of a GET with SNAP comes after its memory operation.  For a GET
    with SYS_SNAP and without SYS_PERM that gets as far as the memory
    operation, with one of COPY, MERGE and ZERO asked for and the
    regions passing the checks: the call reflects T_GPFLT to the
    parent, and the page-map operation has been carried out on the page
    map of the caller before. *)
Theorem get_snap_after_memop (Hok : config_ok cfg) tf cmd s p cp s1 :
  let sva := esi (regs tf) in
  let dva := edi (regs tf) in
  let size := ecx (regs tf) in
  let m := Z.land cmd SYS_MEMOP in
  u32 sva → u32 dva → u32 size →
  has cmd SYS_SNAP = true → has cmd SYS_PERM = false →
  m = SYS_COPY ∨ m = SYS_MERGE ∨ m = SYS_ZERO →
  region_ok PTOFF dva size →
  (m = SYS_COPY ∨ m = SYS_MERGE → region_ok PTOFF sva size) →
  get_before_memop tf cmd s = Ok (p, cp) s1 →
  ∃ s2 op,
    get_memop tf cmd p cp s1 = Ok tt s2
    ∧ klog s2 = EvPmap op :: klog s1
    ∧ do_get tf cmd s = Exit (EProcRet (set_trap tf T_GPFLT 0) 0) s2.
Proof.
  intros sva dva size m Hs Hd Hz Hsnap Hperm Hm Hdst Hsrc Hpre.
  destruct (get_memop_valid Hok tf cmd p cp s1 Hs Hd Hz Hm Hdst Hsrc)
    as (s2 & op & Hop & Hlog).
  exists s2, op. split; [done|]. split; [done|].
  rewrite (do_get_from_memop _ _ _ _ _ _ Hpre).
  rewrite (bind_ok _ _ _ _ _ Hop).
  unfold get_perm, get_snap. by rewrite Hperm, Hsnap.
Qed.

End SnapLast.

(** ** COPY there and back *)

Global Instance same_procs_preorder : PreOrder same_procs.
Proof.
  split.
  - by intros s q.
  - intros s1 s2 s3 H1 H2 q. by rewrite H2, H1.
Qed.

Global Instance same_procs_frame : Frame same_procs.
Proof. split; [apply _|..]; done. Qed.

Section CopyRoundTrip.
Context {cfg : Config}.





End CopyRoundTrip.
(** * The handlers on the PIOS constants *)

Section Pios.
#[local] Existing Instance pios.

(** CPUTS of a string in the last CPUTS_MAX bytes of the user address
    range: the block that do_cputs hands to usercopy ends at VM_USERHI,
    so it lies in the user address range, and usercopy rejects it. *)
Lemma usercopy_validation_witness :
  (VM_USERLO ≤ ebx (regs tf_cputs_last)
   ∧ ebx (regs tf_cputs_last) + CPUTS_MAX ≤ VM_USERHI)
  ∧ usercopy tf_cputs_last false KBuf (ebx (regs tf_cputs_last)) CPUTS_MAX
      ex_state
    = Exit (EProcRet (set_trap tf_cputs_last T_PGFLT 0) 0) ex_state.
Proof.
  split; [by vm_compute|].
  apply (usercopy_validation pios_ok).
  - by vm_compute.
  - by vm_compute.
  - intros [_ H]. vm_compute in H. discriminate H.
Defined.

(** A PUT with REGS and COPY whose size is not aligned and whose
    save-area pointer is bad: the register transfer comes first and
    reflects T_PGFLT, not T_GPFLT. *)
Lemma memop_validation_counterexample :
  Z.land 0x21001 SYS_MEMOP ≠ 0
  ∧ ¬ region_ok PTOFF (edi (regs tf_put_copy1_regs0))
                      (ecx (regs tf_put_copy1_regs0))
  ∧ exit_of (do_put tf_put_copy1_regs0 0x21001 ex_state)
    = Some (EProcRet (set_trap tf_put_copy1_regs0 T_PGFLT 0) 0)
  ∧ T_PGFLT ≠ T_GPFLT.
Proof.
  split; [by vm_compute|]. split.
  { intros (_ & H & _). by vm_compute in H. }
  split; [|by vm_compute].
  vm_compute. reflexivity.
Qed.

(** A PUT with COPY of one byte gets to the memory operation and is
    rejected there. *)
Lemma memop_validation_witness :
  ∃ s1, do_put tf_put_copy1 0x20001 ex_state
        = Exit (EProcRet (set_trap tf_put_copy1 13 0) 0) s1
        ∧ same_pmaps ex_state s1.
Proof.
  eexists.
  assert (u32 0x40000000) as Hu by (by vm_compute).
  assert (u32 1) as H1 by (by vm_compute).
  refine (proj1 (proj1 (memop_validation pios_ok tf_put_copy1 0x20001
            Hu Hu H1 _) ex_state 1%nat 2%nat _ _) _).
  - by vm_compute.
  - reflexivity.
  - intros [(_ & H & _) _]. by vm_compute in H.
Defined.

(** A PUT with the MERGE pattern gets to the memory operation and is
    rejected there. *)
Lemma put_memop_pattern_rejected_witness :
  Z.land 0x30001 SYS_MEMOP = SYS_MERGE
  ∧ ∃ s1, do_put tf_put_merge 0x30001 ex_state
          = Exit (EProcRet (set_trap tf_put_merge 13 0) 0) s1.
Proof.
  split; [by vm_compute|]. eexists.
  refine (proj1 (put_memop_pattern_rejected tf_put_merge 0x30001 _ _ _)
            ex_state 1%nat 2%nat _ _).
  - by vm_compute.
  - by vm_compute.
  - by vm_compute.
  - reflexivity.
Defined.

(** A PUT with the MERGE pattern and REGS with a bad save-area pointer
    reflects T_PGFLT, not T_GPFLT. *)
Lemma put_memop_pattern_counterexample :
  Z.land 0x31001 SYS_MEMOP = SYS_MERGE
  ∧ exit_of (do_put tf_put_merge_regs0 0x31001 ex_state)
    = Some (EProcRet (set_trap tf_put_merge_regs0 T_PGFLT 0) 0)
  ∧ T_PGFLT ≠ T_GPFLT.
Proof.
  split; [by vm_compute|]. split; [|by vm_compute].
  vm_compute. reflexivity.
Qed.

(** A GET with SNAP gets to the test of SNAP and is rejected there. *)
Lemma get_snap_rejected_witness :
  ∃ s1, do_get tf_get_snap 0x40002 ex_state
        = Exit (EProcRet (set_trap tf_get_snap 13 0) 0) s1.
Proof.
  eexists.
  refine (proj1 (get_snap_rejected tf_get_snap 0x40002 _)
            ex_state 1%nat 0%nat _ _).
  - by vm_compute.
  - reflexivity.
Defined.

(** A GET with SNAP and REGS with a bad save-area pointer reflects
    T_PGFLT, not T_GPFLT. *)
Lemma get_snap_counterexample :
  has 0x41002 SYS_SNAP = true
  ∧ exit_of (do_get tf_get_snap_regs0 0x41002 ex_state)
    = Some (EProcRet (set_trap tf_get_snap_regs0 T_PGFLT 0) 0)
  ∧ T_PGFLT ≠ T_GPFLT.
Proof.
  split; [by vm_compute|]. split; [|by vm_compute].
  vm_compute. reflexivity.
Qed.

(** A GET on slot 7 of a process without children. *)
Lemma get_missing_child_witness :
  child (getproc (final (do_get tf_get 2 ex_state)) 1%nat)
  = child (getproc ex_state 1%nat)
  ∧ nfree (final (do_get tf_get 2 ex_state)) = nfree ex_state
  ∧ state (getproc (final (do_get tf_get 2 ex_state)) proc_null) = PROC_STOP.
Proof.
  assert (child (getproc ex_state (cpu_proc (cur ex_state)))
            !! Z.land (edx (regs tf_get)) 0xff = None) as Hslot
    by (by vm_compute).
  destruct (get_missing_child tf_get 2 ex_state Hslot)
    as (_ & _ & _ & Hch & Hn & _ & Hstop).
  split; [exact Hch|]. split; [exact Hn|]. by apply Hstop.
Defined.


(** A PUT with COPY and SNAP on child 7, whose reference page map is
    empty before the call: afterwards the reference page map holds the
    page that the call has copied to 0x40400000 and the page that the
    child had at 0x40000000, and the page map of the child holds them
    as well. *)
Lemma put_snap_baseline_witness :
  rpdir (getproc ex_maps 2%nat) 0x40400000 = pte_zero
  ∧ rpdir (getproc ex_maps 2%nat) 0x40000000 = pte_zero
  ∧ rpdir (getproc (final (do_put tf_put_copy_snap 0x60001 ex_maps)) 2%nat)
      0x40400000 = (0x100, 0x600)
  ∧ pdir (getproc (final (do_put tf_put_copy_snap 0x60001 ex_maps)) 2%nat)
      0x40400000 = (0x100, 0x600)
  ∧ rpdir (getproc (final (do_put tf_put_copy_snap 0x60001 ex_maps)) 2%nat)
      0x40000000 = (9, 0x200)
  ∧ pdir (getproc (final (do_put tf_put_copy_snap 0x60001 ex_maps)) 2%nat)
      0x40000000 = (9, 0x200).
Proof.
  assert (exit_of (do_put tf_put_copy_snap 0x60001 ex_maps)
          = Some (ETrapReturn tf_put_copy_snap)) as H
    by (vm_compute; reflexivity).
  assert (has 0x60001 SYS_SNAP = true) as Hsnap by (by vm_compute).
  destruct (put_snap_baseline pios_ok tf_put_copy_snap 0x60001 ex_maps
              tf_put_copy_snap _ Hsnap (exit_final _ _ H))
    as (cp & s0 & Hslot & Hrun & Hr & Hp & _).
  assert (cp = 2%nat) as -> by (vm_compute in Hslot; congruence).
  assert (s0 = final (put_before_snap tf_put_copy_snap 0x60001 ex_maps))
    as -> by (by rewrite Hrun).
  assert (VM_USERLO ≤ 0x40400000 < VM_USERHI) as H1 by (by vm_compute).
  assert (VM_USERLO ≤ 0x40000000 < VM_USERHI) as H2 by (by vm_compute).
  split; [by vm_compute|]. split; [by vm_compute|].
  rewrite (Hr _ H1), (Hr _ H2), !Hp.
  repeat split; by vm_compute.
Defined.

(** CPUTS of the 256 bytes at 0x40000010. *)
Lemma cputs_spec_witness :
  ∃ data s',
    do_cputs tf_cputs 0 ex_state = Exit (ETrapReturn tf_cputs) s'
    ∧ length data = 256%nat
    ∧ kbuf s' = data ++ [0]
    ∧ klog s' = [EvCons (cstring (data ++ [0])); EvRead 0x40000010 data true].
Proof.
  assert (u32 (ebx (regs tf_cputs))) as Hu by (by vm_compute).
  destruct (cputs_spec pios_ok tf_cputs 0 ex_state Hu) as [Hrun _].
  eexists. refine (Hrun _ _ _ _).
  - by vm_compute.
  - reflexivity.
  - vm_compute. reflexivity.
Defined.

(** CPUTS with the user pointer VM_USERHI - 4 does not return to the
    caller: it reflects T_PGFLT. *)
Lemma cputs_counterexample :
  ebx (regs tf_cputs_top) = VM_USERHI - 4
  ∧ exit_of (do_cputs tf_cputs_top 0 ex_state)
    = Some (EProcRet (set_trap tf_cputs_top T_PGFLT 0) 0)
  ∧ exit_of (do_cputs tf_cputs_top 0 ex_state)
    ≠ Some (ETrapReturn tf_cputs_top).
Proof.
  split; [by vm_compute|]. split; [vm_compute; reflexivity|].
  vm_compute. discriminate.
Qed.


(** The invariant of the null process holds of the state above. *)
Lemma ex_state_null_inv : null_inv ex_state.
Proof.
  split; [by vm_compute|]. intros q cn. unfold getproc, ex_state. simpl.
  destruct (decide (q = 0%nat)) as [->|H0].
  { rewrite lookup_insert_eq. simpl. by rewrite lookup_empty. }
  rewrite lookup_insert_ne by done.
  destruct (decide (q = 1%nat)) as [->|H1].
  { rewrite lookup_singleton_eq. simpl. by rewrite lookup_empty. }
  rewrite lookup_singleton_ne by done. simpl. by rewrite lookup_empty.
Qed.

(** A call of type 7 returns to the trap dispatcher, and RET ends in
    proc_ret with entry 1. *)
Lemma syscall_dispatch_witness :
  syscall tf_undefined ex_state = Ok tt ex_state
  ∧ value_of (syscall tf_put_regs ex_state) = None
  ∧ syscall tf_ret ex_state = Exit (EProcRet tf_ret 1) ex_state.
Proof.
  split; [|split].
  - apply (syscall_dispatch tf_undefined ex_state); by vm_compute.
  - apply (syscall_dispatch tf_put_regs ex_state). right; left. by vm_compute.
  - apply (syscall_dispatch tf_ret ex_state); by vm_compute.
Defined.

(** The CPU block after a PUT with REGS into a new child. *)
Lemma syscall_cpu_unchanged_witness :
  cur (final (syscall tf_put_regs ex_state)) = cur ex_state.
Proof. apply syscall_cpu_unchanged. reflexivity. Defined.

(** The state above satisfies the assertion of the handlers. *)
Lemma syscall_assertions_hold_witness :
  (∀ s', syscall tf_put_regs ex_state ≠ Exit (EPanic "assertion failed") s')
  ∧ (∀ n ktf s', syscall tf_put_regs ex_state ≠ Exit (EDiverted n ktf) s').
Proof.
  apply syscall_assertions_hold; [reflexivity|]. split; by vm_compute.
Defined.

(** CPUTS with the user pointer VM_USERHI - 4: the trap is reflected
    on the trapframe of the call, with entry 0. *)
Lemma syscall_exits_witness :
  exit_of (syscall tf_cputs_top ex_state)
  = Some (EProcRet (set_trap tf_cputs_top T_PGFLT 0) 0)
  ∧ ((0 = 1 ∧ set_trap tf_cputs_top T_PGFLT 0 = tf_cputs_top
      ∧ final (syscall tf_cputs_top ex_state) = ex_state
      ∧ Z.land (eax (regs tf_cputs_top)) SYS_TYPE = SYS_RET)
     ∨ (0 = 0
        ∧ (set_trap tf_cputs_top T_PGFLT 0 = set_trap tf_cputs_top T_GPFLT 0
           ∨ set_trap tf_cputs_top T_PGFLT 0 = set_trap tf_cputs_top T_PGFLT 0
           ∨ ∃ k, set_trap tf_cputs_top T_PGFLT 0
                  = set_trap (recoverdata (cur ex_state)) T_PGFLT k))).
Proof.
  assert (exit_of (syscall tf_cputs_top ex_state)
          = Some (EProcRet (set_trap tf_cputs_top T_PGFLT 0) 0)) as H
    by (vm_compute; reflexivity).
  split; [exact H|].
  exact (syscall_exits tf_cputs_top ex_state _ _ eq_refl (exit_final _ _ H)).
Defined.

(** PUT and GET on slot 7 of a caller whose child there is ready to
    run. *)
Lemma busy_child_waits_witness :
  do_put tf_put_regs 0x1001 ex_busy = Exit (EProcWait 1%nat 2%nat tf_put_regs) ex_busy
  ∧ do_get tf_put_regs 0x1001 ex_busy
    = Exit (EProcWait 1%nat 2%nat tf_put_regs) ex_busy.
Proof.
  apply (busy_child_waits tf_put_regs 0x1001 ex_busy 2%nat).
  - split; by vm_compute.
  - by vm_compute.
  - by vm_compute.
Defined.

(** A copy of 80 bytes of the save-area of process 1 to 0x40001000. *)
Lemma usercopy_confined_witness :
  (∀ a, umem (final (usercopy tf_get_regs true (KSv 1) 0x40001000 80
                       ex_state)) a ≠ umem ex_state a →
        true = true ∧ 0x40001000 ≤ a < 0x40001000 + 80
        ∧ VM_USERLO ≤ a < VM_USERHI)
  ∧ drop (Z.to_nat 80)
      (kread (KSv 1) (final (usercopy tf_get_regs true (KSv 1) 0x40001000 80
                               ex_state)))
    = drop (Z.to_nat 80) (kread (KSv 1) ex_state)
  ∧ (∀ k, true = true ∨ k ≠ KSv 1 →
          kread k (final (usercopy tf_get_regs true (KSv 1) 0x40001000 80
                            ex_state))
          = kread k ex_state).
Proof.
  apply (usercopy_confined pios_ok tf_get_regs true (KSv 1) 0x40001000 80
           ex_state); by vm_compute.
Defined.

(** The same copy, read back into the local buffer. *)
Lemma usercopy_out_in_witness :
  ∃ s2, usercopy tf_get_regs false KBuf 0x40001000 80
          (final (usercopy tf_get_regs true (KSv 1) 0x40001000 80 ex_state))
        = Ok tt s2
        ∧ take (Z.to_nat 80) (kbuf s2)
          = take (Z.to_nat 80) (kread (KSv 1) ex_state).
Proof.
  assert (value_of (usercopy tf_get_regs true (KSv 1) 0x40001000 80 ex_state)
          = Some tt) as H by (by vm_compute).
  refine (usercopy_out_in tf_get_regs tf_get_regs (KSv 1) 0x40001000 80
            ex_state _ (value_final _ _ H) _).
  vm_compute. lia.
Defined.

(** A GET with REGS from the empty slot 7 to 0x40001000: the byte at
    0x40001001 has changed. *)
Lemma get_user_memory_witness :
  umem (final (do_get tf_get_regs 0x1002 ex_state)) 0x40001001
  ≠ umem ex_state 0x40001001
  ∧ has 0x1002 SYS_REGS = true
  ∧ ebx (regs tf_get_regs) ≤ 0x40001001
    < ebx (regs tf_get_regs) + regs_len 0x1002
  ∧ VM_USERLO ≤ 0x40001001 < VM_USERHI.
Proof.
  assert (umem (final (do_get tf_get_regs 0x1002 ex_state)) 0x40001001
          ≠ umem ex_state 0x40001001) as H.
  { vm_compute. discriminate. }
  split; [exact H|].
  apply (get_user_memory pios_ok tf_get_regs 0x1002 ex_state 0x40001001);
    [by vm_compute|by vm_compute|exact H].
Defined.

(** The same GET delivers the save-area of proc_null. *)
Lemma get_regs_delivers_witness :
  uread (umem (final (do_get tf_get_regs 0x1002 ex_state)))
    (ebx (regs tf_get_regs)) (Z.to_nat (regs_len 0x1002))
  = (take (Z.to_nat (regs_len 0x1002))
       (sv (getproc ex_state
              (default proc_null (named_child tf_get_regs ex_state)))),
     None).
Proof.
  assert (exit_of (do_get tf_get_regs 0x1002 ex_state)
          = Some (ETrapReturn tf_get_regs)) as H
    by (vm_compute; reflexivity).
  refine (get_regs_delivers tf_get_regs 0x1002 ex_state tf_get_regs _ _ _ _
            (exit_final _ _ H)).
  - by vm_compute.
  - by vm_compute.
  - vm_compute. lia.
Defined.

(** A PUT with COPY of one byte is rejected, and the page maps are as
    they were. *)
Lemma rejected_call_keeps_pmaps_witness :
  same_pmaps ex_state (final (do_put tf_put_copy1 0x20001 ex_state)).
Proof.
  assert (exit_of (do_put tf_put_copy1 0x20001 ex_state)
          = Some (EProcRet (set_trap tf_put_copy1 13 0) 0)) as H
    by (vm_compute; reflexivity).
  assert (Z.land (PTSIZE - 1) (PGSIZE - 1) = PGSIZE - 1) as Hmask
    by (by vm_compute).
  exact (proj1 (rejected_call_keeps_pmaps tf_put_copy1 0x20001 ex_state
                  _ _ _ Hmask) (exit_final _ _ H)).
Defined.

(** A PUT with PERM on half a page is rejected. *)
Lemma perm_validation_witness :
  ∃ s1, do_put tf_put_perm_half 0x701 ex_state
        = Exit (EProcRet (set_trap tf_put_perm_half 13 0) 0) s1.
Proof.
  eexists.
  assert (u32 (edi (regs tf_put_perm_half))) as Hd by (by vm_compute).
  assert (u32 (ecx (regs tf_put_perm_half))) as Hs by (by vm_compute).
  assert (has 0x701 SYS_PERM = true) as Hp by (by vm_compute).
  refine (proj1 (proj1 (perm_validation pios_ok tf_put_perm_half 0x701
                          Hd Hs Hp) _) ex_state 1%nat 2%nat _ _).
  - intros (_ & H & _). by vm_compute in H.
  - reflexivity.
Defined.

(** The saved trapframe of child 7 after the PUT of the save-area at
    0x40000010. *)
Lemma put_regs_user_mode_witness :
  ∃ cp,
    child (getproc (final (do_put tf_put_regs 0x1001 ex_state)) 1%nat)
      !! child_slot tf_put_regs = Some cp
    ∧ Z.land (load off_cs 2
                (sv (getproc (final (do_put tf_put_regs 0x1001 ex_state)) cp)))
        3 = 3
    ∧ Z.land (load off_ds 2
                (sv (getproc (final (do_put tf_put_regs 0x1001 ex_state)) cp)))
        3 = 3
    ∧ Z.land (load off_es 2
                (sv (getproc (final (do_put tf_put_regs 0x1001 ex_state)) cp)))
        3 = 3
    ∧ Z.land (load off_ss 2
                (sv (getproc (final (do_put tf_put_regs 0x1001 ex_state)) cp)))
        3 = 3
    ∧ Z.land (load off_eflags 4
                (sv (getproc (final (do_put tf_put_regs 0x1001 ex_state)) cp)))
        FL_IF = FL_IF
    ∧ Z.land (load off_eflags 4
                (sv (getproc (final (do_put tf_put_regs 0x1001 ex_state)) cp)))
        (Z.lnot (Z.lor FL_USER FL_IF)) = 0.
Proof.
  assert (exit_of (do_put tf_put_regs 0x1001 ex_state)
          = Some (ETrapReturn tf_put_regs)) as H
    by (vm_compute; reflexivity).
  refine (put_regs_user_mode pios_ok tf_put_regs 0x1001 ex_state tf_put_regs
            _ _ (exit_final _ _ H)).
  by vm_compute.
Defined.

(** The same PUT on the stopped child 2. *)
Lemma put_regs_keeps_fpu_witness :
  drop (Z.to_nat procstate_fx)
    (sv (getproc (final (do_put tf_put_regs 0x1001 ex_stopped)) 2%nat))
  = drop (Z.to_nat procstate_fx) (sv (getproc ex_stopped 2%nat)).
Proof.
  assert (exit_of (do_put tf_put_regs 0x1001 ex_stopped)
          = Some (ETrapReturn tf_put_regs)) as H
    by (vm_compute; reflexivity).
  refine (put_regs_keeps_fpu pios_ok tf_put_regs 0x1001 ex_stopped 2%nat
            tf_put_regs _ _ _ _ (exit_final _ _ H)).
  - by vm_compute.
  - by vm_compute.
  - by vm_compute.
Defined.

(** PUT with START on the stopped child 2. *)
Lemma put_start_witness :
  ∃ cp,
    child (getproc (final (do_put tf_put_start 0x11 ex_stopped)) 1%nat)
      !! child_slot tf_put_start = Some cp
    ∧ state (getproc (final (do_put tf_put_start 0x11 ex_stopped)) cp)
      = (if has 0x11 SYS_START then PROC_READY else PROC_STOP)
    ∧ ∀ q, q ≠ cp →
           state (getproc (final (do_put tf_put_start 0x11 ex_stopped)) q)
           = state (getproc ex_stopped q).
Proof.
  assert (exit_of (do_put tf_put_start 0x11 ex_stopped)
          = Some (ETrapReturn tf_put_start)) as H
    by (vm_compute; reflexivity).
  exact (put_start tf_put_start 0x11 ex_stopped tf_put_start _
           (exit_final _ _ H)).
Defined.

(** CPUTS of a block of which the first 128 bytes are mapped. *)
Lemma cputs_needs_whole_block_witness :
  ∃ bs s',
    length bs = 128%nat
    ∧ do_cputs tf_cputs_edge 0 ex_state
      = Exit (EProcRet (set_trap trapframe0 T_PGFLT 0) 0) s'
    ∧ klog s' = [EvRead 0x40001f80 bs true].
Proof.
  assert (u32 (ebx (regs tf_cputs_edge))) as Hu by (by vm_compute).
  assert (∃ bs, length bs = 128%nat
                ∧ uread (umem ex_state) (ebx (regs tf_cputs_edge))
                    (Z.to_nat CPUTS_MAX) = (bs, Some 0)) as (bs & Hlen & Hr).
  { eexists. split; [|vm_compute; reflexivity]. reflexivity. }
  exists bs.
  destruct (cputs_needs_whole_block pios_ok tf_cputs_edge 0 ex_state bs 0 Hu)
    as (s' & Hc & Hlog); [by vm_compute|reflexivity|exact Hr|].
  exists s'. split; [exact Hlen|]. split; [exact Hc|exact Hlog].
Defined.

(** A PUT with REGS and the MERGE pattern on the stopped child 2: the
    call is rejected, and the save-area of the child is replaced. *)
Lemma gpflt_after_regs_witness :
  ∃ X,
    uread (umem ex_stopped) (ebx (regs tf_put_regs_merge))
      (Z.to_nat (regs_len 0x31001)) = (X, None)
    ∧ sv (getproc (final (do_put tf_put_regs_merge 0x31001 ex_stopped)) 2%nat)
      = forced (overwrite X (sv (getproc ex_stopped 2%nat))).
Proof.
  assert (exit_of (do_put tf_put_regs_merge 0x31001 ex_stopped)
          = Some (EProcRet (set_trap tf_put_regs_merge 13 0) 0)) as H
    by (vm_compute; reflexivity).
  refine (gpflt_after_regs tf_put_regs_merge 0x31001 ex_stopped 2%nat _ _ _
            _ _ _ (exit_final _ _ H) _).
  - by vm_compute.
  - by vm_compute.
  - by vm_compute.
  - reflexivity.
Defined.

(** A PUT with REGS of a save-area of which the first 64 bytes are
    mapped, on the stopped child 2. *)
Lemma put_regs_fault_partial_witness :
  ∃ bs s',
    length bs = 64%nat
    ∧ do_put tf_put_regs_edge 0x1001 ex_stopped
      = Exit (EProcRet (set_trap trapframe0 T_PGFLT 0) 0) s'
    ∧ sv (getproc s' 2%nat) = overwrite bs (sv (getproc ex_stopped 2%nat)).
Proof.
  assert (∃ bs, length bs = 64%nat
                ∧ uread (umem ex_stopped) (ebx (regs tf_put_regs_edge))
                    (Z.to_nat (regs_len 0x1001)) = (bs, Some 0))
    as (bs & Hlen & Hr).
  { eexists. split; [|vm_compute; reflexivity]. reflexivity. }
  exists bs.
  destruct (put_regs_fault_partial pios_ok tf_put_regs_edge 0x1001 ex_stopped
              2%nat bs 0) as (s' & Hc & Hsv).
  - by vm_compute.
  - split; by vm_compute.
  - by vm_compute.
  - by vm_compute.
  - reflexivity.
  - by vm_compute.
  - by vm_compute.
  - by vm_compute.
  - exact Hr.
  - exists s'. split; [exact Hlen|]. split; [exact Hc|exact Hsv].
Defined.

(** PUT with START alone on the stopped child 2. *)
Lemma put_without_regs_keeps_sv_witness :
  sv (getproc (final (do_put tf_put_start 0x11 ex_stopped)) 2%nat)
  = sv (getproc ex_stopped 2%nat).
Proof.
  apply put_without_regs_keeps_sv; [by vm_compute|].
  exists 2%nat. by vm_compute.
Defined.

(** CPUTS of the 256 bytes at 0x40000010. *)
Lemma cputs_prints_string_witness :
  ∃ data s' str,
    do_cputs tf_cputs 0 ex_state = Exit (ETrapReturn tf_cputs) s'
    ∧ klog s' = [EvCons str; EvRead 0x40000010 data true]
    ∧ Forall (λ b, b ≠ 0) str
    ∧ (length str ≤ 256)%nat
    ∧ (str = data ∨ ∃ rest, data = str ++ 0 :: rest).
Proof.
  assert (u32 (ebx (regs tf_cputs))) as Hu by (by vm_compute).
  eexists.
  refine (cputs_prints_string pios_ok tf_cputs 0 ex_state _ Hu _ _ _).
  - by vm_compute.
  - reflexivity.
  - vm_compute. reflexivity.
Defined.

(** The copy of CPUTS at 0x40000010 returns. *)
Lemma usercopy_returns_iff_witness :
  (∃ s1, usercopy tf_cputs false KBuf 0x40000010 256 ex_state = Ok tt s1)
  ↔ (VM_USERLO ≤ 0x40000010 ∧ 0x40000010 + 256 < VM_USERHI)
    ∧ recover (cur ex_state) = None
    ∧ ∃ bs, uread (umem ex_state) 0x40000010 (Z.to_nat 256) = (bs, None).
Proof.
  apply (usercopy_returns_iff pios_ok tf_cputs false KBuf 0x40000010 256
           ex_state); by vm_compute.
Defined.

(** The null process after a PUT into a new child. *)
Lemma syscall_null_inv_witness :
  null_inv (final (syscall tf_put_regs ex_state)).
Proof. apply syscall_null_inv, ex_state_null_inv. Defined.

(** A GET with SNAP and ZERO of the 4 MB at VM_USERLO. *)
Lemma get_snap_after_memop_witness :
  ∃ s2 op,
    get_memop tf_get_snap_zero 0x50002 1%nat 0%nat ex_state = Ok tt s2
    ∧ klog s2 = EvPmap op :: klog ex_state
    ∧ do_get tf_get_snap_zero 0x50002 ex_state
      = Exit (EProcRet (set_trap tf_get_snap_zero T_GPFLT 0) 0) s2.
Proof.
  assert (u32 (esi (regs tf_get_snap_zero))) as Hs by (by vm_compute).
  assert (u32 (edi (regs tf_get_snap_zero))) as Hd by (by vm_compute).
  assert (u32 (ecx (regs tf_get_snap_zero))) as Hz by (by vm_compute).
  refine (get_snap_after_memop pios_ok tf_get_snap_zero 0x50002 ex_state
            1%nat 0%nat ex_state Hs Hd Hz _ _ _ _ _ _).
  - by vm_compute.
  - by vm_compute.
  - right; right. by vm_compute.
  - repeat split; by vm_compute.
  - intros [H|H]; by vm_compute in H.
  - reflexivity.
Defined.


End Pios.
